(** * A shallow embedding of the social-media backend

    The repository is a set of Express route handlers over three Mongoose
    models (User, Tweet, Comment).  The embedding keeps the handlers as
    functions from the request and the database to a response and a new
    database:

    - a collection is a finite map from [ObjectId] to documents;
    - an array field ([likes], [following], [comments], ...) is a list, in
      the order Mongoose stores it;
    - a handler that goes through [protect] receives [req_user], the
      [_id] of the already authenticated user ([req.user._id]);
    - a route parameter that the handler only hands to a query
      ([findById], [deleteMany], a new document's reference) arrives already
      cast to [ObjectId]; the handlers' [error.kind === 'ObjectId']
      branches, which answer a malformed identifier, are therefore not
      represented.  The follow route also compares [req.params.id] as a
      string, so there the parameter is the string of the URL, and the
      cast is part of the handler; it takes the one point on which the
      versions of bson differ as a parameter;
    - the two length measures of a JavaScript string that the validators
      read are operations of the class [JsStrings];
    - [now] is the clock value Mongoose reads when it stamps a document
      and [nid] is the identifier [new Model(...)] generates.

    Only the sequential behaviour of completed requests is modelled. *)

From Stdlib Require Import NArith String Ascii HexString List Permutation Lia.
From stdpp Require Import base option list gmap strings sorting.

Local Open Scope string_scope.
Local Open Scope list_scope.

(** ** Identifiers and time *)

(** A BSON ObjectId is a 12-byte value, held here as the number its bytes
    spell.  Two ObjectIds are compared through [toHexString] below. *)
Abbreviation ObjectId := N (only parsing).

(** Milliseconds since the epoch, as [Date] holds them. *)
Abbreviation Time := N (only parsing).

(** The hexadecimal digits of a number, lower case, none for zero. *)
Definition hex_digits (n : N) : string :=
  match n with
  | N0 => ""
  | Npos p => HexString.Raw.of_pos p ""
  end.

Fixpoint zeros (k : nat) : string :=
  match k with
  | O => ""
  | S k' => String "0" (zeros k')
  end.

(** [ObjectId.prototype.toString()], that is [toHexString()]: the 24
    lower-case hexadecimal digits of the 12 bytes. *)
Definition toHexString (id : ObjectId) : string :=
  String.append (zeros (24 - String.length (hex_digits id))) (hex_digits id).

Definition isHexDigit (c : ascii) : bool :=
  match HexString.ascii_to_digit c with
  | Some _ => true
  | None => false
  end.

(** The bson library that builds the ObjectIds is not among the sources,
    and its versions differ on one kind of string: in the earlier ones the
    ObjectId constructor also reads a string of 12 characters that are 12
    bytes as these bytes; the later ones read 24 hexadecimal digits and
    nothing else. *)
Inductive Bson := TwelveBytesToo | HexOnly.

Definition isOneByte (c : ascii) : bool := Nat.ltb (nat_of_ascii c) 128.

(** The number that 12 bytes spell, the first byte the most significant. *)
Definition bytes_to_N (s : string) : N :=
  fold_left (λ n c, (n * 256 + N_of_ascii c)%N) (list_ascii_of_string s) 0%N.

(** The cast Mongoose applies to a string where a query or an update expects
    an ObjectId, [new ObjectId(string)]: a string of 24 hexadecimal digits,
    of either case, is the ObjectId with these digits; a string of 12
    one-byte characters is the ObjectId with these bytes when the bson
    version reads it; any other string is a [CastError]. *)
Definition castObjectId (bson : Bson) (s : string) : option ObjectId :=
  if Nat.eqb (String.length s) 24 && forallb isHexDigit (list_ascii_of_string s)
  then Some (HexString.Raw.to_N s 0)
  else
    match bson with
    | TwelveBytesToo =>
        if Nat.eqb (String.length s) 12
           && forallb isOneByte (list_ascii_of_string s)
        then Some (bytes_to_N s)
        else None
    | HexOnly => None
    end.

(** ** JavaScript strings

    A [string] holds the text of a JavaScript string.  The validators read
    two measures of it, which differ on text outside the Basic Multilingual
    Plane: the length of the string, and the length less what [isLength]
    leaves out.  Both are kept abstract. *)
Class JsStrings := {
  (** [s.length]: the number of UTF-16 code units.  Mongoose's [maxlength]
      compares it. *)
  js_length : string → nat;
  (** What validator.js's [isLength] takes off [s.length] before it
      compares: one for each surrogate pair and, in later versions, one for
      each variation selector. *)
  isLength_uncounted : string → nat;
  js_length_empty : js_length "" = 0%nat
}.

(** The count [isLength] compares: [str.length - surrogatePairs.length]. *)
Definition validator_length `{JsStrings} (s : string) : nat :=
  js_length s - isLength_uncounted s.

(** ** Mongoose primitives used by the handlers *)

Module Mongoose.

(** [MongooseArray.prototype.includes] called with an ObjectId: a linear
    scan that compares the argument's [toString()] with each element's by
    [==]; the strings of two ObjectIds are equal exactly when their bytes
    are. *)
Definition includes (x : ObjectId) (l : list ObjectId) : bool :=
  existsb (N.eqb x) l.

(** [MongooseArray.prototype.includes] called with a string: the scan
    compares the string, as it was given, with each element's
    [toString()]. *)
Definition includes_string (s : string) (l : list ObjectId) : bool :=
  existsb (λ x, String.eqb s (toHexString x)) l.

(** [$push]: append at the end. *)
Definition push (x : ObjectId) (l : list ObjectId) : list ObjectId :=
  l ++ [x].

(** [$pull]: remove every element equal to [x]. *)
Definition pull (x : ObjectId) (l : list ObjectId) : list ObjectId :=
  filter (λ y, y ≠ x) l.

(** The [required] validator of a String path: the value must be a
    non-empty string. *)
Definition required_string (s : string) : bool :=
  negb (String.eqb s "").

(** The [maxlength] validator of a String path: [v.length <= n]. *)
Definition maxlength `{JsStrings} (n : nat) (s : string) : bool :=
  Nat.leb (js_length s) n.

End Mongoose.

(** ** models/Tweet.js *)

Module Tweet.

Record t := mk {
  user : ObjectId;
  content : string;
  image : option string;
  likes : list ObjectId;
  retweets : list ObjectId;
  comments : list ObjectId;
  parent : option ObjectId;
  isRetweet : bool;
  createdAt : Time;
  updatedAt : Time;
  (** The version key [__v] Mongoose keeps on every document. *)
  version : N
}.

(** [content] is [required] with [maxlength] 280; [user] is required and
    always present in this record. *)
Definition validate `{JsStrings} (d : t) : bool :=
  Mongoose.required_string (content d) && Mongoose.maxlength 280 (content d).

Definition set_likes (l : list ObjectId) (d : t) : t :=
  mk (user d) (content d) (image d) l (retweets d) (comments d)
     (parent d) (isRetweet d) (createdAt d) (updatedAt d) (version d).

Definition set_comments (l : list ObjectId) (d : t) : t :=
  mk (user d) (content d) (image d) (likes d) (retweets d) l
     (parent d) (isRetweet d) (createdAt d) (updatedAt d) (version d).

(** [timestamps: true] on an update that goes through the query layer
    ([findByIdAndUpdate]): [updatedAt] is refreshed; [__v] is left as it
    is. *)
Definition touch (now : Time) (d : t) : t :=
  mk (user d) (content d) (image d) (likes d) (retweets d) (comments d)
     (parent d) (isRetweet d) (createdAt d) now (version d).

(** [doc.save()] after an array path was assigned, pushed to or unshifted
    to: [updatedAt] is refreshed and, the change being an array change that
    versioning tracks, [__v] is incremented. *)
Definition save_array_change (now : Time) (d : t) : t :=
  mk (user d) (content d) (image d) (likes d) (retweets d) (comments d)
     (parent d) (isRetweet d) (createdAt d) now (version d + 1).

End Tweet.

(** ** models/Comment.js *)

Module Comment.

Record t := mk {
  user : ObjectId;
  tweet : ObjectId;
  content : string;
  likes : list ObjectId;
  createdAt : Time;
  updatedAt : Time;
  (** The version key [__v]. *)
  version : N
}.

Definition validate `{JsStrings} (d : t) : bool :=
  Mongoose.required_string (content d) && Mongoose.maxlength 280 (content d).

Definition set_likes (l : list ObjectId) (d : t) : t :=
  mk (user d) (tweet d) (content d) l (createdAt d) (updatedAt d) (version d).

(** [doc.save()] after [likes] was assigned or unshifted to: [updatedAt] is
    refreshed and [__v] is incremented. *)
Definition save_array_change (now : Time) (d : t) : t :=
  mk (user d) (tweet d) (content d) (likes d) (createdAt d) now (version d + 1).

End Comment.

(** ** models/User.js *)

Module User.

(** Modelled from the spec: models/User.js is not among the sources.  The
    field names are the ones the handlers read and write ([name],
    [username], [email], [password], [profilePicture], [coverPhoto], [bio],
    [location], [website], [isVerified], [followers], [following]); the
    spec's data model gives their meaning: [password] holds the credential
    hash, the two images are optional references, and the two edge sets are
    ordered sequences of user identifiers. *)
Record t := mk {
  name : string;
  username : string;
  email : string;
  password : string;
  profilePicture : option string;
  coverPhoto : option string;
  bio : string;
  location : string;
  website : string;
  isVerified : bool;
  followers : list ObjectId;
  following : list ObjectId
}.

Definition set_followers (l : list ObjectId) (u : t) : t :=
  mk (name u) (username u) (email u) (password u) (profilePicture u)
     (coverPhoto u) (bio u) (location u) (website u) (isVerified u)
     l (following u).

Definition set_following (l : list ObjectId) (u : t) : t :=
  mk (name u) (username u) (email u) (password u) (profilePicture u)
     (coverPhoto u) (bio u) (location u) (website u) (isVerified u)
     (followers u) l.

Definition set_password (h : string) (u : t) : t :=
  mk (name u) (username u) (email u) h (profilePicture u)
     (coverPhoto u) (bio u) (location u) (website u) (isVerified u)
     (followers u) (following u).

End User.

(** ** The database: one collection per model *)

Record Db := mkDb {
  users : gmap N User.t;
  tweets : gmap N Tweet.t;
  comments : gmap N Comment.t
}.

Definition set_users (m : gmap N User.t) (db : Db) : Db :=
  mkDb m (tweets db) (comments db).

Definition set_tweets (m : gmap N Tweet.t) (db : Db) : Db :=
  mkDb (users db) m (comments db).

Definition set_comments (m : gmap N Comment.t) (db : Db) : Db :=
  mkDb (users db) (tweets db) m.

(** ** JSON documents sent in responses *)

#[warnings="-register-all"]
Inductive Value :=
| VNull
| VStr (s : string)
| VBool (b : bool)
| VId (i : ObjectId)
| VIds (l : list ObjectId)
| VDocs (l : list (list (string * Value))).

Abbreviation Doc := (list (string * Value)) (only parsing).

(** An optional path that holds no value is left out of the document. *)
Definition opt_field (k : string) (v : option string) : list (string * Value) :=
  match v with
  | Some s => [(k, VStr s)]
  | None => []
  end.

(** The user document with all its paths, as a query returns it before any
    projection. *)
Definition user_toObject (id : ObjectId) (u : User.t) : list (string * Value) :=
  [("_id", VId id);
   ("name", VStr (User.name u));
   ("username", VStr (User.username u));
   ("email", VStr (User.email u));
   ("password", VStr (User.password u))]
  ++ opt_field "profilePicture" (User.profilePicture u)
  ++ opt_field "coverPhoto" (User.coverPhoto u)
  ++ [("bio", VStr (User.bio u));
      ("location", VStr (User.location u));
      ("website", VStr (User.website u));
      ("isVerified", VBool (User.isVerified u));
      ("followers", VIds (User.followers u));
      ("following", VIds (User.following u))].

(** [.select('-path')]: every path but the named one. *)
Definition select_exclude (path : string) (d : list (string * Value))
  : list (string * Value) :=
  filter (λ kv, kv.1 ≠ path) d.

(** A projection that names the paths to keep, as in the second argument of
    [populate]; [_id] is kept as well. *)
Definition select_include (paths : list string) (d : list (string * Value))
  : list (string * Value) :=
  filter (λ kv, kv.1 = "_id" ∨ kv.1 ∈ paths) d.

(** The projected documents of the users an array of references names;
    a reference to a user that does not exist is dropped. *)
Definition populate_refs (us : gmap N User.t) (paths : list string)
  (ids : list ObjectId) : list (list (string * Value)) :=
  omap (λ i, (λ u, select_include paths (user_toObject i u)) <$> us !! i) ids.

(** [.populate(path, paths)] on a user document. *)
Definition populate (us : gmap N User.t) (path : string) (paths : list string)
  (d : list (string * Value)) : list (string * Value) :=
  map (λ kv, match kv.2 with
             | VIds ids =>
                 if String.eqb kv.1 path
                 then (kv.1, VDocs (populate_refs us paths ids))
                 else kv
             | _ => kv
             end) d.

(** [.populate('user', paths)] on a tweet: the author's projected document,
    or null when the author does not exist. *)
Definition populate_author (us : gmap N User.t) (paths : list string)
  (author : ObjectId) : option (list (string * Value)) :=
  (λ u, select_include paths (user_toObject author u)) <$> us !! author.

Record TweetOut := mkTweetOut {
  out_id : ObjectId;
  out_tweet : Tweet.t;
  out_user : option (list (string * Value))
}.

(** ** Responses *)

Inductive Body :=
| Message (m : string)
| Errors (es : list string)
| OneTweet (t : TweetOut)
| Tweets (ts : list TweetOut)
| OneComment (id : ObjectId) (c : Comment.t) (user : option (list (string * Value)))
| Ids (l : list ObjectId)
| UserDoc (d : option (list (string * Value)))
| Auth (token : string) (u : list (string * Value)).

Record Response := mkResponse { status : nat; body : Body }.

Definition server_error : Response := mkResponse 500 (Message "Server error").

(** ** express-validator checks *)

Module Validator.

(** A field that is absent from the body is validated as the empty
    string. *)
Definition toString (v : option string) : string := default "" v.

Definition isEmpty (v : option string) : bool := String.eqb (toString v) "".

(** [isLength({ max: n })] and [isLength({ min: n })] compare validator.js's
    count of the string. *)
Definition isLength_max `{JsStrings} (n : nat) (v : option string) : bool :=
  Nat.leb (validator_length (toString v)) n.

Definition isLength_min `{JsStrings} (n : nat) (v : option string) : bool :=
  Nat.leb n (validator_length (toString v)).

(** One [check(field, message)] chain: the message when the chain fails. *)
Definition check (ok : bool) (message : string) : list string :=
  if ok then [] else [message].

End Validator.

(** JavaScript truthiness of an optional string: [undefined] and [''] are
    falsy. *)
Definition truthy (v : option string) : bool :=
  match v with
  | Some s => negb (String.eqb s "")
  | None => false
  end.

(** Truthiness of an optional object such as [req.file]. *)
Definition present {A} (v : option A) : bool :=
  match v with
  | Some _ => true
  | None => false
  end.

(** [Model.findOne(filter)] over the user collection. *)
Definition findOne (P : User.t → bool) (us : gmap N User.t)
  : option (ObjectId * User.t) :=
  head (filter (λ kv, P kv.2 = true) (map_to_list us)).

(** ** The like toggle shared by routes/tweets.js and the comments router

    [if (doc.likes.includes(req.user._id)) doc.likes = doc.likes.filter(like
    => like.toString() !== req.user._id.toString()); else
    doc.likes.unshift(req.user._id);] *)

Definition toggle_like (u : ObjectId) (likes : list ObjectId) : list ObjectId :=
  if Mongoose.includes u likes
  then filter (λ like, like ≠ u) likes
  else u :: likes.

(** ** routes/tweets.js *)

Module TweetsRouter.

(** The validation chains of [POST /]:
    [check('content', 'Content is required').not().isEmpty().unless((value,
    { req }) => req.file)] and [check('content', 'Content cannot exceed 280
    characters').isLength({ max: 280 })].

    express-validator's chains have no [unless] method (its condition is
    spelled [.if(...)]), so as written the call throws while
    routes/tweets.js is loaded.  The definition models the reading the
    route intends, and what is proved of [POST /] is proved of that
    reading: the first chain does not apply when a file was uploaded. *)
Definition post_checks `{JsStrings} (content file : option string) : list string :=
  Validator.check (negb (Validator.isEmpty content) || present file)
    "Content is required"
  ++ Validator.check (Validator.isLength_max 280 content)
    "Content cannot exceed 280 characters".

(** [new Tweet({ user, content: req.body.content || '', image: req.file ?
    req.file.path : null })], with the schema defaults and the timestamps
    of a first save. *)
Definition new_tweet (req_user : ObjectId) (content file : option string)
  (now : Time) : Tweet.t :=
  Tweet.mk req_user (if truthy content then default "" content else "") file
    [] [] [] None false now now 0.

Definition user_paths : list string := ["name"; "username"; "profilePicture"].

Definition user_paths_verified : list string :=
  ["name"; "username"; "profilePicture"; "isVerified"].

(** [POST /]: create a tweet.  [save] runs the schema validation and throws
    when it fails; the handler's [catch] answers 500. *)
Definition post_tweet `{JsStrings} (req_user : ObjectId) (content file : option string)
  (now : Time) (nid : ObjectId) (db : Db) : Response * Db :=
  match post_checks content file with
  | (_ :: _) as errors => (mkResponse 400 (Errors errors), db)
  | [] =>
      let newTweet := new_tweet req_user content file now in
      if Tweet.validate newTweet
      then (mkResponse 201
              (OneTweet (mkTweetOut nid newTweet
                 (populate_author (users db) user_paths req_user))),
            set_tweets (<[nid := newTweet]> (tweets db)) db)
      else (server_error, db)
  end.

(** [.sort({ createdAt: -1 })]: the later tweet first. *)
Definition newer_first (a b : ObjectId * Tweet.t) : Prop :=
  (Tweet.createdAt b.2 ≤ Tweet.createdAt a.2)%N.

#[global] Instance newer_first_dec : RelDecision newer_first.
Proof. intros a b. unfold newer_first. apply _. Defined.

Definition to_out (us : gmap N User.t) (kv : ObjectId * Tweet.t) : TweetOut :=
  mkTweetOut kv.1 kv.2 (populate_author us user_paths_verified (Tweet.user kv.2)).

(** The query of [GET /timeline]: [$or: [{ user: req.user._id }, { user:
    { $in: currentUser.following } }]]. *)
Definition timeline_query (req_user : ObjectId) (currentUser : User.t)
  (kv : ObjectId * Tweet.t) : Prop :=
  Tweet.user kv.2 = req_user ∨ Tweet.user kv.2 ∈ User.following currentUser.

(** [GET /timeline].  A missing [currentUser] makes [currentUser.following]
    throw, which the [catch] answers with 500. *)
Definition get_timeline (req_user : ObjectId) (db : Db) : Response :=
  match users db !! req_user with
  | None => server_error
  | Some currentUser =>
      let found :=
        filter (timeline_query req_user currentUser) (map_to_list (tweets db)) in
      let sorted := merge_sort newer_first found in
      mkResponse 200 (Tweets (to_out (users db) <$> take 50 sorted))
  end.

(** [Comment.deleteMany({ tweet: id })]. *)
Definition deleteMany_comments (id : ObjectId) (cs : gmap N Comment.t)
  : gmap N Comment.t :=
  filter (λ kv, Comment.tweet kv.2 ≠ id) cs.

(** [DELETE /:id]. *)
Definition delete_tweet (req_user id : ObjectId) (db : Db) : Response * Db :=
  match tweets db !! id with
  | None => (mkResponse 404 (Message "Tweet not found"), db)
  | Some tweet =>
      if negb (N.eqb (Tweet.user tweet) req_user)
      then (mkResponse 401 (Message "User not authorized"), db)
      else
        let db1 := set_comments (deleteMany_comments id (comments db)) db in
        let db2 := set_tweets (delete id (tweets db1)) db1 in
        (mkResponse 200 (Message "Tweet removed"), db2)
  end.

(** [POST /:id/like]. *)
Definition post_like (req_user id : ObjectId) (now : Time) (db : Db)
  : Response * Db :=
  match tweets db !! id with
  | None => (mkResponse 404 (Message "Tweet not found"), db)
  | Some tweet =>
      let tweet' :=
        Tweet.save_array_change now
          (Tweet.set_likes (toggle_like req_user (Tweet.likes tweet)) tweet) in
      (mkResponse 200 (Ids (Tweet.likes tweet')),
       set_tweets (<[id := tweet']> (tweets db)) db)
  end.

(** The validation chains of [POST /:id/comments]. *)
Definition comment_checks `{JsStrings} (content : option string) : list string :=
  Validator.check (negb (Validator.isEmpty content)) "Content is required"
  ++ Validator.check (Validator.isLength_max 280 content)
       "Content cannot exceed 280 characters".

(** [POST /:id/comments]: the comment is saved, then its identifier is
    pushed on the tweet's [comments] and the tweet is saved. *)
Definition post_comment `{JsStrings} (req_user id : ObjectId) (content : option string)
  (now : Time) (nid : ObjectId) (db : Db) : Response * Db :=
  match comment_checks content with
  | (_ :: _) as errors => (mkResponse 400 (Errors errors), db)
  | [] =>
      match tweets db !! id with
      | None => (mkResponse 404 (Message "Tweet not found"), db)
      | Some tweet =>
          let newComment :=
            Comment.mk req_user id (Validator.toString content) [] now now 0 in
          if Comment.validate newComment
          then
            let tweet' :=
              Tweet.save_array_change now
                (Tweet.set_comments (Mongoose.push nid (Tweet.comments tweet))
                   tweet) in
            (mkResponse 200
               (OneComment nid newComment
                  (populate_author (users db) user_paths req_user)),
             mkDb (users db) (<[id := tweet']> (tweets db))
               (<[nid := newComment]> (comments db)))
          else (server_error, db)
      end
  end.

End TweetsRouter.

(** ** The comments router (second part of routes/auth.js) *)

Module CommentsRouter.

(** [POST /:id/like]. *)
Definition post_like (req_user id : ObjectId) (now : Time) (db : Db)
  : Response * Db :=
  match comments db !! id with
  | None => (mkResponse 404 (Message "Comment not found"), db)
  | Some comment =>
      let comment' :=
        Comment.save_array_change now
          (Comment.set_likes (toggle_like req_user (Comment.likes comment))
             comment) in
      (mkResponse 200 (Ids (Comment.likes comment')),
       set_comments (<[id := comment']> (comments db)) db)
  end.

(** [Tweet.findByIdAndUpdate(comment.tweet, { $pull: { comments:
    comment._id } })]: the update stamps [updatedAt] and leaves [__v];
    nothing happens when the tweet does not exist. *)
Definition pull_comment (id : ObjectId) (now : Time) (t : Tweet.t) : Tweet.t :=
  Tweet.touch now (Tweet.set_comments (Mongoose.pull id (Tweet.comments t)) t).

(** [DELETE /:id]. *)
Definition delete_comment (req_user id : ObjectId) (now : Time) (db : Db)
  : Response * Db :=
  match comments db !! id with
  | None => (mkResponse 404 (Message "Comment not found"), db)
  | Some comment =>
      if negb (N.eqb (Comment.user comment) req_user)
      then (mkResponse 401 (Message "User not authorized"), db)
      else
        let db1 :=
          set_tweets (alter (pull_comment id now) (Comment.tweet comment)
                        (tweets db)) db in
        let db2 := set_comments (delete id (comments db1)) db1 in
        (mkResponse 200 (Message "Comment removed"), db2)
  end.

End CommentsRouter.

(** ** The users router (second part of models/Comment.js) *)

Module UsersRouter.

Definition ref_paths : list string := ["_id"; "name"; "username"; "profilePicture"].

(** [.select('-password').populate('followers', ...).populate('following',
    ...)] applied to a found user. *)
Definition user_view (us : gmap N User.t) (id : ObjectId) (u : User.t)
  : list (string * Value) :=
  populate us "following" ref_paths
    (populate us "followers" ref_paths
       (select_exclude "password" (user_toObject id u))).

(** [GET /me]. *)
Definition get_me (req_user : ObjectId) (db : Db) : Response :=
  match users db !! req_user with
  | None => mkResponse 404 (Message "User not found")
  | Some user => mkResponse 200 (UserDoc (Some (user_view (users db) req_user user)))
  end.

(** [GET /:username]. *)
Definition get_by_username (username : string) (db : Db) : Response :=
  match findOne (λ u, String.eqb (User.username u) username) (users db) with
  | None => mkResponse 404 (Message "User not found")
  | Some (id, user) => mkResponse 200 (UserDoc (Some (user_view (users db) id user)))
  end.

(** The multipart body of [PUT /] and the paths of the two uploaded files. *)
Record ProfileForm := mkProfileForm {
  form_name : option string;
  form_bio : option string;
  form_location : option string;
  form_website : option string;
  file_profilePicture : option string;
  file_coverPhoto : option string
}.

(** The [userFields] object: a path is present when the handler assigned
    it. *)
Record UserFields := mkUserFields {
  set_name : option string;
  set_bio : option string;
  set_location : option string;
  set_website : option string;
  set_profilePicture : option string;
  set_coverPhoto : option string
}.

(** [if (name) userFields.name = name;] and so on. *)
Definition if_truthy (v : option string) : option string :=
  if truthy v then v else None.

Definition build_userFields (f : ProfileForm) : UserFields :=
  mkUserFields (if_truthy (form_name f)) (if_truthy (form_bio f))
    (if_truthy (form_location f)) (if_truthy (form_website f))
    (file_profilePicture f) (file_coverPhoto f).

(** [{ $set: userFields }]. *)
Definition apply_set (s : UserFields) (u : User.t) : User.t :=
  User.mk (default (User.name u) (set_name s))
    (User.username u) (User.email u) (User.password u)
    (match set_profilePicture s with Some p => Some p | None => User.profilePicture u end)
    (match set_coverPhoto s with Some p => Some p | None => User.coverPhoto u end)
    (default (User.bio u) (set_bio s))
    (default (User.location u) (set_location s))
    (default (User.website u) (set_website s))
    (User.isVerified u) (User.followers u) (User.following u).

(** [PUT /]: [findByIdAndUpdate(req.user._id, { $set: userFields }, { new:
    true }).select('-password')]; the answer is null when no such user
    exists. *)
Definition put_profile (req_user : ObjectId) (f : ProfileForm) (db : Db)
  : Response * Db :=
  let us := alter (apply_set (build_userFields f)) req_user (users db) in
  (mkResponse 200
     (UserDoc ((λ u, select_exclude "password" (user_toObject req_user u))
                 <$> us !! req_user)),
   set_users us db).

Definition pull_following (id : ObjectId) (u : User.t) : User.t :=
  User.set_following (Mongoose.pull id (User.following u)) u.

Definition pull_followers (id : ObjectId) (u : User.t) : User.t :=
  User.set_followers (Mongoose.pull id (User.followers u)) u.

Definition push_following (id : ObjectId) (u : User.t) : User.t :=
  User.set_following (Mongoose.push id (User.following u)) u.

Definition push_followers (id : ObjectId) (u : User.t) : User.t :=
  User.set_followers (Mongoose.push id (User.followers u)) u.

(** [POST /:id/follow].  [id] is [req.params.id], the string of the URL.
    The handler compares it as a string twice: with
    [req.user._id.toString()] by [===], and with the elements of
    [currentUser.following] by [includes].  [findById] and the two
    [findByIdAndUpdate] calls, one after the other, cast it to an ObjectId;
    a string that cannot be cast makes [findById] throw, and the [catch]
    answers 500. *)
Definition post_follow (bson : Bson) (req_user : ObjectId) (id : string)
  (db : Db) : Response * Db :=
  if String.eqb id (toHexString req_user)
  then (mkResponse 400 (Message "You cannot follow yourself"), db)
  else
    match castObjectId bson id with
    | None => (server_error, db)
    | Some target =>
        match users db !! target with
        | None => (mkResponse 404 (Message "User not found"), db)
        | Some userToFollow =>
            match users db !! req_user with
            | None => (server_error, db)
            | Some currentUser =>
                if Mongoose.includes_string id (User.following currentUser)
                then
                  let us1 := alter (pull_following target) req_user (users db) in
                  let us2 := alter (pull_followers req_user) target us1 in
                  (mkResponse 200 (Message "User unfollowed"), set_users us2 db)
                else
                  let us1 := alter (push_following target) req_user (users db) in
                  let us2 := alter (push_followers req_user) target us1 in
                  (mkResponse 200 (Message "User followed"), set_users us2 db)
            end
        end
    end.

End UsersRouter.

(** ** routes/auth.js *)

Module AuthRouter.

Section Register.

Context `{JsStrings}.

(** validator.js's [isEmail], the password hashing of the User model's save
    hook and [jwt.sign] are external; the handler is parametric in them. *)
Variable isEmail : string → bool.
Variable hashPassword : string → string.
Variable generateToken : ObjectId → string.

Record RegisterForm := mkRegisterForm {
  reg_name : option string;
  reg_username : option string;
  reg_email : option string;
  reg_password : option string
}.

Definition register_checks (f : RegisterForm) : list string :=
  Validator.check (negb (Validator.isEmpty (reg_name f))) "Name is required"
  ++ Validator.check (negb (Validator.isEmpty (reg_username f)))
       "Username is required"
  ++ Validator.check (isEmail (Validator.toString (reg_email f)))
       "Please include a valid email"
  ++ Validator.check (Validator.isLength_min 6 (reg_password f))
       "Password must be at least 6 characters".

(** Modelled from the spec: the defaults of models/User.js, which is not
    among the sources.  A user is created at registration with its
    credential hashed before persistence, no image, empty free-text fields,
    not verified, and empty edge sets. *)
Definition new_user (name username email password : string) : User.t :=
  User.mk name username email (hashPassword password) None None "" "" ""
    false [] [].

(** The [user] object of the 201 answer. *)
Definition auth_user (id : ObjectId) (u : User.t) : list (string * Value) :=
  [("_id", VId id);
   ("name", VStr (User.name u));
   ("username", VStr (User.username u));
   ("email", VStr (User.email u))]
  ++ opt_field "profilePicture" (User.profilePicture u)
  ++ [("bio", VStr (User.bio u));
      ("followers", VIds (User.followers u));
      ("following", VIds (User.following u));
      ("isVerified", VBool (User.isVerified u))].

(** [POST /register]. *)
Definition post_register (f : RegisterForm) (nid : ObjectId) (db : Db)
  : Response * Db :=
  match register_checks f with
  | (_ :: _) as errors => (mkResponse 400 (Errors errors), db)
  | [] =>
      let name := Validator.toString (reg_name f) in
      let username := Validator.toString (reg_username f) in
      let email := Validator.toString (reg_email f) in
      let password := Validator.toString (reg_password f) in
      match findOne (λ u, String.eqb (User.email u) email) (users db) with
      | Some _ => (mkResponse 400 (Message "Email already exists"), db)
      | None =>
          match findOne (λ u, String.eqb (User.username u) username) (users db) with
          | Some _ => (mkResponse 400 (Message "Username already exists"), db)
          | None =>
              let user := new_user name username email password in
              (mkResponse 201 (Auth (generateToken nid) (auth_user nid user)),
               set_users (<[nid := user]> (users db)) db)
          end
      end
  end.

End Register.

End AuthRouter.

(** [GET /:id] of routes/tweets.js. *)
Definition get_tweet (id : ObjectId) (db : Db) : Response :=
  match tweets db !! id with
  | None => mkResponse 404 (Message "Tweet not found")
  | Some tweet =>
      mkResponse 200 (OneTweet (TweetsRouter.to_out (users db) (id, tweet)))
  end.

(** The keys a JSON value mentions at any depth. *)
Fixpoint value_keys (v : Value) : list string :=
  match v with
  | VDocs ds =>
      flat_map (λ d, flat_map (λ kv, let '(k, w) := kv in k :: value_keys w) d) ds
  | _ => []
  end.

Definition doc_keys (d : list (string * Value)) : list string :=
  flat_map (λ kv, kv.1 :: value_keys kv.2) d.

(** Two user collections that differ at most in the stored credential
    hashes: erasing the hashes makes them equal. *)
Definition erase_password (u : User.t) : User.t := User.set_password "" u.

Definition same_but_passwords (db1 db2 : Db) : Prop :=
  erase_password <$> users db1 = erase_password <$> users db2.

(** The edge invariant of the social graph over the stored users: edges are
    symmetric and no edge is stored twice. *)
Definition edges_symmetric (us : gmap N User.t) : Prop :=
  ∀ a b ua ub, us !! a = Some ua → us !! b = Some ub →
    (b ∈ User.following ua ↔ a ∈ User.followers ub).

Definition edges_nodup (us : gmap N User.t) : Prop :=
  ∀ a ua, us !! a = Some ua →
    NoDup (User.following ua) ∧ NoDup (User.followers ua).

Definition graph_ok (us : gmap N User.t) : Prop :=
  edges_symmetric us ∧ edges_nodup us.

(** Two successive toggles by [u] on a likes array [l]: [l1] is the array
    after the first call and [l2] the array after the second. *)
Definition toggle_twice_spec (u : ObjectId) (l l1 l2 : list ObjectId) : Prop :=
  (u ∈ l → l1 = filter (λ y, y ≠ u) l ∧ l2 = u :: filter (λ y, y ≠ u) l) ∧
  (u ∉ l → l1 = u :: l ∧ l2 = l) ∧
  (length (filter (λ y, y = u) l1) ≤ 1)%nat ∧
  (length (filter (λ y, y = u) l2) ≤ 1)%nat ∧
  (∀ x, x ∈ l2 ↔ x ∈ l) ∧
  (NoDup l → l2 ≡ₚ l).

(** One toggle by [u] taking the likes array [l] to [l']: only the
    membership of [u] changes, and a new like goes to the front. *)
Definition toggle_frame_spec (u : ObjectId) (l l' : list ObjectId) : Prop :=
  filter (λ y, y ≠ u) l' = filter (λ y, y ≠ u) l ∧
  (u ∈ l → u ∉ l') ∧
  (u ∉ l → l' = u :: l).

(** How [PUT /users] treats one text field of the form: a non-empty value
    replaces the stored one; an absent or empty value leaves it. *)
Definition text_patch (supplied : option string) (old new : string) : Prop :=
  (∀ s, supplied = Some s → s ≠ "" → new = s) ∧
  (supplied = None ∨ supplied = Some "" → new = old).

(** How it treats one of the two images: an uploaded file replaces the
    stored reference; without an upload the reference stays. *)
Definition file_patch (uploaded : option string) (old new : option string)
  : Prop :=
  (∀ p, uploaded = Some p → new = Some p) ∧
  (uploaded = None → new = old).

(** The keys that occur anywhere in a response body. *)
Definition body_keys (b : Body) : list string :=
  match b with
  | Message _ | Errors _ | Ids _ => []
  | OneTweet o => from_option doc_keys [] (out_user o)
  | OneComment _ _ user => from_option doc_keys [] user
  | Tweets os => flat_map (λ o, from_option doc_keys [] (out_user o)) os
  | UserDoc d => from_option doc_keys [] d
  | Auth _ u => doc_keys u
  end.

(** The user collection [us'] is [us] with the records of [a] and [b]
    rewritten to [ua'] and [ub'], and nothing else changed. *)
Definition rewrites (us us' : gmap N User.t) (a b : ObjectId)
  (ua' ub' : User.t) : Prop :=
  us' !! a = Some ua' ∧ us' !! b = Some ub' ∧
  ∀ c, c ≠ a → c ≠ b → us' !! c = us !! c.

(** What a follow request of [a] for [b] does to the users: nothing (the
    refusals), or the two pushes, or the two pulls, each pair on two stored
    users.  The two users can be the same one. *)
Inductive follow_outcome (db : Db) (a b : N) : Db → Prop :=
| follow_refused : follow_outcome db a b db
| follow_pushed :
    is_Some (users db !! a) → is_Some (users db !! b) →
    follow_outcome db a b
      (set_users
         (alter (UsersRouter.push_followers a) b
            (alter (UsersRouter.push_following b) a (users db))) db)
| follow_pulled :
    is_Some (users db !! a) → is_Some (users db !! b) →
    follow_outcome db a b
      (set_users
         (alter (UsersRouter.pull_followers a) b
            (alter (UsersRouter.pull_following b) a (users db))) db).

(** Every identifier stored in an edge set names a stored user. *)
Definition edges_closed (us : gmap N User.t) : Prop :=
  ∀ a ua, us !! a = Some ua →
    ∀ b, b ∈ User.following ua ∨ b ∈ User.followers ua → is_Some (us !! b).

(** ** Completed requests

    One completed request of a route that can write.  A route behind
    [protect] runs for a stored user, and the identifier of a new document
    is not in use. *)
Inductive step `{JsStrings} : Db → Db → Prop :=
| step_register isEmail hashPassword generateToken f nid db :
    users db !! nid = None →
    step db (AuthRouter.post_register isEmail hashPassword generateToken f nid db).2
| step_put_profile u f db :
    is_Some (users db !! u) →
    step db (UsersRouter.put_profile u f db).2
| step_follow bson u id db :
    is_Some (users db !! u) →
    step db (UsersRouter.post_follow bson u id db).2
| step_post_tweet u content file now nid db :
    is_Some (users db !! u) → tweets db !! nid = None →
    step db (TweetsRouter.post_tweet u content file now nid db).2
| step_delete_tweet u id db :
    is_Some (users db !! u) →
    step db (TweetsRouter.delete_tweet u id db).2
| step_like_tweet u id now db :
    is_Some (users db !! u) →
    step db (TweetsRouter.post_like u id now db).2
| step_post_comment u id content now nid db :
    is_Some (users db !! u) → comments db !! nid = None →
    step db (TweetsRouter.post_comment u id content now nid db).2
| step_like_comment u id now db :
    is_Some (users db !! u) →
    step db (CommentsRouter.post_like u id now db).2
| step_delete_comment u id now db :
    is_Some (users db !! u) →
    step db (CommentsRouter.delete_comment u id now db).2.

(** The databases the server can be in: the empty one, and any database a
    completed request leaves. *)
Inductive reachable `{JsStrings} : Db → Prop :=
| reachable_empty : reachable (mkDb ∅ ∅ ∅)
| reachable_step db db' : reachable db → step db db' → reachable db'.

(** ** The read-only routes *)

(** The answer of a route that sends a JSON array: the array, sent with
    status 200, or another response. *)
Inductive Answer (A : Type) : Type :=
| Array (items : list A)
| Sent (r : Response).

Arguments Array {A} items.
Arguments Sent {A} r.

(** [GET /] of routes/tweets.js: [Tweet.find().sort({ createdAt: -1
    }).populate(...).limit(20)]. *)
Definition get_tweets (db : Db) : Response :=
  mkResponse 200
    (Tweets (TweetsRouter.to_out (users db)
               <$> take 20 (merge_sort TweetsRouter.newer_first
                              (map_to_list (tweets db))))).

(** [GET /user/:userId] of routes/tweets.js: [Tweet.find({ user: userId
    }).sort({ createdAt: -1 }).populate(...)], without a limit. *)
Definition get_user_tweets (userId : ObjectId) (db : Db) : Response :=
  mkResponse 200
    (Tweets (TweetsRouter.to_out (users db)
               <$> merge_sort TweetsRouter.newer_first
                     (filter (λ kv, Tweet.user kv.2 = userId)
                        (map_to_list (tweets db))))).

(** A comment as a listing sends it, its author populated. *)
Record CommentOut := mkCommentOut {
  cout_id : ObjectId;
  cout_comment : Comment.t;
  cout_user : option (list (string * Value))
}.

Definition newer_comment_first (a b : ObjectId * Comment.t) : Prop :=
  (Comment.createdAt b.2 ≤ Comment.createdAt a.2)%N.

#[global] Instance newer_comment_first_dec : RelDecision newer_comment_first.
Proof. intros a b. unfold newer_comment_first. apply _. Defined.

Definition to_comment_out (us : gmap N User.t) (kv : ObjectId * Comment.t)
  : CommentOut :=
  mkCommentOut kv.1 kv.2
    (populate_author us TweetsRouter.user_paths_verified (Comment.user kv.2)).

(** [GET /:id/comments] of routes/tweets.js: [Comment.find({ tweet: id
    }).sort({ createdAt: -1 }).populate(...)].  The tweet itself is not
    looked up. *)
Definition get_tweet_comments (id : ObjectId) (db : Db) : list CommentOut :=
  to_comment_out (users db)
    <$> merge_sort newer_comment_first
          (filter (λ kv, Comment.tweet kv.2 = id) (map_to_list (comments db))).

(** The query of [GET /suggestions]: [_id: { $ne: req.user._id, $nin:
    currentUser.following }]. *)
Definition suggestion_query (req_user : ObjectId) (currentUser : User.t)
  (kv : ObjectId * User.t) : Prop :=
  kv.1 ≠ req_user ∧ kv.1 ∉ User.following currentUser.

(** The handler of [GET /suggestions] in the users router:
    [User.find(query).select('_id name username profilePicture').limit(5)],
    in the store's order. *)
Definition get_suggestions (req_user : ObjectId) (db : Db)
  : Answer (list (string * Value)) :=
  match users db !! req_user with
  | None => Sent server_error
  | Some currentUser =>
      Array ((λ kv, select_include UsersRouter.ref_paths (user_toObject kv.1 kv.2))
               <$> take 5 (filter (suggestion_query req_user currentUser)
                             (map_to_list (users db))))
  end.

(** ** [POST /login] of routes/auth.js *)

Section Login.

(** validator.js's [isEmail], the [matchPassword] method of the User model
    (entered password, stored hash) and [jwt.sign] are external. *)
Variable isEmail : string → bool.
Variable matchPassword : string → string → bool.
Variable generateToken : ObjectId → string.

Record LoginForm := mkLoginForm {
  login_email : option string;
  login_password : option string
}.

(** [check('email', ...).isEmail()] and [check('password',
    ...).exists()]: the second asks only that the field is there. *)
Definition login_checks (f : LoginForm) : list string :=
  Validator.check (isEmail (Validator.toString (login_email f)))
    "Please include a valid email"
  ++ Validator.check (present (login_password f)) "Password is required".

Definition post_login (f : LoginForm) (db : Db) : Response :=
  match login_checks f with
  | (_ :: _) as errors => mkResponse 400 (Errors errors)
  | [] =>
      let email := Validator.toString (login_email f) in
      let password := Validator.toString (login_password f) in
      match findOne (λ u, String.eqb (User.email u) email) (users db) with
      | None => mkResponse 400 (Message "Invalid credentials")
      | Some (id, user) =>
          if matchPassword password (User.password user)
          then mkResponse 200
                 (Auth (generateToken id) (AuthRouter.auth_user id user))
          else mkResponse 400 (Message "Invalid credentials")
      end
  end.

End Login.

(** ** Route tables

    Express tries the routes of a router in the order of their
    registration and runs the first whose method and path pattern match;
    none of the handlers here passes the request on. *)

Inductive Method := GET | POST | PUT | DELETE.

#[global] Instance Method_eq_dec : EqDecision Method.
Proof. solve_decision. Defined.

(** A path pattern is a list of segments: a literal, compared without
    regard to case (routers are not case sensitive unless asked), or a
    parameter [:name] that matches any one non-empty segment. *)
Inductive Segment :=
| Lit (s : string)
| Param (name : string).

Definition lower_ascii (c : Ascii.ascii) : Ascii.ascii :=
  let n := Ascii.nat_of_ascii c in
  if Nat.leb 65 n && Nat.leb n 90 then Ascii.ascii_of_nat (n + 32) else c.

Fixpoint lower (s : string) : string :=
  match s with
  | EmptyString => EmptyString
  | String c s' => String (lower_ascii c) (lower s')
  end.

Fixpoint path_matches (pattern : list Segment) (path : list string) : bool :=
  match pattern, path with
  | [], [] => true
  | Lit s :: pattern', x :: path' =>
      String.eqb (lower s) (lower x) && path_matches pattern' path'
  | Param _ :: pattern', x :: path' =>
      negb (String.eqb x "") && path_matches pattern' path'
  | _, _ => false
  end.

(** The routes of the users router (second part of models/Comment.js). *)
Inductive UsersRoute :=
| UsersMe | UsersByUsername | UsersUpdate | UsersFollow | UsersSuggestions.

Definition users_router : list (Method * list Segment * UsersRoute) :=
  [(GET, [Lit "me"], UsersMe);
   (GET, [Param "username"], UsersByUsername);
   (PUT, [], UsersUpdate);
   (POST, [Param "id"; Lit "follow"], UsersFollow);
   (GET, [Lit "suggestions"], UsersSuggestions)].

(** The routes of routes/tweets.js. *)
Inductive TweetsRoute :=
| TweetsCreate | TweetsAll | TweetsTimeline | TweetsOne | TweetsDelete
| TweetsLike | TweetsComment | TweetsComments | TweetsByUser.

Definition tweets_router : list (Method * list Segment * TweetsRoute) :=
  [(POST, [], TweetsCreate);
   (GET, [], TweetsAll);
   (GET, [Lit "timeline"], TweetsTimeline);
   (GET, [Param "id"], TweetsOne);
   (DELETE, [Param "id"], TweetsDelete);
   (POST, [Param "id"; Lit "like"], TweetsLike);
   (POST, [Param "id"; Lit "comments"], TweetsComment);
   (GET, [Param "id"; Lit "comments"], TweetsComments);
   (GET, [Lit "user"; Param "userId"], TweetsByUser)].

Definition dispatch {R} (router : list (Method * list Segment * R))
  (m : Method) (path : list string) : option R :=
  snd <$> head (filter (λ r, r.1.1 = m ∧ path_matches r.1.2 path = true) router).

(** ** Invariants of the stored documents *)

(** No two users share a username. *)
Definition unique_usernames (us : gmap N User.t) : Prop :=
  ∀ i j ui uj, us !! i = Some ui → us !! j = Some uj →
    User.username ui = User.username uj → i = j.

(** No two users share an e-mail address or a username. *)
Definition unique_handles (us : gmap N User.t) : Prop :=
  ∀ i j ui uj, us !! i = Some ui → us !! j = Some uj →
    User.email ui = User.email uj ∨ User.username ui = User.username uj →
    i = j.

(** No user is in its own edge sets. *)
Definition no_self_edge (us : gmap N User.t) : Prop :=
  ∀ a ua, us !! a = Some ua →
    (a ∉ User.following ua) ∧ (a ∉ User.followers ua).

(** The links between tweets and comments agree: a comment's parent is a
    stored tweet that lists it, a tweet lists only stored comments of its
    own, and lists none twice. *)
Definition thread_links (db : Db) : Prop :=
  (∀ cid c, comments db !! cid = Some c →
     ∃ t, tweets db !! Comment.tweet c = Some t ∧ cid ∈ Tweet.comments t) ∧
  (∀ tid t cid, tweets db !! tid = Some t → cid ∈ Tweet.comments t →
     ∃ c, comments db !! cid = Some c ∧ Comment.tweet c = tid) ∧
  (∀ tid t, tweets db !! tid = Some t → NoDup (Tweet.comments t)).

(** What the schemas accept as content: a non-empty string of at most 280
    UTF-16 code units. *)
Definition content_ok `{JsStrings} (s : string) : Prop :=
  s ≠ "" ∧ (js_length s ≤ 280)%nat.

Definition stored_content_ok `{JsStrings} (db : Db) : Prop :=
  (∀ i t, tweets db !! i = Some t → content_ok (Tweet.content t)) ∧
  (∀ i c, comments db !! i = Some c → content_ok (Comment.content c)).

(** No like is stored twice. *)
Definition likes_nodup (db : Db) : Prop :=
  (∀ i t, tweets db !! i = Some t → NoDup (Tweet.likes t)) ∧
  (∀ i c, comments db !! i = Some c → NoDup (Comment.likes c)).

(** ** What a completed request changes

    The writes a route can leave behind, read off the handlers: every
    completed request either changes nothing or makes one of these
    changes. *)
Inductive effect `{JsStrings} (db : Db) : Db → Prop :=
| effect_none : effect db db
| effect_new_user hashPassword nid name username email password :
    users db !! nid = None →
    (∀ k w, users db !! k = Some w →
       User.email w ≠ email ∧ User.username w ≠ username) →
    effect db
      (set_users
         (<[nid := AuthRouter.new_user hashPassword name username email password]>
            (users db)) db)
| effect_profile u fields :
    effect db (set_users (alter (UsersRouter.apply_set fields) u (users db)) db)
| effect_follow a b db' :
    follow_outcome db a b db' →
    effect db db'
| effect_new_tweet nid t :
    tweets db !! nid = None →
    Tweet.validate t = true → Tweet.likes t = [] → Tweet.comments t = [] →
    effect db (set_tweets (<[nid := t]> (tweets db)) db)
| effect_delete_tweet id t :
    tweets db !! id = Some t →
    effect db
      (mkDb (users db) (delete id (tweets db))
         (TweetsRouter.deleteMany_comments id (comments db)))
| effect_like_tweet u id now t :
    tweets db !! id = Some t →
    effect db
      (set_tweets
         (<[id := Tweet.save_array_change now
                    (Tweet.set_likes (toggle_like u (Tweet.likes t)) t)]>
            (tweets db)) db)
| effect_new_comment u id s now nid t :
    tweets db !! id = Some t →
    comments db !! nid = None →
    Comment.validate (Comment.mk u id s [] now now 0) = true →
    effect db
      (mkDb (users db)
         (<[id := Tweet.save_array_change now
                    (Tweet.set_comments (Mongoose.push nid (Tweet.comments t)) t)]>
            (tweets db))
         (<[nid := Comment.mk u id s [] now now 0]> (comments db)))
| effect_like_comment u id now c :
    comments db !! id = Some c →
    effect db
      (set_comments
         (<[id := Comment.save_array_change now
                    (Comment.set_likes (toggle_like u (Comment.likes c)) c)]>
            (comments db)) db)
| effect_delete_comment id now c :
    comments db !! id = Some c →
    effect db
      (mkDb (users db)
         (alter (CommentsRouter.pull_comment id now) (Comment.tweet c) (tweets db))
         (delete id (comments db))).

(** Everything the invariants below say of a database. *)
Definition well_formed `{JsStrings} (db : Db) : Prop :=
  edges_symmetric (users db) ∧ edges_closed (users db) ∧
  unique_handles (users db) ∧
  thread_links db ∧ stored_content_ok db ∧ likes_nodup db.

(** ** Strings as UTF-8 text, for the concrete instances

    A [string] is read as the UTF-8 bytes of the text.  Every byte but a
    continuation byte starts a code point; a code point is one UTF-16 code
    unit, or a surrogate pair when its encoding has four bytes.  [isLength]
    takes off the surrogate pairs; the instances hold no variation
    selector. *)
Module Utf8.

Definition continuation (c : ascii) : bool :=
  Nat.leb 128 (nat_of_ascii c) && Nat.ltb (nat_of_ascii c) 192.

Definition four_byte_lead (c : ascii) : bool := Nat.leb 240 (nat_of_ascii c).

Fixpoint surrogate_pairs (s : string) : nat :=
  match s with
  | EmptyString => 0
  | String c s' => (if four_byte_lead c then 1 else 0) + surrogate_pairs s'
  end.

Fixpoint code_points (s : string) : nat :=
  match s with
  | EmptyString => 0
  | String c s' => (if continuation c then 0 else 1) + code_points s'
  end.

Definition strings : JsStrings :=
  {| js_length := λ s, code_points s + surrogate_pairs s;
     isLength_uncounted := surrogate_pairs;
     js_length_empty := eq_refl |}.

End Utf8.

(** ** A short run of the server, for the concrete instances

    Ann and Ben register, Ann follows Ben, Ben posts a tweet, Ann comments
    on it and likes it. *)
Module Demo.

Definition isEmail (s : string) : bool := true.
Definition hashPassword (p : string) : string := String.append "h:" p.
Definition matchPassword (p h : string) : bool :=
  String.eqb h (String.append "h:" p).
Definition generateToken (i : ObjectId) : string := "token".

Definition register :=
  AuthRouter.post_register (H := Utf8.strings) isEmail hashPassword generateToken.

Definition db0 : Db := mkDb ∅ ∅ ∅.

Definition db1 : Db :=
  (register (AuthRouter.mkRegisterForm (Some "Ann") (Some "ann")
               (Some "ann@example.org") (Some "secret1")) 1 db0).2.

Definition db2 : Db :=
  (register (AuthRouter.mkRegisterForm (Some "Ben") (Some "ben")
               (Some "ben@example.org") (Some "secret2")) 2 db1).2.

Definition db3 : Db :=
  (UsersRouter.post_follow HexOnly 1 (toHexString 2) db2).2.

Definition db4 : Db :=
  (TweetsRouter.post_tweet (H := Utf8.strings) 2 (Some "hello world") None
     100 7 db3).2.

Definition db5 : Db :=
  (TweetsRouter.post_comment (H := Utf8.strings) 1 7 (Some "welcome")
     200 20 db4).2.

Definition db6 : Db := (TweetsRouter.post_like 1 7 300 db5).2.

End Demo.

(** ** Sample data for the concrete instances *)

Module Sample.

Definition alice : User.t :=
  User.mk "Alice" "alice" "alice@example.org" "$2a$10$hashA" None None
    "hello" "" "" false [] [].

Definition bob : User.t :=
  User.mk "Bob" "bob" "bob@example.org" "$2a$10$hashB" (Some "bob.png") None
    "" "" "" false [] [].

Definition carol : User.t :=
  User.mk "Carol" "carol" "carol@example.org" "$2a$10$hashC" None None
    "" "" "" false [] [].

(** A tweet of Bob, liked by Alice (1) and then by Bob (2): the later like
    is at the front. *)
Definition tweet7 : Tweet.t :=
  Tweet.mk 2%N "first" None [1%N; 2%N] [] [20%N] None false 100%N 100%N 3%N.

Definition tweet8 : Tweet.t :=
  Tweet.mk 3%N "second" None [] [] [] None false 200%N 200%N 0%N.

Definition tweet9 : Tweet.t :=
  Tweet.mk 1%N "third" None [] [] [] None false 300%N 300%N 0%N.

Definition comment20 : Comment.t :=
  Comment.mk 1%N 7%N "nice" [1%N; 2%N] 150%N 150%N 2%N.

Definition comment21 : Comment.t :=
  Comment.mk 1%N 8%N "other" [] 250%N 250%N 0%N.

Definition db : Db :=
  mkDb (<[1%N := alice]> (<[2%N := bob]> (<[3%N := carol]> ∅)))
       (<[7%N := tweet7]> (<[8%N := tweet8]> (<[9%N := tweet9]> ∅)))
       (<[20%N := comment20]> (<[21%N := comment21]> ∅)).

(** Kim's ObjectId has a letter among its digits: 10 is [a]. *)
Definition kim : User.t :=
  User.mk "Kim" "kim" "kim@example.org" "$2a$10$hashK" None None
    "" "" "" false [] [].

Definition db10 : Db := set_users (<[10%N := kim]> (users db)) db.

(** A second account under Bob's e-mail address, with a username of its
    own. *)
Definition bob_again : User.t :=
  User.mk "Bob" "bob2" "bob@example.org" "$2a$10$hashB2" None None
    "" "" "" false [] [].

Definition db_twins : Db := set_users (<[5%N := bob_again]> (users db)) db.

Fixpoint repeat_text (n : nat) (s : string) : string :=
  match n with
  | O => ""
  | S n' => String.append s (repeat_text n' s)
  end.

(** 141 characters outside the Basic Multilingual Plane, each four bytes
    of UTF-8 and two UTF-16 code units. *)
Definition long_text : string := repeat_text 141 "😀".

(** 281 letters. *)
Definition too_long : string := repeat_text 281 "a".

End Sample.

(** * Properties *)

(** ** The two length measures *)

Section Lengths.

Context `{JsStrings}.

Lemma validator_length_le (s : string) : (validator_length s ≤ js_length s)%nat.
Proof. unfold validator_length. lia. Qed.

Lemma validator_length_empty : validator_length "" = 0%nat.
Proof. unfold validator_length. rewrite js_length_empty. lia. Qed.

End Lengths.

(** ** Array primitives *)

Section Arrays.

Implicit Types (u x : N) (l : list N).

Lemma includes_elem_of u l : Mongoose.includes u l = true ↔ u ∈ l.
Proof.
  unfold Mongoose.includes. rewrite existsb_exists. split.
  - intros (y & Hy & Heq). apply N.eqb_eq in Heq. subst y.
    by apply list_elem_of_In.
  - intros Hu. exists u. split; [by apply list_elem_of_In | apply N.eqb_refl].
Qed.

Lemma includes_not_elem_of u l : Mongoose.includes u l = false ↔ u ∉ l.
Proof.
  rewrite <- includes_elem_of. destruct (Mongoose.includes u l); naive_solver.
Qed.

Lemma filter_ne_absent u l : u ∉ l → filter (λ y, y ≠ u) l = l.
Proof.
  induction l as [|y l IH]; [done|].
  rewrite not_elem_of_cons. intros [Hne Hl].
  rewrite filter_cons_True by congruence. by rewrite IH.
Qed.

Lemma filter_ne_removes u l : u ∉ filter (λ y, y ≠ u) l.
Proof. rewrite list_elem_of_filter. intros [Hne _]. by apply Hne. Qed.

Lemma filter_ne_idemp u l :
  filter (λ y, y ≠ u) (filter (λ y, y ≠ u) l) = filter (λ y, y ≠ u) l.
Proof. apply filter_ne_absent, filter_ne_removes. Qed.

Lemma filter_eq_of_filter_ne u l :
  filter (λ y, y = u) (filter (λ y, y ≠ u) l) = [].
Proof.
  induction l as [|y l IH]; [done|].
  destruct (decide (y = u)) as [->|Hne].
  - by rewrite filter_cons_False by naive_solver.
  - rewrite (filter_cons_True (λ y, y ≠ u)) by done.
    by rewrite filter_cons_False.
Qed.

Lemma filter_eq_absent u l : u ∉ l → filter (λ y, y = u) l = [].
Proof.
  intros Hu. rewrite <- (filter_ne_absent u l Hu).
  apply filter_eq_of_filter_ne.
Qed.

(** With no duplicate, an element of the list followed by the others is a
    rearrangement of the list. *)
Lemma cons_filter_ne_Permutation u l :
  NoDup l → u ∈ l → u :: filter (λ y, y ≠ u) l ≡ₚ l.
Proof.
  induction 1 as [|y l Hy Hnd IH]; [by rewrite elem_of_nil|].
  rewrite elem_of_cons. intros [->|Hu].
  - rewrite filter_cons_False by naive_solver.
    by rewrite filter_ne_absent.
  - assert (y ≠ u) by (intros Heq; apply Hy; by rewrite Heq).
    rewrite filter_cons_True by done.
    rewrite Permutation_swap. by rewrite IH.
Qed.

End Arrays.

(** ** The like toggle on a likes array *)

Section Toggle.

Implicit Types (u x : N) (l : list N).

Lemma toggle_like_present u l :
  u ∈ l → toggle_like u l = filter (λ like, like ≠ u) l.
Proof.
  intros Hu. unfold toggle_like.
  by rewrite (proj2 (includes_elem_of u l) Hu).
Qed.

Lemma toggle_like_absent u l : u ∉ l → toggle_like u l = u :: l.
Proof.
  intros Hu. unfold toggle_like.
  by rewrite (proj2 (includes_not_elem_of u l) Hu).
Qed.

(** After one toggle the caller occurs at most once. *)
Lemma toggle_like_once u l :
  (length (filter (λ y, y = u) (toggle_like u l)) ≤ 1)%nat.
Proof.
  destruct (decide (u ∈ l)) as [Hu|Hu].
  - rewrite toggle_like_present by done.
    by rewrite filter_eq_of_filter_ne; simpl; lia.
  - rewrite toggle_like_absent by done.
    rewrite filter_cons_True by done.
    rewrite filter_eq_absent by done. simpl; lia.
Qed.

(** The entries of the other users, in their order, are not touched. *)
Lemma toggle_like_others u l :
  filter (λ y, y ≠ u) (toggle_like u l) = filter (λ y, y ≠ u) l.
Proof.
  destruct (decide (u ∈ l)) as [Hu|Hu].
  - rewrite toggle_like_present by done. apply filter_ne_idemp.
  - rewrite toggle_like_absent by done.
    by rewrite filter_cons_False by naive_solver.
Qed.

Lemma toggle_like_twice_present u l :
  u ∈ l → toggle_like u (toggle_like u l) = u :: filter (λ y, y ≠ u) l.
Proof.
  intros Hu. rewrite (toggle_like_present u l Hu).
  apply toggle_like_absent, filter_ne_removes.
Qed.

Lemma toggle_like_twice_absent u l :
  u ∉ l → toggle_like u (toggle_like u l) = l.
Proof.
  intros Hu. rewrite (toggle_like_absent u l Hu).
  rewrite toggle_like_present by set_solver.
  rewrite filter_cons_False by naive_solver.
  by apply filter_ne_absent.
Qed.

Lemma toggle_like_twice_elem_of u l x :
  x ∈ toggle_like u (toggle_like u l) ↔ x ∈ l.
Proof.
  destruct (decide (u ∈ l)) as [Hu|Hu].
  - rewrite toggle_like_twice_present by done.
    rewrite elem_of_cons, list_elem_of_filter.
    destruct (decide (x = u)) as [->|Hne]; tauto.
  - by rewrite toggle_like_twice_absent.
Qed.

Lemma toggle_like_twice_Permutation u l :
  NoDup l → toggle_like u (toggle_like u l) ≡ₚ l.
Proof.
  intros Hnd. destruct (decide (u ∈ l)) as [Hu|Hu].
  - rewrite toggle_like_twice_present by done.
    by apply cons_filter_ne_Permutation.
  - by rewrite toggle_like_twice_absent.
Qed.

Lemma toggle_like_NoDup u l : NoDup l → NoDup (toggle_like u l).
Proof.
  intros Hnd. destruct (decide (u ∈ l)) as [Hu|Hu].
  - rewrite toggle_like_present by done. by apply NoDup_filter.
  - rewrite toggle_like_absent by done. by constructor.
Qed.

End Toggle.

Lemma toggle_twice_spec_holds (u : N) (l : list N) :
  toggle_twice_spec u l (toggle_like u l) (toggle_like u (toggle_like u l)).
Proof.
  repeat split.
  - by apply toggle_like_present.
  - by apply toggle_like_twice_present.
  - by apply toggle_like_absent.
  - by apply toggle_like_twice_absent.
  - apply toggle_like_once.
  - apply toggle_like_once.
  - by apply toggle_like_twice_elem_of.
  - by apply toggle_like_twice_elem_of.
  - apply toggle_like_twice_Permutation.
Qed.

Lemma toggle_frame_spec_holds (u : N) (l : list N) :
  toggle_frame_spec u l (toggle_like u l).
Proof.
  split; [apply toggle_like_others|]. split.
  - intros Hu. rewrite toggle_like_present by done. apply filter_ne_removes.
  - apply toggle_like_absent.
Qed.

(** ** Likes on tweets and comments *)

Section Likes.

Variables (db : Db) (u id : N).

Lemma tweet_like_found (now : N) (t : Tweet.t) :
  tweets db !! id = Some t →
  TweetsRouter.post_like u id now db =
    (mkResponse 200 (Ids (toggle_like u (Tweet.likes t))),
     set_tweets
       (<[id := Tweet.save_array_change now (Tweet.set_likes (toggle_like u (Tweet.likes t)) t)]>
          (tweets db)) db).
Proof. intros Ht. unfold TweetsRouter.post_like. by rewrite Ht. Qed.

Lemma comment_like_found (now : N) (c : Comment.t) :
  comments db !! id = Some c →
  CommentsRouter.post_like u id now db =
    (mkResponse 200 (Ids (toggle_like u (Comment.likes c))),
     set_comments
       (<[id := Comment.save_array_change now
                  (Comment.set_likes (toggle_like u (Comment.likes c)) c)]>
          (comments db)) db).
Proof. intros Hc. unfold CommentsRouter.post_like. by rewrite Hc. Qed.

End Likes.

(** C3, as amended.  Two successive like toggles by the same caller on a
    tweet, and likewise on a comment, both answer 200; the handler removes
    the caller when present and otherwise inserts the caller at the front;
    after either call the caller occurs at most once; after the second call
    the likes have the members they had at the start.  The sequence itself
    is restored when the caller had not liked at the start; when the caller
    had, the caller ends at the front followed by the others in their
    order, which is a rearrangement of a duplicate-free original. *)
Theorem like_toggle_twice (db : Db) (u id : N) (now1 now2 : N) :
  (∀ t, tweets db !! id = Some t →
     ∃ t1 t2 db1 db2,
       TweetsRouter.post_like u id now1 db =
         (mkResponse 200 (Ids (Tweet.likes t1)), db1) ∧
       TweetsRouter.post_like u id now2 db1 =
         (mkResponse 200 (Ids (Tweet.likes t2)), db2) ∧
       tweets db1 !! id = Some t1 ∧ tweets db2 !! id = Some t2 ∧
       toggle_twice_spec u (Tweet.likes t) (Tweet.likes t1) (Tweet.likes t2))
  ∧
  (∀ c, comments db !! id = Some c →
     ∃ c1 c2 db1 db2,
       CommentsRouter.post_like u id now1 db =
         (mkResponse 200 (Ids (Comment.likes c1)), db1) ∧
       CommentsRouter.post_like u id now2 db1 =
         (mkResponse 200 (Ids (Comment.likes c2)), db2) ∧
       comments db1 !! id = Some c1 ∧ comments db2 !! id = Some c2 ∧
       toggle_twice_spec u (Comment.likes c) (Comment.likes c1) (Comment.likes c2)).
Proof.
  split.
  - intros t Ht.
    pose proof (tweet_like_found db u id now1 t Ht) as H1.
    set (t1 := Tweet.save_array_change now1 (Tweet.set_likes (toggle_like u (Tweet.likes t)) t)) in *.
    set (db1 := set_tweets (<[id := t1]> (tweets db)) db) in *.
    assert (tweets db1 !! id = Some t1) as Ht1 by apply lookup_insert_eq.
    pose proof (tweet_like_found db1 u id now2 t1 Ht1) as H2.
    exists t1, (Tweet.save_array_change now2 (Tweet.set_likes (toggle_like u (Tweet.likes t1)) t1)),
      db1.
    eexists. split; [exact H1|]. split; [exact H2|].
    split; [exact Ht1|]. split; [apply lookup_insert_eq|].
    apply toggle_twice_spec_holds.
  - intros c Hc.
    pose proof (comment_like_found db u id now1 c Hc) as H1.
    set (c1 := Comment.save_array_change now1
                 (Comment.set_likes (toggle_like u (Comment.likes c)) c)) in *.
    set (db1 := set_comments (<[id := c1]> (comments db)) db) in *.
    assert (comments db1 !! id = Some c1) as Hc1 by apply lookup_insert_eq.
    pose proof (comment_like_found db1 u id now2 c1 Hc1) as H2.
    exists c1,
      (Comment.save_array_change now2 (Comment.set_likes (toggle_like u (Comment.likes c1)) c1)),
      db1.
    eexists. split; [exact H1|]. split; [exact H2|].
    split; [exact Hc1|]. split; [apply lookup_insert_eq|].
    apply toggle_twice_spec_holds.
Qed.

(** C3 at a concrete request: Bob (2) toggles his like on tweet 7, whose
    likes are [1; 2], and on comment 20. *)
Lemma like_toggle_twice_witness :
  tweets Sample.db !! 7%N = Some Sample.tweet7 ∧
  comments Sample.db !! 20%N = Some Sample.comment20 ∧
  (∃ t1 t2 db1 db2,
     TweetsRouter.post_like 2 7 300 Sample.db =
       (mkResponse 200 (Ids (Tweet.likes t1)), db1) ∧
     TweetsRouter.post_like 2 7 400 db1 =
       (mkResponse 200 (Ids (Tweet.likes t2)), db2) ∧
     tweets db1 !! 7%N = Some t1 ∧ tweets db2 !! 7%N = Some t2 ∧
     toggle_twice_spec 2 (Tweet.likes Sample.tweet7) (Tweet.likes t1) (Tweet.likes t2)) ∧
  (∃ c1 c2 db1 db2,
     CommentsRouter.post_like 2 20 300 Sample.db =
       (mkResponse 200 (Ids (Comment.likes c1)), db1) ∧
     CommentsRouter.post_like 2 20 400 db1 =
       (mkResponse 200 (Ids (Comment.likes c2)), db2) ∧
     comments db1 !! 20%N = Some c1 ∧ comments db2 !! 20%N = Some c2 ∧
     toggle_twice_spec 2 (Comment.likes Sample.comment20)
       (Comment.likes c1) (Comment.likes c2)).
Proof.
  assert (tweets Sample.db !! 7%N = Some Sample.tweet7) as Ht by reflexivity.
  assert (comments Sample.db !! 20%N = Some Sample.comment20) as Hc
    by reflexivity.
  split; [exact Ht|]. split; [exact Hc|]. split.
  - exact (proj1 (like_toggle_twice Sample.db 2 7 300 400) _ Ht).
  - exact (proj2 (like_toggle_twice Sample.db 2 20 300 400) _ Hc).
Defined.

(** C3 as stated fails: Bob is the second entry of the likes [1; 2] of
    tweet 7; after his two toggles the likes are [2; 1], not the original
    sequence. *)
Lemma like_toggle_twice_counterexample :
  ∃ t1 t2 db1 db2,
    tweets Sample.db !! 7%N = Some Sample.tweet7 ∧
    TweetsRouter.post_like 2 7 300 Sample.db =
      (mkResponse 200 (Ids (Tweet.likes t1)), db1) ∧
    TweetsRouter.post_like 2 7 400 db1 =
      (mkResponse 200 (Ids (Tweet.likes t2)), db2) ∧
    tweets db2 !! 7%N = Some t2 ∧
    Tweet.likes Sample.tweet7 = [1%N; 2%N] ∧
    Tweet.likes t1 = [1%N] ∧
    Tweet.likes t2 = [2%N; 1%N] ∧
    Tweet.likes t2 ≠ Tweet.likes Sample.tweet7.
Proof.
  eexists (Tweet.save_array_change 300 (Tweet.set_likes [1%N] Sample.tweet7)),
    (Tweet.save_array_change 400
       (Tweet.set_likes [2%N; 1%N]
          (Tweet.save_array_change 300 Sample.tweet7))), _, _.
  split; [reflexivity|]. split; [reflexivity|]. split; [reflexivity|].
  split; [reflexivity|]. split; [reflexivity|]. split; [reflexivity|].
  split; [reflexivity|]. discriminate.
Qed.

(** C10, as amended.  A like toggle by [u] on a tweet, and likewise on a
    comment, changes in the likes only the membership of [u]: the entries
    of the other users keep their order, and a new like is inserted at the
    front.  Of the record's other fields two change, as in every save of a
    changed array: [updatedAt] becomes the current time and the version key
    [__v] is incremented; no other document of the database is touched. *)
Theorem like_toggle_frame (db : Db) (u id : N) (now : N) :
  (∀ t, tweets db !! id = Some t →
     ∃ t' db',
       TweetsRouter.post_like u id now db =
         (mkResponse 200 (Ids (Tweet.likes t')), db') ∧
       tweets db' !! id = Some t' ∧
       toggle_frame_spec u (Tweet.likes t) (Tweet.likes t') ∧
       Tweet.set_likes (Tweet.likes t) t' = Tweet.save_array_change now t ∧
       Tweet.updatedAt t' = now ∧
       Tweet.version t' = (Tweet.version t + 1)%N ∧
       (∀ j, j ≠ id → tweets db' !! j = tweets db !! j) ∧
       users db' = users db ∧ comments db' = comments db)
  ∧
  (∀ c, comments db !! id = Some c →
     ∃ c' db',
       CommentsRouter.post_like u id now db =
         (mkResponse 200 (Ids (Comment.likes c')), db') ∧
       comments db' !! id = Some c' ∧
       toggle_frame_spec u (Comment.likes c) (Comment.likes c') ∧
       Comment.set_likes (Comment.likes c) c' = Comment.save_array_change now c ∧
       Comment.updatedAt c' = now ∧
       Comment.version c' = (Comment.version c + 1)%N ∧
       (∀ j, j ≠ id → comments db' !! j = comments db !! j) ∧
       users db' = users db ∧ tweets db' = tweets db).
Proof.
  split.
  - intros t Ht.
    exists (Tweet.save_array_change now
              (Tweet.set_likes (toggle_like u (Tweet.likes t)) t)).
    eexists. split; [by apply tweet_like_found|].
    split; [apply lookup_insert_eq|].
    split; [apply toggle_frame_spec_holds|].
    split; [by destruct t|].
    split; [done|]. split; [done|].
    split; [|done]. intros j Hj. simpl. by rewrite lookup_insert_ne.
  - intros c Hc.
    exists (Comment.save_array_change now
              (Comment.set_likes (toggle_like u (Comment.likes c)) c)).
    eexists. split; [by apply comment_like_found|].
    split; [apply lookup_insert_eq|].
    split; [apply toggle_frame_spec_holds|].
    split; [by destruct c|].
    split; [done|]. split; [done|].
    split; [|done]. intros j Hj. simpl. by rewrite lookup_insert_ne.
Qed.

(** C10 at concrete requests: Carol (3) likes tweet 7, whose likes are
    [1; 2], at time 500, and Alice (1) withdraws her like from comment 20,
    whose likes are [1; 2] as well. *)
Lemma like_toggle_frame_witness :
  tweets Sample.db !! 7%N = Some Sample.tweet7 ∧
  comments Sample.db !! 20%N = Some Sample.comment20 ∧
  (∃ t' db',
     TweetsRouter.post_like 3 7 500 Sample.db =
       (mkResponse 200 (Ids (Tweet.likes t')), db') ∧
     tweets db' !! 7%N = Some t' ∧
     toggle_frame_spec 3 (Tweet.likes Sample.tweet7) (Tweet.likes t') ∧
     Tweet.set_likes (Tweet.likes Sample.tweet7) t' =
       Tweet.save_array_change 500 Sample.tweet7 ∧
     Tweet.updatedAt t' = 500%N ∧
     Tweet.version t' = (Tweet.version Sample.tweet7 + 1)%N ∧
     (∀ j, j ≠ 7%N → tweets db' !! j = tweets Sample.db !! j) ∧
     users db' = users Sample.db ∧ comments db' = comments Sample.db) ∧
  (∃ c' db',
     CommentsRouter.post_like 1 20 500 Sample.db =
       (mkResponse 200 (Ids (Comment.likes c')), db') ∧
     comments db' !! 20%N = Some c' ∧
     toggle_frame_spec 1 (Comment.likes Sample.comment20) (Comment.likes c') ∧
     Comment.set_likes (Comment.likes Sample.comment20) c' =
       Comment.save_array_change 500 Sample.comment20 ∧
     Comment.updatedAt c' = 500%N ∧
     Comment.version c' = (Comment.version Sample.comment20 + 1)%N ∧
     (∀ j, j ≠ 20%N → comments db' !! j = comments Sample.db !! j) ∧
     users db' = users Sample.db ∧ tweets db' = tweets Sample.db).
Proof.
  assert (tweets Sample.db !! 7%N = Some Sample.tweet7) as Ht by reflexivity.
  assert (comments Sample.db !! 20%N = Some Sample.comment20) as Hc
    by reflexivity.
  split; [exact Ht|]. split; [exact Hc|]. split.
  - exact (proj1 (like_toggle_frame Sample.db 3 7 500) _ Ht).
  - exact (proj2 (like_toggle_frame Sample.db 1 20 500) _ Hc).
Defined.

(** C10 as stated fails on the last clause: the like of Carol on tweet 7 at
    time 500 puts her at the front of the likes [1; 2] and also moves the
    record's [updatedAt] from 100 to 500 and its version key from 3 to
    4. *)
Lemma like_toggle_frame_counterexample :
  ∃ t' db',
    tweets Sample.db !! 7%N = Some Sample.tweet7 ∧
    TweetsRouter.post_like 3 7 500 Sample.db =
      (mkResponse 200 (Ids (Tweet.likes t')), db') ∧
    tweets db' !! 7%N = Some t' ∧
    Tweet.likes Sample.tweet7 = [1%N; 2%N] ∧
    Tweet.likes t' = [3%N; 1%N; 2%N] ∧
    Tweet.updatedAt Sample.tweet7 = 100%N ∧
    Tweet.updatedAt t' = 500%N ∧
    Tweet.version Sample.tweet7 = 3%N ∧
    Tweet.version t' = 4%N ∧
    Tweet.set_likes (Tweet.likes Sample.tweet7) t' ≠ Sample.tweet7.
Proof.
  eexists (Tweet.save_array_change 500
             (Tweet.set_likes [3%N; 1%N; 2%N] Sample.tweet7)), _.
  split; [reflexivity|]. split; [reflexivity|]. split; [reflexivity|].
  split; [reflexivity|]. split; [reflexivity|]. split; [reflexivity|].
  split; [reflexivity|]. split; [reflexivity|]. split; [reflexivity|].
  discriminate.
Qed.

(** ** Deletion *)

Lemma deleteMany_comments_lookup (id c : N) (cs : gmap N Comment.t) :
  TweetsRouter.deleteMany_comments id cs !! c =
    match cs !! c with
    | Some cm => if decide (Comment.tweet cm = id) then None else Some cm
    | None => None
    end.
Proof.
  unfold TweetsRouter.deleteMany_comments.
  destruct (cs !! c) as [cm|] eqn:Hc.
  - destruct (decide (Comment.tweet cm = id)) as [Heq|Hne].
    + apply map_lookup_filter_None. right. intros cm' Hc'.
      assert (cm' = cm) as -> by congruence. simpl. by intros Hn.
    + apply map_lookup_filter_Some. by split.
  - apply map_lookup_filter_None. by left.
Qed.

Lemma comment_routes_not_found (db : Db) (c : N) :
  comments db !! c = None →
  ∀ v now,
    CommentsRouter.post_like v c now db =
      (mkResponse 404 (Message "Comment not found"), db) ∧
    CommentsRouter.delete_comment v c now db =
      (mkResponse 404 (Message "Comment not found"), db).
Proof.
  intros Hc v now.
  unfold CommentsRouter.post_like, CommentsRouter.delete_comment.
  by rewrite Hc.
Qed.

(** C4.  When the caller is the author of tweet [id], the delete answers
    200; afterwards the tweet is gone (fetching it answers 404), no stored
    comment has [id] as its parent, and every comment that had is gone: the
    routes that look such a comment up by its identifier answer 404.  The
    comments of other tweets, the other tweets and the users are as
    before. *)
Theorem delete_tweet_cascade (db : Db) (u id : N) (t : Tweet.t) :
  tweets db !! id = Some t →
  Tweet.user t = u →
  ∃ db',
    TweetsRouter.delete_tweet u id db =
      (mkResponse 200 (Message "Tweet removed"), db') ∧
    tweets db' !! id = None ∧
    get_tweet id db' = mkResponse 404 (Message "Tweet not found") ∧
    (∀ c cm, comments db' !! c = Some cm → Comment.tweet cm ≠ id) ∧
    (∀ c cm, comments db !! c = Some cm → Comment.tweet cm = id →
       comments db' !! c = None ∧
       ∀ v now,
         CommentsRouter.post_like v c now db' =
           (mkResponse 404 (Message "Comment not found"), db') ∧
         CommentsRouter.delete_comment v c now db' =
           (mkResponse 404 (Message "Comment not found"), db')) ∧
    (∀ c cm, comments db !! c = Some cm → Comment.tweet cm ≠ id →
       comments db' !! c = Some cm) ∧
    (∀ j, j ≠ id → tweets db' !! j = tweets db !! j) ∧
    users db' = users db.
Proof.
  intros Ht Hu. eexists. split.
  { unfold TweetsRouter.delete_tweet. rewrite Ht, Hu, N.eqb_refl. reflexivity. }
  simpl. split; [apply lookup_delete_eq|].
  split. { unfold get_tweet. simpl. by rewrite lookup_delete_eq. }
  split.
  { intros c cm. rewrite deleteMany_comments_lookup.
    destruct (comments db !! c) as [cm'|]; [|done].
    destruct (decide (Comment.tweet cm' = id)); [done|]. congruence. }
  split.
  { intros c cm Hc Hp.
    assert (TweetsRouter.deleteMany_comments id (comments db) !! c = None) as Hgone.
    { rewrite deleteMany_comments_lookup, Hc. by rewrite decide_True. }
    split; [exact Hgone|]. by apply comment_routes_not_found. }
  split.
  { intros c cm Hc Hp. rewrite deleteMany_comments_lookup, Hc.
    by rewrite decide_False. }
  split; [|done]. intros j Hj. by rewrite lookup_delete_ne.
Qed.

Lemma delete_tweet_cascade_witness :
  tweets Sample.db !! 7%N = Some Sample.tweet7 ∧
  Tweet.user Sample.tweet7 = 2%N ∧
  comments Sample.db !! 20%N = Some Sample.comment20 ∧
  ∃ db',
    TweetsRouter.delete_tweet 2 7 Sample.db =
      (mkResponse 200 (Message "Tweet removed"), db') ∧
    tweets db' !! 7%N = None ∧
    comments db' !! 20%N = None ∧
    comments db' !! 21%N = Some Sample.comment21.
Proof.
  assert (tweets Sample.db !! 7%N = Some Sample.tweet7) as Ht by reflexivity.
  assert (comments Sample.db !! 20%N = Some Sample.comment20) as H20
    by reflexivity.
  assert (comments Sample.db !! 21%N = Some Sample.comment21) as H21
    by reflexivity.
  split; [exact Ht|]. split; [reflexivity|]. split; [exact H20|].
  destruct (delete_tweet_cascade Sample.db 2 7 Sample.tweet7 Ht eq_refl)
    as (db' & Hdel & Hgone & _ & _ & Hcasc & Hkeep & _).
  exists db'. split; [exact Hdel|]. split; [exact Hgone|]. split.
  - exact (proj1 (Hcasc _ _ H20 eq_refl)).
  - apply (Hkeep _ _ H21). discriminate.
Defined.

(** C5.  A delete by a caller who is not the author of an existing tweet
    answers 401 and returns the database it received; the same holds for
    an existing comment, whose parent tweet is therefore untouched as
    well. *)
Theorem delete_by_non_author (db : Db) (u id : N) :
  (∀ t, tweets db !! id = Some t → Tweet.user t ≠ u →
     TweetsRouter.delete_tweet u id db =
       (mkResponse 401 (Message "User not authorized"), db))
  ∧
  (∀ c now, comments db !! id = Some c → Comment.user c ≠ u →
     CommentsRouter.delete_comment u id now db =
       (mkResponse 401 (Message "User not authorized"), db)).
Proof.
  split.
  - intros t Ht Hne. unfold TweetsRouter.delete_tweet. rewrite Ht.
    by rewrite (proj2 (N.eqb_neq _ _) Hne).
  - intros c now Hc Hne. unfold CommentsRouter.delete_comment. rewrite Hc.
    by rewrite (proj2 (N.eqb_neq _ _) Hne).
Qed.

Lemma delete_by_non_author_witness :
  tweets Sample.db !! 7%N = Some Sample.tweet7 ∧
  Tweet.user Sample.tweet7 ≠ 1%N ∧
  comments Sample.db !! 20%N = Some Sample.comment20 ∧
  Comment.user Sample.comment20 ≠ 3%N ∧
  TweetsRouter.delete_tweet 1 7 Sample.db =
    (mkResponse 401 (Message "User not authorized"), Sample.db) ∧
  CommentsRouter.delete_comment 3 20 600 Sample.db =
    (mkResponse 401 (Message "User not authorized"), Sample.db).
Proof.
  assert (tweets Sample.db !! 7%N = Some Sample.tweet7) as Ht by reflexivity.
  assert (Tweet.user Sample.tweet7 ≠ 1%N) as Hne by discriminate.
  assert (comments Sample.db !! 20%N = Some Sample.comment20) as Hc
    by reflexivity.
  assert (Comment.user Sample.comment20 ≠ 3%N) as Hne' by discriminate.
  split; [exact Ht|]. split; [exact Hne|]. split; [exact Hc|].
  split; [exact Hne'|]. split.
  - exact (proj1 (delete_by_non_author Sample.db 1 7) _ Ht Hne).
  - exact (proj2 (delete_by_non_author Sample.db 3 20) _ 600%N Hc Hne').
Defined.

(** ** Creating a tweet *)

(** A tweet with text of at most 280 UTF-16 code units is created, with or
    without an image. *)
Lemma post_tweet_with_content `{JsStrings} (u : N) (s : string)
  (file : option string) (now nid : N) (db : Db) :
  s ≠ "" → (js_length s ≤ 280)%nat →
  ∃ out,
    TweetsRouter.post_tweet u (Some s) file now nid db =
      (mkResponse 201 (OneTweet out),
       set_tweets (<[nid := TweetsRouter.new_tweet u (Some s) file now]> (tweets db)) db)
    ∧ Tweet.content (TweetsRouter.new_tweet u (Some s) file now) = s
    ∧ Tweet.image (TweetsRouter.new_tweet u (Some s) file now) = file.
Proof.
  intros Hs Hlen.
  assert (String.eqb s "" = false) as Hne by by apply String.eqb_neq.
  assert (Nat.leb (js_length s) 280 = true) as Hle by by apply Nat.leb_le.
  assert (Nat.leb (validator_length s) 280 = true) as Hle'.
  { apply Nat.leb_le. pose proof (validator_length_le s). lia. }
  assert (TweetsRouter.post_checks (Some s) file = []) as Hchecks.
  { unfold TweetsRouter.post_checks, Validator.check, Validator.isEmpty,
      Validator.isLength_max. simpl. by rewrite Hne, Hle'. }
  assert (Tweet.content (TweetsRouter.new_tweet u (Some s) file now) = s) as Hc.
  { unfold TweetsRouter.new_tweet, truthy. simpl. by rewrite Hne. }
  eexists. unfold TweetsRouter.post_tweet. rewrite Hchecks.
  unfold Tweet.validate, Mongoose.required_string, Mongoose.maxlength.
  rewrite Hc, Hne, Hle. simpl. split; [reflexivity|]. by split.
Qed.

(** C1, evaluated on the code.  With empty (or absent) text and no image the
    request is rejected by the validation chain with 400 and nothing is
    stored.  With empty text and an image the validation chain lets the
    request through, but saving the tweet fails on the schema's [required]
    content, so the handler answers 500 and nothing is stored either. *)
Theorem post_tweet_empty_content `{JsStrings} (u : N) (path : string)
  (now nid : N) (db : Db) :
  TweetsRouter.post_tweet u None None now nid db =
    (mkResponse 400 (Errors ["Content is required"]), db) ∧
  TweetsRouter.post_tweet u (Some "") None now nid db =
    (mkResponse 400 (Errors ["Content is required"]), db) ∧
  TweetsRouter.post_checks None (Some path) = [] ∧
  TweetsRouter.post_checks (Some "") (Some path) = [] ∧
  TweetsRouter.post_tweet u None (Some path) now nid db =
    (mkResponse 500 (Message "Server error"), db) ∧
  TweetsRouter.post_tweet u (Some "") (Some path) now nid db =
    (mkResponse 500 (Message "Server error"), db).
Proof.
  assert (∀ content file, Validator.toString content = "" →
            TweetsRouter.post_checks content file =
              Validator.check (present file) "Content is required") as Hchecks.
  { intros content file Hc.
    unfold TweetsRouter.post_checks, Validator.isEmpty, Validator.isLength_max.
    rewrite Hc, validator_length_empty. simpl. apply app_nil_r. }
  unfold TweetsRouter.post_tweet.
  rewrite !Hchecks by reflexivity. repeat split; reflexivity.
Qed.

(** ** Registration *)

Section RegisterProps.

Context `{JsStrings}.

Variable isEmail : string → bool.
Variable hashPassword : string → string.
Variable generateToken : N → string.

Lemma register_checks_password (f : AuthRouter.RegisterForm) :
  (validator_length (Validator.toString (AuthRouter.reg_password f)) < 6)%nat →
  "Password must be at least 6 characters" ∈ AuthRouter.register_checks isEmail f.
Proof.
  intros Hlen. unfold AuthRouter.register_checks.
  rewrite !elem_of_app. do 3 right.
  unfold Validator.check, Validator.isLength_min.
  rewrite (proj2 (Nat.leb_gt _ _) Hlen). apply list_elem_of_here.
Qed.

(** C9.  A registration whose password has fewer than 6 characters, in the
    count of [isLength] (an absent password counts as empty), is answered
    400 with the validation errors, among them the one on the password, and
    the database is returned as it was: no user is created. *)
Theorem register_short_password (f : AuthRouter.RegisterForm) (nid : N) (db : Db) :
  (validator_length (Validator.toString (AuthRouter.reg_password f)) < 6)%nat →
  ∃ errors,
    AuthRouter.post_register isEmail hashPassword generateToken f nid db =
      (mkResponse 400 (Errors errors), db) ∧
    "Password must be at least 6 characters" ∈ errors.
Proof.
  intros Hlen. pose proof (register_checks_password f Hlen) as Hin.
  unfold AuthRouter.post_register.
  destruct (AuthRouter.register_checks isEmail f) as [|e errors] eqn:Hchecks.
  - by apply elem_of_nil in Hin.
  - exists (e :: errors). by split.
Qed.

End RegisterProps.

Section RegisterInstances.

#[local] Existing Instance Utf8.strings.

(** C9 at a concrete request: a password of three accented letters, which
    are three characters in six bytes. *)
Lemma register_short_password_witness :
  let f := AuthRouter.mkRegisterForm (Some "Dave") (Some "dave")
             (Some "dave@example.org") (Some "ééé") in
  (validator_length (Validator.toString (AuthRouter.reg_password f)) < 6)%nat ∧
  ∃ errors,
    AuthRouter.post_register (λ _, true) (String.append "h:") (λ _, "token") f 4 Sample.db =
      (mkResponse 400 (Errors errors), Sample.db) ∧
    "Password must be at least 6 characters" ∈ errors.
Proof.
  intros f.
  assert (validator_length (Validator.toString (AuthRouter.reg_password f)) < 6)%nat
    as Hlen by (vm_compute; lia).
  split; [exact Hlen|].
  exact (register_short_password (λ _, true) (String.append "h:") (λ _, "token")
           f 4 Sample.db Hlen).
Defined.

(** A well-formed registration with a password of 6 characters creates the
    user, with the password stored hashed. *)
Example register_ok :
  let f := AuthRouter.mkRegisterForm (Some "Dave") (Some "dave")
             (Some "dave@example.org") (Some "123456") in
  ∃ r db',
    AuthRouter.post_register (λ _, true) (String.append "h:") (λ _, "token") f 4 Sample.db
      = (r, db') ∧
    status r = 201 ∧
    User.password <$> users db' !! 4%N = Some "h:123456".
Proof. eexists _, _. split; [reflexivity|]. split; reflexivity. Qed.

End RegisterInstances.

(** ** The timeline *)

Section Timeline.

#[local] Instance newer_first_total : Total TweetsRouter.newer_first.
Proof. intros a b. unfold TweetsRouter.newer_first. lia. Qed.

#[local] Instance newer_first_trans : Transitive TweetsRouter.newer_first.
Proof. intros a b c. unfold TweetsRouter.newer_first. lia. Qed.

Lemma StronglySorted_take {A} (R : relation A) (n : nat) (l : list A) :
  StronglySorted R l → StronglySorted R (take n l).
Proof.
  intros Hs. rewrite <- (take_drop n l) in Hs.
  by apply StronglySorted_app_1_l in Hs.
Qed.

Variables (db : Db) (u : N) (cu : User.t).

Let found : list (N * Tweet.t) :=
  filter (TweetsRouter.timeline_query u cu) (map_to_list (tweets db)).

Let sorted : list (N * Tweet.t) := merge_sort TweetsRouter.newer_first found.

Lemma timeline_sorted_elem kv :
  kv ∈ sorted ↔
  tweets db !! kv.1 = Some kv.2 ∧
  (Tweet.user kv.2 = u ∨ Tweet.user kv.2 ∈ User.following cu).
Proof.
  unfold sorted. rewrite merge_sort_Permutation. unfold found.
  rewrite list_elem_of_filter. destruct kv as [i t]. simpl.
  rewrite elem_of_map_to_list. unfold TweetsRouter.timeline_query. simpl.
  tauto.
Qed.

Lemma timeline_sorted_NoDup : NoDup sorted.*1.
Proof.
  unfold sorted. rewrite merge_sort_Permutation. unfold found.
  apply NoDup_fmap_fst.
  - intros i t1 t2. rewrite !list_elem_of_filter, !elem_of_map_to_list.
    intros [_ H1] [_ H2]. congruence.
  - apply NoDup_filter, NoDup_map_to_list.
Qed.

Lemma timeline_sorted_order : StronglySorted TweetsRouter.newer_first sorted.
Proof. apply StronglySorted_merge_sort; apply _. Qed.

(** C6.  For an authenticated user [u] the timeline answers 200 with at
    most 50 tweets; each of them is a stored tweet written by [u] or by a
    member of [u]'s [following]; they are in descending order of creation
    time and no tweet is listed twice.  The listing is the head of the
    matching tweets in that order: a matching tweet that is left out is no
    newer than any listed one, and then the listing is full. *)
Theorem timeline_listing :
  users db !! u = Some cu →
  ∃ ts,
    TweetsRouter.get_timeline u db = mkResponse 200 (Tweets ts) ∧
    (length ts ≤ 50)%nat ∧
    (∀ o, o ∈ ts →
       tweets db !! out_id o = Some (out_tweet o) ∧
       (Tweet.user (out_tweet o) = u ∨
        Tweet.user (out_tweet o) ∈ User.following cu)) ∧
    StronglySorted
      (λ a b, (Tweet.createdAt (out_tweet b) ≤ Tweet.createdAt (out_tweet a))%N)
      ts ∧
    NoDup (out_id <$> ts) ∧
    (∀ i t, tweets db !! i = Some t →
       Tweet.user t = u ∨ Tweet.user t ∈ User.following cu →
       i ∈ out_id <$> ts ∨
       (length ts = 50%nat ∧
        ∀ o, o ∈ ts → (Tweet.createdAt t ≤ Tweet.createdAt (out_tweet o))%N)).
Proof.
  intros Hu. exists (TweetsRouter.to_out (users db) <$> take 50 sorted).
  split. { unfold TweetsRouter.get_timeline. by rewrite Hu. }
  split. { rewrite length_fmap, length_take. lia. }
  split.
  { intros o Ho. apply list_elem_of_fmap in Ho as (kv & -> & Hkv).
    simpl. apply timeline_sorted_elem.
    apply elem_of_take in Hkv as (n & Hn & _).
    by apply list_elem_of_lookup_2 in Hn. }
  split.
  { apply (StronglySorted_fmap _ TweetsRouter.newer_first); [by intros ??|].
    apply StronglySorted_take, timeline_sorted_order. }
  split.
  { rewrite <- list_fmap_compose.
    assert (out_id ∘ TweetsRouter.to_out (users db) = fst) as -> by done.
    rewrite fmap_take. apply (NoDup_app (take 50 sorted.*1) (drop 50 sorted.*1)).
    rewrite take_drop. apply timeline_sorted_NoDup. }
  intros i t Hi Hq.
  assert ((i, t) ∈ sorted) as Hin by by apply timeline_sorted_elem.
  rewrite <- (take_drop 50 sorted) in Hin.
  apply elem_of_app in Hin as [Hin|Hin].
  - left. rewrite <- list_fmap_compose.
    apply list_elem_of_fmap. by exists (i, t).
  - right. split.
    + rewrite length_fmap, length_take.
      destruct (decide (50 ≤ length sorted)%nat) as [|Hlt]; [lia|].
      rewrite drop_ge in Hin by lia. by apply elem_of_nil in Hin.
    + intros o Ho. apply list_elem_of_fmap in Ho as (kv & -> & Hkv). simpl.
      pose proof timeline_sorted_order as Hs.
      rewrite <- (take_drop 50 sorted) in Hs.
      apply (StronglySorted_app_1_elem_of _ _ _ kv (i, t) Hs Hkv Hin).
Qed.

End Timeline.

Lemma timeline_listing_witness :
  let cu := User.set_following [3%N] Sample.alice in
  let db := set_users (<[1%N := cu]> (users Sample.db)) Sample.db in
  users db !! 1%N = Some cu ∧
  TweetsRouter.get_timeline 1 db =
    mkResponse 200
      (Tweets [TweetsRouter.to_out (users db) (9%N, Sample.tweet9);
               TweetsRouter.to_out (users db) (8%N, Sample.tweet8)]) ∧
  ∃ ts,
    TweetsRouter.get_timeline 1 db = mkResponse 200 (Tweets ts) ∧
    (length ts ≤ 50)%nat ∧
    (∀ o, o ∈ ts →
       tweets db !! out_id o = Some (out_tweet o) ∧
       (Tweet.user (out_tweet o) = 1%N ∨
        Tweet.user (out_tweet o) ∈ User.following cu)).
Proof.
  intros cu db.
  assert (users db !! 1%N = Some cu) as Hu by reflexivity.
  split; [exact Hu|]. split; [vm_compute; reflexivity|].
  destruct (timeline_listing db 1 cu Hu) as (ts & Hts & Hlen & Hall & _).
  exists ts. split; [exact Hts|]. split; [exact Hlen|]. exact Hall.
Defined.

(** ** Updating the profile *)

Section Profile.

Lemma if_truthy_patch (supplied : option string) (old : string) :
  text_patch supplied old (default old (UsersRouter.if_truthy supplied)).
Proof.
  unfold text_patch, UsersRouter.if_truthy, truthy. split.
  - intros s -> Hs. by rewrite (proj2 (String.eqb_neq s "") Hs).
  - by intros [->| ->].
Qed.

Lemma upload_patch (uploaded old : option string) :
  file_patch uploaded old
    (match uploaded with Some p => Some p | None => old end).
Proof. unfold file_patch. split; [by intros p ->|by intros ->]. Qed.

(** C7, as amended.  A profile update answers 200 with the updated user
    without its password.  In the caller's record every text field
    ([name], [bio], [location], [website]) that the request supplies with
    a non-empty value takes that value and every uploaded image replaces
    the stored reference; a field that is absent, or supplied as the empty
    string, keeps its prior value, and so do all the fields the form does
    not carry.  Every other user's record, the tweets and the comments are
    unchanged. *)
Theorem put_profile_partial_patch (db : Db) (u : N) (f : UsersRouter.ProfileForm)
  (user : User.t) :
  users db !! u = Some user →
  ∃ user' db',
    UsersRouter.put_profile u f db =
      (mkResponse 200
         (UserDoc (Some (select_exclude "password" (user_toObject u user')))),
       db') ∧
    users db' !! u = Some user' ∧
    text_patch (UsersRouter.form_name f) (User.name user) (User.name user') ∧
    text_patch (UsersRouter.form_bio f) (User.bio user) (User.bio user') ∧
    text_patch (UsersRouter.form_location f) (User.location user)
      (User.location user') ∧
    text_patch (UsersRouter.form_website f) (User.website user)
      (User.website user') ∧
    file_patch (UsersRouter.file_profilePicture f) (User.profilePicture user)
      (User.profilePicture user') ∧
    file_patch (UsersRouter.file_coverPhoto f) (User.coverPhoto user)
      (User.coverPhoto user') ∧
    User.username user' = User.username user ∧
    User.email user' = User.email user ∧
    User.password user' = User.password user ∧
    User.isVerified user' = User.isVerified user ∧
    User.followers user' = User.followers user ∧
    User.following user' = User.following user ∧
    (∀ v, v ≠ u → users db' !! v = users db !! v) ∧
    tweets db' = tweets db ∧
    comments db' = comments db.
Proof.
  intros Hu.
  exists (UsersRouter.apply_set (UsersRouter.build_userFields f) user).
  eexists. split.
  { unfold UsersRouter.put_profile. by rewrite lookup_alter_eq, Hu. }
  simpl. split. { by rewrite lookup_alter_eq, Hu. }
  repeat (split; [first [apply if_truthy_patch | apply upload_patch | done]|]).
  split; [|done]. intros v Hv. by rewrite lookup_alter_ne.
Qed.

End Profile.

Lemma put_profile_partial_patch_witness :
  let f := UsersRouter.mkProfileForm (Some "Alice A.") None (Some "") None
             (Some "a.png") None in
  users Sample.db !! 1%N = Some Sample.alice ∧
  ∃ user' db',
    (UsersRouter.put_profile 1 f Sample.db).2 = db' ∧
    users db' !! 1%N = Some user' ∧
    User.name user' = "Alice A." ∧
    User.bio user' = "hello" ∧
    User.profilePicture user' = Some "a.png" ∧
    users db' !! 2%N = Some Sample.bob.
Proof.
  intros f.
  assert (users Sample.db !! 1%N = Some Sample.alice) as Hu by reflexivity.
  split; [exact Hu|].
  destruct (put_profile_partial_patch Sample.db 1 f Sample.alice Hu)
    as (user' & db' & Hput & Hget & Hname & Hbio & _ & _ & Hpic & _ & _ & _ & _
        & _ & _ & _ & Hothers & _).
  exists user', db'. split; [by rewrite Hput|]. split; [exact Hget|].
  split; [by apply (proj1 Hname)|].
  split; [apply (proj2 Hbio); by left|].
  split; [by apply (proj1 Hpic)|].
  rewrite Hothers by discriminate. reflexivity.
Defined.

(** C7 as stated fails: Alice's bio is "hello"; a request that supplies the
    bio as the empty string leaves it at "hello". *)
Lemma put_profile_counterexample :
  let f := UsersRouter.mkProfileForm None (Some "") None None None None in
  ∃ r db' user',
    users Sample.db !! 1%N = Some Sample.alice ∧
    UsersRouter.put_profile 1 f Sample.db = (r, db') ∧
    users db' !! 1%N = Some user' ∧
    UsersRouter.form_bio f = Some "" ∧
    User.bio user' = "hello" ∧
    Some (User.bio user') ≠ UsersRouter.form_bio f.
Proof.
  intros f. eexists _, _, Sample.alice.
  split; [reflexivity|]. split; [reflexivity|]. split; [reflexivity|].
  split; [reflexivity|]. split; [reflexivity|]. discriminate.
Qed.

(** ** Reading users *)

Section Reads.

(** The projection of a populated reference, path by path. *)
Lemma select_ref_paths (i : N) (u : User.t) :
  select_include UsersRouter.ref_paths (user_toObject i u) =
    [("_id", VId i); ("name", VStr (User.name u));
     ("username", VStr (User.username u))]
    ++ opt_field "profilePicture" (User.profilePicture u).
Proof.
  destruct u as [? ? ? ? [pp|] [cp|] ? ? ? ? ? ?]; reflexivity.
Qed.

(** The answer of the two reads, path by path: the stored document without
    [password], its two edge arrays populated. *)
Lemma user_view_paths (us : gmap N User.t) (i : N) (u : User.t) :
  UsersRouter.user_view us i u =
    [("_id", VId i); ("name", VStr (User.name u));
     ("username", VStr (User.username u)); ("email", VStr (User.email u))]
    ++ opt_field "profilePicture" (User.profilePicture u)
    ++ opt_field "coverPhoto" (User.coverPhoto u)
    ++ [("bio", VStr (User.bio u)); ("location", VStr (User.location u));
        ("website", VStr (User.website u));
        ("isVerified", VBool (User.isVerified u));
        ("followers",
         VDocs (populate_refs us UsersRouter.ref_paths (User.followers u)));
        ("following",
         VDocs (populate_refs us UsersRouter.ref_paths (User.following u)))].
Proof.
  destruct u as [? ? ? ? [pp|] [cp|] ? ? ? ? ? ?]; reflexivity.
Qed.

Lemma populate_refs_keys (us : gmap N User.t) (ids : list N) :
  "password" ∉ value_keys (VDocs (populate_refs us UsersRouter.ref_paths ids)).
Proof.
  simpl. intros Hin.
  apply list_elem_of_In, in_flat_map in Hin as (d & Hd & Hin).
  apply list_elem_of_In, list_elem_of_omap in Hd as (i & _ & Hd).
  destruct (us !! i) as [u|]; simpl in Hd; [|done]. injection Hd as <-.
  rewrite select_ref_paths in Hin.
  destruct (User.profilePicture u); simpl in Hin; intuition discriminate.
Qed.

Lemma user_view_keys (us : gmap N User.t) (i : N) (u : User.t) :
  "password" ∉ doc_keys (UsersRouter.user_view us i u).
Proof.
  rewrite user_view_paths. unfold doc_keys.
  pose proof (populate_refs_keys us (User.followers u)) as Hfollowers.
  pose proof (populate_refs_keys us (User.following u)) as Hfollowing.
  rewrite list_elem_of_In in Hfollowers, Hfollowing.
  rewrite list_elem_of_In, !flat_map_app, !in_app_iff.
  destruct (User.profilePicture u), (User.coverPhoto u);
    cbn [flat_map opt_field fst snd app In];
    change (value_keys (VStr ?s)) with (@nil string);
    change (value_keys (VBool ?b)) with (@nil string);
    change (value_keys (VId ?b)) with (@nil string);
    cbn [app In]; rewrite ?in_app_iff, ?app_nil_r; cbn [In];
    intuition discriminate.
Qed.

Lemma erase_password_fields (u1 u2 : User.t) :
  erase_password u1 = erase_password u2 →
  User.name u1 = User.name u2 ∧ User.username u1 = User.username u2 ∧
  User.email u1 = User.email u2 ∧
  User.profilePicture u1 = User.profilePicture u2 ∧
  User.coverPhoto u1 = User.coverPhoto u2 ∧
  User.bio u1 = User.bio u2 ∧ User.location u1 = User.location u2 ∧
  User.website u1 = User.website u2 ∧
  User.isVerified u1 = User.isVerified u2 ∧
  User.followers u1 = User.followers u2 ∧
  User.following u1 = User.following u2.
Proof.
  destruct u1, u2. unfold erase_password, User.set_password. simpl.
  intros [= -> -> -> -> -> -> -> -> -> -> ->]. by repeat split.
Qed.

Lemma erased_lookup (us1 us2 : gmap N User.t) (i : N) :
  erase_password <$> us1 = erase_password <$> us2 →
  erase_password <$> us1 !! i = erase_password <$> us2 !! i.
Proof. intros H. by rewrite <- !lookup_fmap, H. Qed.

Lemma populate_refs_erased (us1 us2 : gmap N User.t) (ids : list N) :
  erase_password <$> us1 = erase_password <$> us2 →
  populate_refs us1 UsersRouter.ref_paths ids =
  populate_refs us2 UsersRouter.ref_paths ids.
Proof.
  intros H. unfold populate_refs. apply list_omap_ext.
  apply Forall2_same_length_lookup_2; [done|].
  intros n i i' Hi Hi'. assert (i' = i) as -> by congruence.
  pose proof (erased_lookup us1 us2 i H) as Hu.
  destruct (us1 !! i) as [u1|], (us2 !! i) as [u2|]; simpl in *; try done.
  assert (erase_password u1 = erase_password u2) as He by congruence.
  apply erase_password_fields in He as (Hn & Hun & _ & Hp & _).
  rewrite !select_ref_paths. by rewrite Hn, Hun, Hp.
Qed.

Lemma user_view_erased (us1 us2 : gmap N User.t) (i : N) (u1 u2 : User.t) :
  erase_password <$> us1 = erase_password <$> us2 →
  erase_password u1 = erase_password u2 →
  UsersRouter.user_view us1 i u1 = UsersRouter.user_view us2 i u2.
Proof.
  intros H Hu. rewrite !user_view_paths.
  rewrite (populate_refs_erased us1 us2 _ H).
  rewrite (populate_refs_erased us1 us2 _ H).
  apply erase_password_fields in Hu
    as (Hn & Hun & He & Hp & Hc & Hb & Hl & Hw & Hv & Hfs & Hfg).
  by rewrite Hn, Hun, He, Hp, Hc, Hb, Hl, Hw, Hv, Hfs, Hfg.
Qed.

(** The first match of a query that does not read the password is the
    same, up to the password, in two lists that agree up to passwords. *)
Lemma head_filter_erased (P : User.t → bool) (l1 l2 : list (N * User.t)) :
  (∀ u, P (erase_password u) = P u) →
  prod_map id erase_password <$> l1 = prod_map id erase_password <$> l2 →
  prod_map id erase_password <$> head (filter (λ kv, P kv.2 = true) l1) =
  prod_map id erase_password <$> head (filter (λ kv, P kv.2 = true) l2).
Proof.
  intros HP. revert l2.
  induction l1 as [|[i1 u1] l1 IH]; intros [|[i2 u2] l2] Heq; try done.
  rewrite !fmap_cons in Heq. unfold prod_map at 1 3 in Heq. simpl in Heq.
  assert (i1 = i2) as -> by congruence.
  assert (erase_password u1 = erase_password u2) as Hu by congruence.
  assert (prod_map id erase_password <$> l1 = prod_map id erase_password <$> l2)
    as Hl by congruence.
  assert (P u1 = P u2) as HPu by by rewrite <- (HP u1), Hu, HP.
  destruct (P u2) eqn:HP2.
  - rewrite !filter_cons_True by done. simpl. unfold prod_map. simpl.
    by rewrite Hu.
  - rewrite !filter_cons_False by (simpl; congruence). by apply IH.
Qed.

Lemma findOne_erased (P : User.t → bool) (us1 us2 : gmap N User.t) :
  (∀ u, P (erase_password u) = P u) →
  erase_password <$> us1 = erase_password <$> us2 →
  prod_map id erase_password <$> findOne P us1 =
  prod_map id erase_password <$> findOne P us2.
Proof.
  intros HP H. unfold findOne. apply head_filter_erased; [done|].
  by rewrite <- !map_to_list_fmap, H.
Qed.

(** C8.  The answers of [GET /users/me] and [GET /users/:username] do not
    depend on the stored credential hashes: on two databases that differ at
    most in the [password] fields of their users the two reads give equal
    responses, whoever is fetched; and no object in a response, at any
    depth, has a [password] key. *)
Theorem user_reads_hide_password (db1 db2 : Db) (u : N) (username : string) :
  same_but_passwords db1 db2 →
  UsersRouter.get_me u db1 = UsersRouter.get_me u db2 ∧
  UsersRouter.get_by_username username db1 =
    UsersRouter.get_by_username username db2 ∧
  ("password" ∉ body_keys (body (UsersRouter.get_me u db1))) ∧
  ("password" ∉ body_keys (body (UsersRouter.get_by_username username db1))).
Proof.
  unfold same_but_passwords. intros H. split.
  { unfold UsersRouter.get_me. pose proof (erased_lookup _ _ u H) as Hu.
    destruct (users db1 !! u) as [u1|], (users db2 !! u) as [u2|];
      simpl in Hu; try done.
    assert (erase_password u1 = erase_password u2) as He by congruence.
    by rewrite (user_view_erased _ _ u u1 u2 H He). }
  split.
  { unfold UsersRouter.get_by_username.
    pose proof (findOne_erased
                  (λ u, String.eqb (User.username u) username)
                  (users db1) (users db2) (λ _, eq_refl) H) as Hf.
    destruct (findOne _ (users db1)) as [[i1 u1]|],
             (findOne _ (users db2)) as [[i2 u2]|]; simpl in Hf; try done.
    unfold prod_map, id in Hf. simpl in Hf.
    assert (i1 = i2) as -> by congruence.
    assert (erase_password u1 = erase_password u2) as He by congruence.
    by rewrite (user_view_erased _ _ i2 u1 u2 H He). }
  split.
  - unfold UsersRouter.get_me.
    destruct (users db1 !! u) as [u1|]; cbn [body body_keys from_option];
      [|apply not_elem_of_nil].
    apply user_view_keys.
  - unfold UsersRouter.get_by_username.
    destruct (findOne _ (users db1)) as [[i1 u1]|];
      cbn [body body_keys from_option]; [|apply not_elem_of_nil].
    apply user_view_keys.
Qed.

End Reads.

(** C8 at a concrete pair of databases: the sample database and the same
    database after Alice and Bob changed their passwords. *)
Lemma user_reads_hide_password_witness :
  let db2 :=
    set_users
      (<[1%N := User.set_password "$2a$10$other" Sample.alice]>
         (<[2%N := User.set_password "$2a$10$third" Sample.bob]>
            (users Sample.db))) Sample.db in
  same_but_passwords Sample.db db2 ∧
  users Sample.db !! 1%N ≠ users db2 !! 1%N ∧
  UsersRouter.get_me 1 Sample.db = UsersRouter.get_me 1 db2 ∧
  UsersRouter.get_by_username "bob" Sample.db =
    UsersRouter.get_by_username "bob" db2 ∧
  UsersRouter.get_by_username "bob" Sample.db =
    mkResponse 200
      (UserDoc (Some [("_id", VId 2); ("name", VStr "Bob");
                      ("username", VStr "bob");
                      ("email", VStr "bob@example.org");
                      ("profilePicture", VStr "bob.png");
                      ("bio", VStr ""); ("location", VStr "");
                      ("website", VStr ""); ("isVerified", VBool false);
                      ("followers", VDocs []); ("following", VDocs [])])).
Proof.
  intros db2.
  assert (same_but_passwords Sample.db db2) as H by (vm_compute; reflexivity).
  split; [exact H|]. split; [discriminate|].
  destruct (user_reads_hide_password Sample.db db2 1 "bob" H) as (Hme & Hbob & _).
  split; [exact Hme|]. split; [exact Hbob|]. vm_compute; reflexivity.
Defined.

(** ** ObjectIds and their strings *)

Section ObjectIds.

Variable bson : Bson.

Implicit Types (a b x : N) (s : string) (l : list N).

Lemma to_N_zeros (k : nat) s :
  HexString.Raw.to_N (String.append (zeros k) s) 0 = HexString.Raw.to_N s 0.
Proof. induction k as [|k IH]; [done|]. exact IH. Qed.

Lemma to_N_hex_digits x : HexString.Raw.to_N (hex_digits x) 0 = x.
Proof.
  destruct x as [|p]; [done|]. unfold hex_digits.
  by rewrite HexString.Raw.to_N_of_pos.
Qed.

(** Reading the digits of [toHexString] gives the ObjectId back, so two
    ObjectIds with the same string are the same. *)
Lemma toHexString_read x : HexString.Raw.to_N (toHexString x) 0 = x.
Proof. unfold toHexString. by rewrite to_N_zeros, to_N_hex_digits. Qed.

Lemma toHexString_inj a b : toHexString a = toHexString b → a = b.
Proof.
  intros Heq. rewrite <- (toHexString_read a), <- (toHexString_read b).
  by rewrite Heq.
Qed.

Lemma length_append (s1 s2 : string) :
  String.length (String.append s1 s2) = (String.length s1 + String.length s2)%nat.
Proof. induction s1 as [|c s1 IH]; [done|]. simpl. by rewrite IH. Qed.

Lemma length_zeros (k : nat) : String.length (zeros k) = k.
Proof. induction k as [|k IH]; [done|]. simpl. by rewrite IH. Qed.

(** The string of an ObjectId has 24 digits (more only for a number that
    does not fit 12 bytes), so it is never read as 12 bytes. *)
Lemma length_toHexString x : (24 ≤ String.length (toHexString x))%nat.
Proof.
  unfold toHexString. rewrite length_append, length_zeros. lia.
Qed.

(** A string that casts to [b] and is the string of some ObjectId is the
    string of [b]. *)
Lemma castObjectId_toHexString s b x :
  castObjectId bson s = Some b → s = toHexString x → x = b.
Proof.
  intros Hcast ->. unfold castObjectId in Hcast.
  destruct (_ && _).
  - rewrite toHexString_read in Hcast. congruence.
  - destruct bson; [|done].
    pose proof (length_toHexString x) as Hlen.
    destruct (Nat.eqb_spec (String.length (toHexString x)) 12) as [Heq|Hne];
      [lia|done].
Qed.

Lemma includes_string_true s l :
  Mongoose.includes_string s l = true ↔ ∃ x, x ∈ l ∧ s = toHexString x.
Proof.
  unfold Mongoose.includes_string. rewrite existsb_exists. split.
  - intros (x & Hx & Heq). exists x. split; [by apply list_elem_of_In|].
    by apply String.eqb_eq.
  - intros (x & Hx & ->). exists x. split; [by apply list_elem_of_In|].
    apply String.eqb_refl.
Qed.

(** With the string of an ObjectId, [includes] is membership. *)
Lemma includes_string_canonical b l :
  Mongoose.includes_string (toHexString b) l = true ↔ b ∈ l.
Proof.
  rewrite includes_string_true. split.
  - intros (x & Hx & Heq). by rewrite (toHexString_inj b x Heq).
  - intros Hb. by exists b.
Qed.

(** With another spelling of the same ObjectId it finds nothing. *)
Lemma includes_string_other s b l :
  castObjectId bson s = Some b → s ≠ toHexString b →
  Mongoose.includes_string s l = false.
Proof.
  intros Hcast Hne. apply not_true_is_false. rewrite includes_string_true.
  intros (x & _ & Heq).
  pose proof (castObjectId_toHexString s b x Hcast Heq) as ->. done.
Qed.

End ObjectIds.

(** The two readings of a string of 12 letters, and of a string that is
    neither 12 bytes nor 24 digits. *)
Example castObjectId_twelve_bytes :
  castObjectId TwelveBytesToo "aaaaaaaaaaaa" = Some 30137771623073100966955934049%N ∧
  toHexString 30137771623073100966955934049 = "616161616161616161616161" ∧
  castObjectId HexOnly "aaaaaaaaaaaa" = None ∧
  castObjectId TwelveBytesToo "kim" = None ∧
  castObjectId HexOnly "kim" = None.
Proof. repeat split; reflexivity. Qed.

(** ** Follow and unfollow *)

Section Follow.

Variable bson : Bson.

Implicit Types (us : gmap N User.t) (a b c : N) (ua ub : User.t).

Lemma pull_elem_of (x y : N) (l : list N) :
  y ∈ Mongoose.pull x l ↔ y ≠ x ∧ y ∈ l.
Proof. unfold Mongoose.pull. by rewrite list_elem_of_filter. Qed.

Lemma push_elem_of (x y : N) (l : list N) :
  y ∈ Mongoose.push x l ↔ y ∈ l ∨ y = x.
Proof.
  unfold Mongoose.push. rewrite elem_of_app.
  pose proof (list_elem_of_singleton y x). tauto.
Qed.

Lemma pull_NoDup (x : N) (l : list N) : NoDup l → NoDup (Mongoose.pull x l).
Proof. apply NoDup_filter. Qed.

Lemma push_NoDup (x : N) (l : list N) :
  x ∉ l → NoDup l → NoDup (Mongoose.push x l).
Proof.
  intros Hx Hl. unfold Mongoose.push. apply NoDup_app. split; [done|].
  split; [|apply NoDup_singleton].
  intros y Hy ->%list_elem_of_singleton. done.
Qed.

Lemma pull_push_absent (x : N) (l : list N) :
  x ∉ l → Mongoose.pull x (Mongoose.push x l) = l.
Proof.
  intros Hx. unfold Mongoose.pull, Mongoose.push. rewrite filter_app.
  rewrite filter_ne_absent by done.
  rewrite filter_cons_False by (intros Hn; by apply Hn). apply app_nil_r.
Qed.

(** Two pushes of the same element leave it twice. *)
Lemma push_push_dup (x : N) (l : list N) :
  ¬ NoDup (Mongoose.push x (Mongoose.push x l)).
Proof.
  unfold Mongoose.push. rewrite <- app_assoc. simpl.
  intros [_ [_ Hnd]]%NoDup_app. apply NoDup_cons in Hnd as [Hx _].
  apply Hx, list_elem_of_here.
Qed.

(** The two updates of a follow request, read at any user [c]: the first
    applies to the caller's record, the second to the target's, and both
    when the two are the same user. *)
Lemma follow_updates_lookup (f g : User.t → User.t) us a b c (uc' : User.t) :
  alter g b (alter f a us) !! c = Some uc' →
  ∃ uc, us !! c = Some uc ∧
        uc' = (if decide (c = b) then g else id)
                ((if decide (c = a) then f else id) uc).
Proof.
  destruct (decide (c = b)) as [->|Hcb]; destruct (decide (b = a)) as [->|Hba];
    try destruct (decide (c = a)) as [->|Hca]; try done;
    rewrite ?lookup_alter_eq, ?lookup_alter_ne by done;
    rewrite ?lookup_alter_eq, ?lookup_alter_ne by done;
    destruct (us !! _) as [uc|]; simpl; try done;
    intros [= <-]; by exists uc.
Qed.

Lemma follow_updates_is_Some (f g : User.t → User.t) us a b c :
  is_Some (us !! c) → is_Some (alter g b (alter f a us) !! c).
Proof.
  intros Hc. destruct (decide (c = b)) as [->|Hcb].
  - rewrite lookup_alter_eq. apply fmap_is_Some.
    destruct (decide (b = a)) as [->|Hba].
    + rewrite lookup_alter_eq. by apply fmap_is_Some.
    + by rewrite lookup_alter_ne.
  - rewrite lookup_alter_ne by done. destruct (decide (c = a)) as [->|Hca].
    + rewrite lookup_alter_eq. by apply fmap_is_Some.
    + by rewrite lookup_alter_ne.
Qed.

(** The records after the two pushes. *)
Lemma pushed_user us a b c (uc' : User.t) :
  alter (UsersRouter.push_followers a) b
    (alter (UsersRouter.push_following b) a us) !! c = Some uc' →
  ∃ uc, us !! c = Some uc ∧
        User.email uc' = User.email uc ∧
        User.username uc' = User.username uc ∧
        (∀ x, x ∈ User.following uc' ↔
              x ∈ User.following uc ∨ (c = a ∧ x = b)) ∧
        (∀ x, x ∈ User.followers uc' ↔
              x ∈ User.followers uc ∨ (c = b ∧ x = a)).
Proof.
  intros Hc. destruct (follow_updates_lookup _ _ us a b c uc' Hc)
    as (uc & Huc & ->).
  exists uc. split; [done|].
  destruct (decide (c = b)) as [Hcb|Hcb]; destruct (decide (c = a)) as [Hca|Hca];
    simpl; (split; [done|]); (split; [done|]);
    split; intros x; rewrite ?push_elem_of; tauto.
Qed.

(** The records after the two pulls. *)
Lemma pulled_user us a b c (uc' : User.t) :
  alter (UsersRouter.pull_followers a) b
    (alter (UsersRouter.pull_following b) a us) !! c = Some uc' →
  ∃ uc, us !! c = Some uc ∧
        User.email uc' = User.email uc ∧
        User.username uc' = User.username uc ∧
        (∀ x, x ∈ User.following uc' ↔
              x ∈ User.following uc ∧ ¬ (c = a ∧ x = b)) ∧
        (∀ x, x ∈ User.followers uc' ↔
              x ∈ User.followers uc ∧ ¬ (c = b ∧ x = a)).
Proof.
  intros Hc. destruct (follow_updates_lookup _ _ us a b c uc' Hc)
    as (uc & Huc & ->).
  exists uc. split; [done|].
  destruct (decide (c = b)) as [Hcb|Hcb]; destruct (decide (c = a)) as [Hca|Hca];
    simpl; (split; [done|]); (split; [done|]);
    split; intros x; rewrite ?pull_elem_of; tauto.
Qed.

(** The follow branch: the string is not the caller's own, it casts to a
    stored user, and [includes] does not find it. *)
Lemma follow_new db a b (id : string) ua ub :
  id ≠ toHexString a → castObjectId bson id = Some b →
  users db !! a = Some ua → users db !! b = Some ub →
  Mongoose.includes_string id (User.following ua) = false →
  UsersRouter.post_follow bson a id db =
    (mkResponse 200 (Message "User followed"),
     set_users
       (alter (UsersRouter.push_followers a) b
          (alter (UsersRouter.push_following b) a (users db))) db).
Proof.
  intros Hself Hcast Ha Hb Hnew. unfold UsersRouter.post_follow.
  rewrite (proj2 (String.eqb_neq _ _) Hself), Hcast, Hb, Ha. by rewrite Hnew.
Qed.

(** The unfollow branch. *)
Lemma follow_existing db a b (id : string) ua ub :
  id ≠ toHexString a → castObjectId bson id = Some b →
  users db !! a = Some ua → users db !! b = Some ub →
  Mongoose.includes_string id (User.following ua) = true →
  UsersRouter.post_follow bson a id db =
    (mkResponse 200 (Message "User unfollowed"),
     set_users
       (alter (UsersRouter.pull_followers a) b
          (alter (UsersRouter.pull_following b) a (users db))) db).
Proof.
  intros Hself Hcast Ha Hb Hold. unfold UsersRouter.post_follow.
  rewrite (proj2 (String.eqb_neq _ _) Hself), Hcast, Hb, Ha. by rewrite Hold.
Qed.

Lemma post_follow_outcome db a (id : string) :
  ∃ b, follow_outcome db a b (UsersRouter.post_follow bson a id db).2.
Proof.
  unfold UsersRouter.post_follow.
  destruct (String.eqb id (toHexString a)); [exists a; constructor|].
  destruct (castObjectId bson id) as [b|]; [|exists a; constructor].
  exists b.
  destruct (users db !! b) as [ub|] eqn:Hb; [|constructor].
  destruct (users db !! a) as [ua|] eqn:Ha; [|constructor].
  destruct (Mongoose.includes_string id (User.following ua)); simpl.
  - apply follow_pulled; by rewrite ?Ha, ?Hb.
  - apply follow_pushed; by rewrite ?Ha, ?Hb.
Qed.

(** Whatever a follow request does, the edges stay symmetric and keep
    naming stored users. *)
Lemma follow_outcome_edges db a b db' :
  follow_outcome db a b db' →
  edges_symmetric (users db) ∧ edges_closed (users db) →
  edges_symmetric (users db') ∧ edges_closed (users db').
Proof.
  intros [|Ha Hb|Ha Hb] [Hsym Hclosed]; [done|..]; simpl; split.
  - intros x y ux' uy' Hx Hy.
    destruct (pushed_user _ a b x ux' Hx) as (ux & Hx0 & _ & _ & Hing & _).
    destruct (pushed_user _ a b y uy' Hy) as (uy & Hy0 & _ & _ & _ & Hers).
    rewrite Hing, Hers. pose proof (Hsym x y ux uy Hx0 Hy0). tauto.
  - intros x ux' Hx y Hy. apply follow_updates_is_Some.
    destruct (pushed_user _ a b x ux' Hx) as (ux & Hx0 & _ & _ & Hing & Hers).
    rewrite Hing, Hers in Hy.
    destruct Hy as [[Hy|[_ ->]]|[Hy|[_ ->]]]; try done;
      apply (Hclosed x ux Hx0); tauto.
  - intros x y ux' uy' Hx Hy.
    destruct (pulled_user _ a b x ux' Hx) as (ux & Hx0 & _ & _ & Hing & _).
    destruct (pulled_user _ a b y uy' Hy) as (uy & Hy0 & _ & _ & _ & Hers).
    rewrite Hing, Hers. pose proof (Hsym x y ux uy Hx0 Hy0). tauto.
  - intros x ux' Hx y Hy. apply follow_updates_is_Some.
    destruct (pulled_user _ a b x ux' Hx) as (ux & Hx0 & _ & _ & Hing & Hers).
    rewrite Hing, Hers in Hy. apply (Hclosed x ux Hx0). tauto.
Qed.

End Follow.

(** ** The follow toggle and the spelling of the identifier *)

Section FollowToggle.

Variable bson : Bson.

Implicit Types (us : gmap N User.t) (a b : N) (ua ub : User.t).

Lemma alter_alter_rewrites us a b ua ub (f g : User.t → User.t) :
  a ≠ b → us !! a = Some ua → us !! b = Some ub →
  rewrites us (alter g b (alter f a us)) a b (f ua) (g ub).
Proof.
  intros Hab Ha Hb. split; [|split].
  - rewrite lookup_alter_ne by done. by rewrite lookup_alter_eq, Ha.
  - rewrite lookup_alter_eq, lookup_alter_ne by done. by rewrite Hb.
  - intros c Hca Hcb. by rewrite !lookup_alter_ne.
Qed.

(** Rewriting the edge between [a] and [b] on both sides keeps the
    graph well formed. *)
Lemma graph_ok_rewrites us us' a b ua ub ua' ub' :
  a ≠ b → us !! a = Some ua → us !! b = Some ub →
  rewrites us us' a b ua' ub' →
  User.followers ua' = User.followers ua →
  User.following ub' = User.following ub →
  (∀ c, c ≠ b → c ∈ User.following ua' ↔ c ∈ User.following ua) →
  (∀ c, c ≠ a → c ∈ User.followers ub' ↔ c ∈ User.followers ub) →
  (b ∈ User.following ua' ↔ a ∈ User.followers ub') →
  NoDup (User.following ua') → NoDup (User.followers ub') →
  graph_ok us → graph_ok us'.
Proof.
  intros Hab Ha Hb (Ha' & Hb' & Hothers) Hfa Hfb Hing Hers Hedge Hnda Hndb
    [Hsym Hnd].
  assert (∀ c uc', us' !! c = Some uc' →
            (c = a ∧ uc' = ua') ∨ (c = b ∧ uc' = ub') ∨
            (c ≠ a ∧ c ≠ b ∧ us !! c = Some uc')) as Hcases.
  { intros c uc' Hc. destruct (decide (c = a)) as [->|Hca].
    - left. split; [done|congruence].
    - destruct (decide (c = b)) as [->|Hcb].
      + right; left. split; [done|congruence].
      + right; right. rewrite Hothers in Hc by done. done. }
  split.
  - intros x y ux uy Hx Hy.
    destruct (Hcases x ux Hx) as [[-> ->]|[[-> ->]|(Hxa & Hxb & Hx0)]];
      destruct (Hcases y uy Hy) as [[-> ->]|[[-> ->]|(Hya & Hyb & Hy0)]].
    + rewrite Hfa, Hing by done. apply (Hsym a a ua ua Ha Ha).
    + exact Hedge.
    + rewrite Hing by done. apply (Hsym a y ua uy Ha Hy0).
    + rewrite Hfa, Hfb. apply (Hsym b a ub ua Hb Ha).
    + rewrite Hfb, Hers by done. apply (Hsym b b ub ub Hb Hb).
    + rewrite Hfb. apply (Hsym b y ub uy Hb Hy0).
    + rewrite Hfa. apply (Hsym x a ux ua Hx0 Ha).
    + rewrite Hers by done. apply (Hsym x b ux ub Hx0 Hb).
    + apply (Hsym x y ux uy Hx0 Hy0).
  - intros x ux Hx.
    destruct (Hcases x ux Hx) as [[-> ->]|[[-> ->]|(Hxa & Hxb & Hx0)]].
    + split; [done|]. rewrite Hfa. apply (Hnd a ua Ha).
    + split; [|done]. rewrite Hfb. apply (Hnd b ub Hb).
    + apply (Hnd x ux Hx0).
Qed.

Lemma pushed_graph_ok us a b ua ub :
  a ≠ b → us !! a = Some ua → us !! b = Some ub →
  b ∉ User.following ua →
  graph_ok us →
  graph_ok (alter (UsersRouter.push_followers a) b
              (alter (UsersRouter.push_following b) a us)).
Proof.
  intros Hab Ha Hb Hnew Hok.
  assert (a ∉ User.followers ub) as Hnew'.
  { intros Hin. apply Hnew. by apply (proj1 Hok a b ua ub Ha Hb). }
  destruct (proj2 Hok a ua Ha) as [Hnda _].
  destruct (proj2 Hok b ub Hb) as [_ Hndb].
  apply (graph_ok_rewrites us _ a b ua ub _ _ Hab Ha Hb
           (alter_alter_rewrites us a b ua ub _ _ Hab Ha Hb)); try done.
  - intros c Hc. simpl. rewrite push_elem_of. tauto.
  - intros c Hc. simpl. rewrite push_elem_of. tauto.
  - simpl. rewrite !push_elem_of. tauto.
  - simpl. by apply push_NoDup.
  - simpl. by apply push_NoDup.
Qed.

Lemma pulled_graph_ok us a b ua ub :
  a ≠ b → us !! a = Some ua → us !! b = Some ub →
  graph_ok us →
  graph_ok (alter (UsersRouter.pull_followers a) b
              (alter (UsersRouter.pull_following b) a us)).
Proof.
  intros Hab Ha Hb Hok.
  destruct (proj2 Hok a ua Ha) as [Hnda _].
  destruct (proj2 Hok b ub Hb) as [_ Hndb].
  apply (graph_ok_rewrites us _ a b ua ub _ _ Hab Ha Hb
           (alter_alter_rewrites us a b ua ub _ _ Hab Ha Hb)); try done.
  - intros c Hc. simpl. rewrite pull_elem_of. tauto.
  - intros c Hc. simpl. rewrite pull_elem_of. tauto.
  - simpl. rewrite !pull_elem_of. tauto.
  - simpl. by apply pull_NoDup.
  - simpl. by apply pull_NoDup.
Qed.

(** A completed follow request whose identifier is the string of an
    ObjectId, whatever its answer, keeps the graph well formed. *)
Lemma post_follow_graph_ok db a b :
  graph_ok (users db) →
  graph_ok (users (UsersRouter.post_follow bson a (toHexString b) db).2).
Proof.
  intros Hok. unfold UsersRouter.post_follow.
  destruct (String.eqb_spec (toHexString b) (toHexString a)) as [|Hself];
    [done|].
  assert (a ≠ b) as Hab by (intros ->; by apply Hself).
  destruct (castObjectId bson (toHexString b)) as [b'|] eqn:Hcast; [|done].
  assert (b = b') as <- by by apply (castObjectId_toHexString bson _ _ _ Hcast).
  destruct (users db !! b) as [ub|] eqn:Hb; [|done].
  destruct (users db !! a) as [ua|] eqn:Ha; [|done].
  destruct (Mongoose.includes_string _ _) eqn:Hinc; simpl.
  - by apply (pulled_graph_ok _ a b ua ub).
  - apply (pushed_graph_ok _ a b ua ub); try done.
    rewrite <- includes_string_canonical. by rewrite Hinc.
Qed.

(** The toggle, when the identifier of the request is the string of the
    target's ObjectId. *)
Lemma follow_toggle_canonical db a b ua ub :
  a ≠ b → castObjectId bson (toHexString b) = Some b →
  users db !! a = Some ua → users db !! b = Some ub →
  b ∉ User.following ua →
  ∃ db1 db2,
    UsersRouter.post_follow bson a (toHexString b) db =
      (mkResponse 200 (Message "User followed"), db1) ∧
    rewrites (users db) (users db1) a b
      (UsersRouter.push_following b ua) (UsersRouter.push_followers a ub) ∧
    tweets db1 = tweets db ∧ comments db1 = comments db ∧
    UsersRouter.post_follow bson a (toHexString b) db1 =
      (mkResponse 200 (Message "User unfollowed"), db2) ∧
    rewrites (users db1) (users db2) a b
      (UsersRouter.pull_following b (UsersRouter.push_following b ua))
      (UsersRouter.pull_followers a (UsersRouter.push_followers a ub)) ∧
    tweets db2 = tweets db ∧ comments db2 = comments db.
Proof.
  intros Hab Hcast Ha Hb Hnew.
  assert (toHexString b ≠ toHexString a) as Hself.
  { intros Heq. apply Hab. symmetry. by apply toHexString_inj. }
  assert (Mongoose.includes_string (toHexString b) (User.following ua) = false)
    as Hinc.
  { apply not_true_is_false. by rewrite includes_string_canonical. }
  pose proof (follow_new bson db a b _ ua ub Hself Hcast Ha Hb Hinc) as H1.
  set (db1 := set_users
                (alter (UsersRouter.push_followers a) b
                   (alter (UsersRouter.push_following b) a (users db))) db) in *.
  pose proof (alter_alter_rewrites (users db) a b ua ub
                (UsersRouter.push_following b) (UsersRouter.push_followers a)
                Hab Ha Hb) as Hrw1.
  pose proof Hrw1 as (Ha1 & Hb1 & _).
  assert (Mongoose.includes_string (toHexString b)
            (User.following (UsersRouter.push_following b ua)) = true) as Hinc1.
  { apply includes_string_canonical. simpl. rewrite push_elem_of. by right. }
  pose proof (follow_existing bson db1 a b _ _ _ Hself Hcast Ha1 Hb1 Hinc1) as H2.
  pose proof (alter_alter_rewrites (users db1) a b _ _
                (UsersRouter.pull_following b) (UsersRouter.pull_followers a)
                Hab Ha1 Hb1) as Hrw2.
  exists db1. eexists. split; [exact H1|]. split; [exact Hrw1|].
  split; [done|]. split; [done|]. split; [exact H2|]. split; [exact Hrw2|].
  by split.
Qed.

(** The same request twice, when the identifier is another spelling of the
    target's ObjectId: both requests take the follow branch. *)
Lemma follow_twice_other_spelling db a b (id : string) ua ub :
  a ≠ b → castObjectId bson id = Some b → id ≠ toHexString b →
  users db !! a = Some ua → users db !! b = Some ub →
  ∃ db1 db2,
    UsersRouter.post_follow bson a id db =
      (mkResponse 200 (Message "User followed"), db1) ∧
    UsersRouter.post_follow bson a id db1 =
      (mkResponse 200 (Message "User followed"), db2) ∧
    users db2 !! a =
      Some (UsersRouter.push_following b (UsersRouter.push_following b ua)) ∧
    users db2 !! b =
      Some (UsersRouter.push_followers a (UsersRouter.push_followers a ub)).
Proof.
  intros Hab Hcast Hother Ha Hb.
  assert (id ≠ toHexString a) as Hself.
  { intros Heq. apply Hab. by apply (castObjectId_toHexString bson id b a). }
  pose proof (follow_new bson db a b id ua ub Hself Hcast Ha Hb
                (includes_string_other bson id b _ Hcast Hother)) as H1.
  set (db1 := set_users
                (alter (UsersRouter.push_followers a) b
                   (alter (UsersRouter.push_following b) a (users db))) db) in *.
  pose proof (alter_alter_rewrites (users db) a b ua ub
                (UsersRouter.push_following b) (UsersRouter.push_followers a)
                Hab Ha Hb) as (Ha1 & Hb1 & _).
  pose proof (follow_new bson db1 a b id _ _ Hself Hcast Ha1 Hb1
                (includes_string_other bson id b _ Hcast Hother)) as H2.
  pose proof (alter_alter_rewrites (users db1) a b _ _
                (UsersRouter.push_following b) (UsersRouter.push_followers a)
                Hab Ha1 Hb1) as (Ha2 & Hb2 & _).
  exists db1. eexists. split; [exact H1|]. split; [exact H2|]. by split.
Qed.

(** C2, evaluated on the code.  The handler compares the identifier of the
    URL as a string, so what it does depends on how the identifier is
    spelled.  When it is the string of the target's ObjectId (24 lower-case
    digits) the claim holds: every completed request keeps the edge
    invariant (edges symmetric, none stored twice), and for two different
    stored users, [a] not following [b], the request follows and the same
    request again unfollows, which gives the two records back.  When it is
    another spelling of the same ObjectId (a digit in upper case) the
    request follows and the same request again follows once more: [b] is
    then twice in [a]'s [following] and [a] twice in [b]'s [followers], and
    the edge invariant is lost. *)
Theorem follow_toggle_spelling (db : Db) :
  (∀ a b, graph_ok (users db) →
     graph_ok (users (UsersRouter.post_follow bson a (toHexString b) db).2))
  ∧
  (∀ a b ua ub,
     a ≠ b → castObjectId bson (toHexString b) = Some b →
     users db !! a = Some ua →
     users db !! b = Some ub →
     b ∉ User.following ua →
     ∃ db1 db2 ua1 ub1 ua2 ub2,
       UsersRouter.post_follow bson a (toHexString b) db =
         (mkResponse 200 (Message "User followed"), db1) ∧
       users db1 !! a = Some ua1 ∧ users db1 !! b = Some ub1 ∧
       b ∈ User.following ua1 ∧ a ∈ User.followers ub1 ∧
       UsersRouter.post_follow bson a (toHexString b) db1 =
         (mkResponse 200 (Message "User unfollowed"), db2) ∧
       users db2 !! a = Some ua2 ∧ users db2 !! b = Some ub2 ∧
       (b ∉ User.following ua2) ∧ (a ∉ User.followers ub2) ∧
       (graph_ok (users db) →
          graph_ok (users db1) ∧ graph_ok (users db2) ∧
          ua2 = ua ∧ ub2 = ub))
  ∧
  (∀ a b (id : string) ua ub,
     a ≠ b → castObjectId bson id = Some b → id ≠ toHexString b →
     users db !! a = Some ua →
     users db !! b = Some ub →
     ∃ db1 db2 ua2 ub2,
       UsersRouter.post_follow bson a id db =
         (mkResponse 200 (Message "User followed"), db1) ∧
       UsersRouter.post_follow bson a id db1 =
         (mkResponse 200 (Message "User followed"), db2) ∧
       users db2 !! a = Some ua2 ∧ users db2 !! b = Some ub2 ∧
       User.following ua2 = User.following ua ++ [b; b] ∧
       User.followers ub2 = User.followers ub ++ [a; a] ∧
       ¬ graph_ok (users db2)).
Proof.
  split; [intros a b; by apply post_follow_graph_ok|]. split.
  - intros a b ua ub Hab Hcast Ha Hb Hnew.
    destruct (follow_toggle_canonical db a b ua ub Hab Hcast Ha Hb Hnew)
      as (db1 & db2 & H1 & Hrw1 & _ & _ & H2 & Hrw2 & _ & _).
    pose proof Hrw1 as (Ha1 & Hb1 & _). pose proof Hrw2 as (Ha2 & Hb2 & _).
    exists db1, db2, (UsersRouter.push_following b ua),
      (UsersRouter.push_followers a ub),
      (UsersRouter.pull_following b (UsersRouter.push_following b ua)),
      (UsersRouter.pull_followers a (UsersRouter.push_followers a ub)).
    split; [done|]. split; [done|]. split; [done|].
    split. { simpl. rewrite push_elem_of. by right. }
    split. { simpl. rewrite push_elem_of. by right. }
    split; [done|]. split; [done|]. split; [done|].
    split. { simpl. rewrite pull_elem_of. tauto. }
    split. { simpl. rewrite pull_elem_of. tauto. }
    intros Hok.
    assert (a ∉ User.followers ub) as Hnew'.
    { intros Hin. apply Hnew. by apply (proj1 Hok a b ua ub Ha Hb). }
    pose proof (post_follow_graph_ok db a b Hok) as Hok1.
    rewrite H1 in Hok1. simpl in Hok1.
    pose proof (post_follow_graph_ok db1 a b Hok1) as Hok2.
    rewrite H2 in Hok2. simpl in Hok2.
    split; [done|]. split; [done|]. split.
    + destruct ua. unfold UsersRouter.pull_following,
        UsersRouter.push_following, User.set_following. simpl in *.
      by rewrite pull_push_absent.
    + destruct ub. unfold UsersRouter.pull_followers,
        UsersRouter.push_followers, User.set_followers. simpl in *.
      by rewrite pull_push_absent.
  - intros a b id ua ub Hab Hcast Hother Ha Hb.
    destruct (follow_twice_other_spelling db a b id ua ub Hab Hcast Hother Ha Hb)
      as (db1 & db2 & H1 & H2 & Ha2 & Hb2).
    exists db1, db2,
      (UsersRouter.push_following b (UsersRouter.push_following b ua)),
      (UsersRouter.push_followers a (UsersRouter.push_followers a ub)).
    split; [exact H1|]. split; [exact H2|].
    split; [exact Ha2|]. split; [exact Hb2|].
    split. { simpl. unfold Mongoose.push. by rewrite <- app_assoc. }
    split. { simpl. unfold Mongoose.push. by rewrite <- app_assoc. }
    intros [_ Hnd]. destruct (Hnd a _ Ha2) as [Hnda _].
    by apply push_push_dup in Hnda.
Qed.

End FollowToggle.

(** A collection in which no user has an edge is well formed. *)
Lemma graph_ok_no_edges (us : gmap N User.t) :
  map_Forall (λ _ u, User.following u = [] ∧ User.followers u = []) us →
  graph_ok us.
Proof.
  intros Hall. split.
  - intros a b ua ub Ha Hb.
    destruct (Hall a ua Ha) as [-> _]. destruct (Hall b ub Hb) as [_ ->].
    by rewrite !elem_of_nil.
  - intros a ua Ha. destruct (Hall a ua Ha) as [-> ->].
    split; apply NoDup_nil_2.
Qed.

(** C2 at concrete requests.  Alice (1) follows Bob (2) by the string of
    his ObjectId, then repeats the request: followed, then unfollowed.
    Alice follows Kim, whose ObjectId ends in the digit [a], by the same
    digits with [A] in upper case, then repeats the request: followed both
    times, and Kim is twice in Alice's [following]. *)
Lemma follow_toggle_spelling_witness :
  (1%N ≠ 2%N) ∧
  castObjectId HexOnly (toHexString 2) = Some 2%N ∧
  users Sample.db !! 1%N = Some Sample.alice ∧
  users Sample.db !! 2%N = Some Sample.bob ∧
  (2%N ∉ User.following Sample.alice) ∧
  graph_ok (users Sample.db) ∧
  graph_ok
    (users (UsersRouter.post_follow HexOnly 3 "000000000000000000000001"
              Sample.db).2) ∧
  (∃ db1 db2,
     UsersRouter.post_follow HexOnly 1 "000000000000000000000002" Sample.db =
       (mkResponse 200 (Message "User followed"), db1) ∧
     User.following <$> users db1 !! 1%N = Some [2%N] ∧
     User.followers <$> users db1 !! 2%N = Some [1%N] ∧
     UsersRouter.post_follow HexOnly 1 "000000000000000000000002" db1 =
       (mkResponse 200 (Message "User unfollowed"), db2) ∧
     users db2 !! 1%N = Some Sample.alice ∧
     users db2 !! 2%N = Some Sample.bob ∧
     graph_ok (users db1) ∧ graph_ok (users db2)) ∧
  (1%N ≠ 10%N) ∧
  toHexString 10 = "00000000000000000000000a" ∧
  castObjectId HexOnly "00000000000000000000000A" = Some 10%N ∧
  "00000000000000000000000A" ≠ toHexString 10 ∧
  users Sample.db10 !! 1%N = Some Sample.alice ∧
  users Sample.db10 !! 10%N = Some Sample.kim ∧
  (∃ db1 db2,
     UsersRouter.post_follow HexOnly 1 "00000000000000000000000A" Sample.db10 =
       (mkResponse 200 (Message "User followed"), db1) ∧
     UsersRouter.post_follow HexOnly 1 "00000000000000000000000A" db1 =
       (mkResponse 200 (Message "User followed"), db2) ∧
     User.following <$> users db2 !! 1%N = Some [10%N; 10%N] ∧
     User.followers <$> users db2 !! 10%N = Some [1%N; 1%N] ∧
     ¬ graph_ok (users db2)).
Proof.
  assert (1%N ≠ 2%N) as Hab by discriminate.
  assert (castObjectId HexOnly (toHexString 2) = Some 2%N) as Hcast by reflexivity.
  assert (users Sample.db !! 1%N = Some Sample.alice) as Ha by reflexivity.
  assert (users Sample.db !! 2%N = Some Sample.bob) as Hb by reflexivity.
  assert (2%N ∉ User.following Sample.alice) as Hnew by apply not_elem_of_nil.
  assert (graph_ok (users Sample.db)) as Hok.
  { apply graph_ok_no_edges.
    apply (bool_decide_unpack _). vm_compute. reflexivity. }
  assert (1%N ≠ 10%N) as Hab' by discriminate.
  assert (castObjectId HexOnly "00000000000000000000000A" = Some 10%N) as Hcast'
    by reflexivity.
  assert ("00000000000000000000000A" ≠ toHexString 10) as Hother
    by discriminate.
  assert (users Sample.db10 !! 1%N = Some Sample.alice) as Ha' by reflexivity.
  assert (users Sample.db10 !! 10%N = Some Sample.kim) as Hb' by reflexivity.
  split; [exact Hab|]. split; [exact Hcast|]. split; [exact Ha|].
  split; [exact Hb|]. split; [exact Hnew|]. split; [exact Hok|]. split.
  { exact (proj1 (follow_toggle_spelling HexOnly Sample.db) 3%N 1%N Hok). }
  split.
  { destruct (proj1 (proj2 (follow_toggle_spelling HexOnly Sample.db)) 1%N 2%N
                Sample.alice Sample.bob Hab Hcast Ha Hb Hnew)
      as (db1 & db2 & ua1 & ub1 & ua2 & ub2 & H1 & _ & _ & _ & _ & H2 & Ha2
          & Hb2 & _ & _ & Hinv).
    destruct (Hinv Hok) as (Hok1 & Hok2 & -> & ->).
    exists db1, db2. split; [exact H1|].
    injection H1 as <-.
    split; [reflexivity|]. split; [reflexivity|]. split; [exact H2|].
    split; [exact Ha2|]. split; [exact Hb2|]. split; [exact Hok1|exact Hok2]. }
  split; [exact Hab'|]. split; [reflexivity|]. split; [exact Hcast'|].
  split; [exact Hother|]. split; [exact Ha'|]. split; [exact Hb'|].
  destruct (proj2 (proj2 (follow_toggle_spelling HexOnly Sample.db10)) 1%N 10%N
              "00000000000000000000000A" Sample.alice Sample.kim
              Hab' Hcast' Hother Ha' Hb')
    as (db1 & db2 & ua2 & ub2 & H1 & H2 & Ha2 & Hb2 & Hing & Hers & Hbad).
  exists db1, db2. split; [exact H1|]. split; [exact H2|].
  split; [rewrite Ha2; simpl; by rewrite Hing|].
  split; [rewrite Hb2; simpl; by rewrite Hers|].
  exact Hbad.
Defined.

(** * Further properties of the handlers *)

(** ** Route tables *)

Section Routing.

Lemma dispatch_match {R} (m : Method) (pattern : list Segment) (r : R)
  (router : list (Method * list Segment * R)) (path : list string) :
  dispatch ((m, pattern, r) :: router) m path =
    if path_matches pattern path then Some r else dispatch router m path.
Proof.
  unfold dispatch. rewrite filter_cons. simpl.
  destruct (path_matches pattern path).
  - by rewrite decide_True.
  - rewrite decide_False; [done|]. intros [_ ?]. discriminate.
Qed.

Lemma dispatch_skip {R} (m m' : Method) (pattern : list Segment) (r : R)
  (router : list (Method * list Segment * R)) (path : list string) :
  m' ≠ m →
  dispatch ((m', pattern, r) :: router) m path = dispatch router m path.
Proof.
  intros Hm. unfold dispatch. rewrite filter_cons. simpl.
  rewrite decide_False; [done|]. by intros [? _].
Qed.

(** The GET routes of the users router, in the order Express tries them. *)
Lemma users_router_get (path : list string) :
  dispatch users_router GET path =
    if path_matches [Lit "me"] path then Some UsersMe
    else if path_matches [Param "username"] path then Some UsersByUsername
    else if path_matches [Lit "suggestions"] path then Some UsersSuggestions
    else None.
Proof.
  unfold users_router.
  rewrite !dispatch_match, (dispatch_skip GET PUT), (dispatch_skip GET POST)
    by discriminate.
  by rewrite dispatch_match.
Qed.

(** X1.  In the users router [GET /:username] is registered before [GET
    /suggestions].  No GET request, whatever its path, is dispatched to
    the suggestions handler; [GET /suggestions] itself, like every GET for
    one non-empty segment other than [me], goes to the by-username
    handler. *)
Theorem users_router_suggestions_shadowed (path : list string) :
  dispatch users_router GET path ≠ Some UsersSuggestions ∧
  dispatch users_router GET ["suggestions"] = Some UsersByUsername ∧
  (∀ x, x ≠ "" → lower x ≠ "me" →
     dispatch users_router GET [x] = Some UsersByUsername).
Proof.
  split; [|split].
  - rewrite users_router_get.
    destruct (path_matches [Lit "me"] path); [discriminate|].
    destruct (path_matches [Param "username"] path) eqn:Hparam; [discriminate|].
    destruct (path_matches [Lit "suggestions"] path) eqn:Hlit; [|discriminate].
    destruct path as [|x [|y path]]; simpl in Hparam, Hlit; try discriminate.
    + rewrite andb_true_r in Hparam, Hlit.
      apply negb_false_iff, String.eqb_eq in Hparam. subst x. discriminate.
    + by rewrite andb_false_r in Hlit.
  - reflexivity.
  - intros x Hx Hme. rewrite users_router_get. unfold path_matches.
    assert (String.eqb (lower "me") (lower x) = false) as ->.
    { apply String.eqb_neq. intros Heq. by rewrite <- Heq in Hme. }
    by assert (String.eqb x "" = false) as -> by by apply String.eqb_neq.
Qed.


Lemma users_router_suggestions_shadowed_witness :
  "Alice" ≠ "" ∧ lower "Alice" ≠ "me" ∧
  dispatch users_router GET ["Alice"] = Some UsersByUsername ∧
  dispatch users_router GET ["suggestions"; "x"] ≠ Some UsersSuggestions.
Proof.
  assert ("Alice" ≠ "") as Hne by discriminate.
  assert (lower "Alice" ≠ "me") as Hme by discriminate.
  split; [exact Hne|]. split; [exact Hme|]. split.
  - exact (proj2 (proj2 (users_router_suggestions_shadowed [])) "Alice" Hne Hme).
  - exact (proj1 (users_router_suggestions_shadowed ["suggestions"; "x"])).
Defined.

(** The GET routes of routes/tweets.js, in the order Express tries them. *)
Lemma tweets_router_get (path : list string) :
  dispatch tweets_router GET path =
    if path_matches [] path then Some TweetsAll
    else if path_matches [Lit "timeline"] path then Some TweetsTimeline
    else if path_matches [Param "id"] path then Some TweetsOne
    else if path_matches [Param "id"; Lit "comments"] path then Some TweetsComments
    else if path_matches [Lit "user"; Param "userId"] path then Some TweetsByUser
    else None.
Proof.
  unfold tweets_router.
  rewrite (dispatch_skip GET POST) by discriminate.
  rewrite !dispatch_match.
  rewrite (dispatch_skip GET DELETE), !(dispatch_skip GET POST) by discriminate.
  by rewrite !dispatch_match.
Qed.

(** X2.  In routes/tweets.js the literal routes are registered so that
    parameters do not capture them: [GET /timeline] reaches the timeline
    handler and not the by-id handler, any other single non-empty segment
    is read as a tweet id, [GET /:id/comments] reaches the comment listing
    and [GET /user/:userId] the by-author listing, unless the user id is
    the word [comments], which the comment listing takes. *)
Theorem tweets_router_get_routes :
  dispatch tweets_router GET [] = Some TweetsAll ∧
  dispatch tweets_router GET ["timeline"] = Some TweetsTimeline ∧
  (∀ x, x ≠ "" → lower x ≠ "timeline" →
     dispatch tweets_router GET [x] = Some TweetsOne) ∧
  (∀ x, x ≠ "" →
     dispatch tweets_router GET [x; "comments"] = Some TweetsComments) ∧
  (∀ x, x ≠ "" → lower x ≠ "comments" →
     dispatch tweets_router GET ["user"; x] = Some TweetsByUser).
Proof.
  split; [reflexivity|]. split; [reflexivity|]. split; [|split].
  - intros x Hx Hlit. rewrite tweets_router_get. unfold path_matches.
    assert (String.eqb (lower "timeline") (lower x) = false) as ->.
    { apply String.eqb_neq. intros Heq. by rewrite <- Heq in Hlit. }
    by assert (String.eqb x "" = false) as -> by by apply String.eqb_neq.
  - intros x Hx. rewrite tweets_router_get. unfold path_matches.
    rewrite !andb_false_r.
    by assert (String.eqb x "" = false) as -> by by apply String.eqb_neq.
  - intros x Hx Hlit. rewrite tweets_router_get. unfold path_matches.
    rewrite !andb_false_r.
    assert (String.eqb (lower "comments") (lower x) = false) as ->.
    { apply String.eqb_neq. intros Heq. by rewrite <- Heq in Hlit. }
    by assert (String.eqb x "" = false) as -> by by apply String.eqb_neq.
Qed.

Lemma tweets_router_get_routes_witness :
  "64f0" ≠ "" ∧ lower "64f0" ≠ "timeline" ∧ lower "64f0" ≠ "comments" ∧
  dispatch tweets_router GET ["64f0"] = Some TweetsOne ∧
  dispatch tweets_router GET ["64f0"; "comments"] = Some TweetsComments ∧
  dispatch tweets_router GET ["user"; "64f0"] = Some TweetsByUser ∧
  dispatch tweets_router GET ["user"; "comments"] = Some TweetsComments.
Proof.
  assert ("64f0" ≠ "") as Hne by discriminate.
  assert (lower "64f0" ≠ "timeline") as Ht by discriminate.
  assert (lower "64f0" ≠ "comments") as Hc by discriminate.
  destruct tweets_router_get_routes as (_ & _ & Hone & Hcomments & Huser).
  split; [exact Hne|]. split; [exact Ht|]. split; [exact Hc|].
  split; [exact (Hone _ Hne Ht)|]. split; [exact (Hcomments _ Hne)|].
  split; [exact (Huser _ Hne Hc)|]. reflexivity.
Defined.

End Routing.

(** ** [findOne] *)

Section FindOne.

Context (P : User.t → bool) (us : gmap N User.t).

Lemma findOne_Some (i : N) (u : User.t) :
  findOne P us = Some (i, u) → us !! i = Some u ∧ P u = true.
Proof.
  unfold findOne. intros Hhead. apply head_Some_elem_of in Hhead.
  apply list_elem_of_filter in Hhead as [HP Hin].
  by apply elem_of_map_to_list in Hin.
Qed.

Lemma findOne_None :
  findOne P us = None ↔ ∀ i u, us !! i = Some u → P u = false.
Proof.
  unfold findOne. rewrite head_None. split.
  - intros Hnil i u Hi. destruct (P u) eqn:HP; [|done].
    assert ((i, u) ∈ filter (λ kv : N * User.t, P kv.2 = true) (map_to_list us))
      as Hin by (apply list_elem_of_filter; by rewrite elem_of_map_to_list).
    rewrite Hnil in Hin. by apply elem_of_nil in Hin.
  - intros Hall.
    destruct (filter _ (map_to_list us)) as [|[i u] l] eqn:Hl; [done|].
    assert ((i, u) ∈ filter (λ kv : N * User.t, P kv.2 = true) (map_to_list us))
      as Hin by (rewrite Hl; apply list_elem_of_here).
    apply list_elem_of_filter in Hin as [HP Hin]. simpl in HP.
    apply elem_of_map_to_list in Hin. rewrite (Hall i u Hin) in HP.
    discriminate.
Qed.

(** When one stored user only satisfies the query, it is the one found. *)
Lemma findOne_unique (i : N) (u : User.t) :
  us !! i = Some u → P u = true →
  (∀ j v, us !! j = Some v → P v = true → j = i) →
  findOne P us = Some (i, u).
Proof.
  intros Hi HP Huniq. destruct (findOne P us) as [[j v]|] eqn:Hfind.
  - apply findOne_Some in Hfind as [Hj HPv].
    assert (j = i) as -> by by apply (Huniq j v). congruence.
  - rewrite (proj1 findOne_None Hfind i u Hi) in HP. discriminate.
Qed.

End FindOne.

(** ** Registration and login *)

Section Auth.

Context `{JsStrings}.

Variable isEmail : string → bool.
Variable hashPassword : string → string.
Variable matchPassword : string → string → bool.
Variable generateToken : N → string.

Implicit Types (f : AuthRouter.RegisterForm) (db : Db).

Let register := AuthRouter.post_register isEmail hashPassword generateToken.
Let login := post_login isEmail matchPassword generateToken.

Lemma register_email_taken f (nid : N) db (j : N) (v : User.t) :
  AuthRouter.register_checks isEmail f = [] →
  users db !! j = Some v →
  User.email v = Validator.toString (AuthRouter.reg_email f) →
  register f nid db = (mkResponse 400 (Message "Email already exists"), db).
Proof.
  intros Hchecks Hj Hemail. unfold register, AuthRouter.post_register.
  rewrite Hchecks.
  destruct (findOne _ (users db)) as [found|] eqn:Hfind; [done|].
  pose proof (proj1 (findOne_None _ _) Hfind j v Hj) as Hno.
  simpl in Hno. rewrite Hemail, String.eqb_refl in Hno. discriminate.
Qed.

(** X3.  A well-formed registration whose e-mail address is already stored
    is answered 400 [Email already exists]; one whose e-mail address is new
    but whose username is stored is answered 400 [Username already exists].
    In both cases the database is returned as it was. *)
Theorem register_conflict f (nid : N) db (j : N) (v : User.t) :
  AuthRouter.register_checks isEmail f = [] →
  users db !! j = Some v →
  (User.email v = Validator.toString (AuthRouter.reg_email f) →
   register f nid db = (mkResponse 400 (Message "Email already exists"), db))
  ∧
  ((∀ k w, users db !! k = Some w →
      User.email w ≠ Validator.toString (AuthRouter.reg_email f)) →
   User.username v = Validator.toString (AuthRouter.reg_username f) →
   register f nid db = (mkResponse 400 (Message "Username already exists"), db)).
Proof.
  intros Hchecks Hj. split; [by apply (register_email_taken f nid db j v)|].
  unfold register, AuthRouter.post_register. rewrite Hchecks.
  - intros Hnew Huser.
    destruct (findOne _ (users db)) as [[k w]|] eqn:Hfind.
    { apply findOne_Some in Hfind as [Hk Heq]. apply String.eqb_eq in Heq.
      by destruct (Hnew k w Hk). }
    destruct (findOne (λ u, String.eqb (User.username u) _) (users db))
      as [found|] eqn:Hfind'; [done|].
    pose proof (proj1 (findOne_None _ _) Hfind' j v Hj) as Hno.
    simpl in Hno. rewrite Huser, String.eqb_refl in Hno. discriminate.
Qed.

(** A well-formed registration with a new e-mail address and a new
    username stores the user under the new identifier. *)
Lemma register_created f (nid : N) db :
  AuthRouter.register_checks isEmail f = [] →
  (∀ k w, users db !! k = Some w →
     User.email w ≠ Validator.toString (AuthRouter.reg_email f) ∧
     User.username w ≠ Validator.toString (AuthRouter.reg_username f)) →
  let user :=
    AuthRouter.new_user hashPassword
      (Validator.toString (AuthRouter.reg_name f))
      (Validator.toString (AuthRouter.reg_username f))
      (Validator.toString (AuthRouter.reg_email f))
      (Validator.toString (AuthRouter.reg_password f)) in
  register f nid db =
    (mkResponse 201 (Auth (generateToken nid) (AuthRouter.auth_user nid user)),
     set_users (<[nid := user]> (users db)) db).
Proof.
  intros Hchecks Hnew user. unfold register, AuthRouter.post_register.
  rewrite Hchecks.
  rewrite (proj2 (findOne_None _ _)); cycle 1.
  { intros k w Hk. apply String.eqb_neq. by apply (Hnew k w Hk). }
  rewrite (proj2 (findOne_None _ _)); [done|].
  intros k w Hk. apply String.eqb_neq. by apply (Hnew k w Hk).
Qed.

Lemma login_found (lf : LoginForm) db (i : N) (u : User.t) :
  login_checks isEmail lf = [] →
  findOne (λ w, String.eqb (User.email w) (Validator.toString (login_email lf)))
    (users db) = Some (i, u) →
  login lf db =
    if matchPassword (Validator.toString (login_password lf)) (User.password u)
    then mkResponse 200 (Auth (generateToken i) (AuthRouter.auth_user i u))
    else mkResponse 400 (Message "Invalid credentials").
Proof.
  intros Hchecks Hfind. unfold login, post_login. by rewrite Hchecks, Hfind.
Qed.

(** X4.  Registration followed by login.  After a well-formed registration
    with a new e-mail address and username, under a fresh identifier, and
    provided the stored hash of a password matches that password: a login
    with the same e-mail address and password answers 200 with the token
    of the new user; a login with that e-mail address and a password the
    hash does not match answers 400 [Invalid credentials]; and a second
    registration with the same e-mail address is refused. *)
Theorem register_then_login f (nid : N) db :
  AuthRouter.register_checks isEmail f = [] →
  (∀ k w, users db !! k = Some w →
     User.email w ≠ Validator.toString (AuthRouter.reg_email f) ∧
     User.username w ≠ Validator.toString (AuthRouter.reg_username f)) →
  users db !! nid = None →
  (∀ p, matchPassword p (hashPassword p) = true) →
  ∃ r db' user,
    register f nid db = (r, db') ∧ status r = 201 ∧
    users db' !! nid = Some user ∧
    login (mkLoginForm (AuthRouter.reg_email f)
             (Some (Validator.toString (AuthRouter.reg_password f)))) db' =
      mkResponse 200 (Auth (generateToken nid) (AuthRouter.auth_user nid user)) ∧
    (∀ p, matchPassword p (User.password user) = false →
       login (mkLoginForm (AuthRouter.reg_email f) (Some p)) db' =
         mkResponse 400 (Message "Invalid credentials")) ∧
    (∀ f' nid', AuthRouter.register_checks isEmail f' = [] →
       Validator.toString (AuthRouter.reg_email f') =
         Validator.toString (AuthRouter.reg_email f) →
       register f' nid' db' =
         (mkResponse 400 (Message "Email already exists"), db')).
Proof.
  intros Hchecks Hnew Hfresh Hmatch.
  pose proof (register_created f nid db Hchecks Hnew) as Hreg.
  simpl in Hreg. eexists _, _, _. split; [exact Hreg|]. split; [done|].
  set (user := AuthRouter.new_user hashPassword _ _ _ _) in *.
  set (db' := set_users (<[nid := user]> (users db)) db).
  assert (users db' !! nid = Some user) as Hnid by apply lookup_insert_eq.
  split; [exact Hnid|].
  assert (isEmail (Validator.toString (AuthRouter.reg_email f)) = true) as Hmail.
  { unfold AuthRouter.register_checks, Validator.check in Hchecks.
    destruct (isEmail _); [done|].
    by repeat (destruct (negb _); simpl in Hchecks; try discriminate). }
  assert (findOne
            (λ u, String.eqb (User.email u)
                    (Validator.toString (AuthRouter.reg_email f)))
            (users db') = Some (nid, user)) as Hfind.
  { apply findOne_unique; [done|apply String.eqb_refl|].
    intros k w Hk Heq. apply String.eqb_eq in Heq.
    destruct (decide (k = nid)) as [->|Hne]; [done|].
    simpl in Hk. rewrite lookup_insert_ne in Hk by done.
    by destruct (proj1 (Hnew k w Hk)). }
  assert (∀ p, login_checks isEmail
                 (mkLoginForm (AuthRouter.reg_email f) (Some p)) = []) as Hlc.
  { intros p. unfold login_checks, Validator.check. simpl. by rewrite Hmail. }
  split; [|split].
  - rewrite (login_found _ db' nid user (Hlc _) Hfind). simpl.
    by rewrite Hmatch.
  - intros p Hp. rewrite (login_found _ db' nid user (Hlc p) Hfind).
    change (Validator.toString (login_password (mkLoginForm _ (Some p))))
      with p.
    fold user in Hp. by rewrite Hp.
  - intros f' nid' Hchecks' Hsame.
    apply (register_email_taken f' nid' db' nid user Hchecks' Hnid).
    by rewrite Hsame.
Qed.

(** X5.  A login cannot tell an unknown e-mail address from a wrong
    password: for a well-formed request both are answered with the same
    response, 400 [Invalid credentials]. *)
Theorem login_failures_alike (lf : LoginForm) db :
  login_checks isEmail lf = [] →
  ((∀ k w, users db !! k = Some w →
      User.email w ≠ Validator.toString (login_email lf)) →
   login lf db = mkResponse 400 (Message "Invalid credentials"))
  ∧
  ((∀ k w, users db !! k = Some w →
      User.email w = Validator.toString (login_email lf) →
      matchPassword (Validator.toString (login_password lf)) (User.password w)
        = false) →
   login lf db = mkResponse 400 (Message "Invalid credentials")).
Proof.
  intros Hchecks. unfold login, post_login. rewrite Hchecks. split.
  - intros Hunknown. rewrite (proj2 (findOne_None _ _)); [done|].
    intros k w Hk. apply String.eqb_neq. by apply (Hunknown k w Hk).
  - intros Hwrong. destruct (findOne _ (users db)) as [[k w]|] eqn:Hfind; [|done].
    apply findOne_Some in Hfind as [Hk Heq]. apply String.eqb_eq in Heq.
    by rewrite (Hwrong k w Hk Heq).
Qed.

Lemma auth_user_keys (i : N) (u : User.t) :
  "password" ∉ doc_keys (AuthRouter.auth_user i u).
Proof.
  unfold AuthRouter.auth_user, doc_keys.
  rewrite list_elem_of_In, !flat_map_app, !in_app_iff.
  destruct (User.profilePicture u); simpl; intuition discriminate.
Qed.

(** X6.  No answer of the registration and login routes carries a
    [password] key, whatever the request and the stored users; a successful
    login answers with the token of a stored user whose e-mail address is
    the one entered and whose stored hash matches the password. *)
Theorem auth_answers_hide_password f (lf : LoginForm) (nid : N) db :
  ("password" ∉ body_keys (body (register f nid db).1)) ∧
  ("password" ∉ body_keys (body (login lf db))) ∧
  (∀ token doc, login lf db = mkResponse 200 (Auth token doc) →
     ∃ i u, users db !! i = Some u ∧
            token = generateToken i ∧ doc = AuthRouter.auth_user i u ∧
            User.email u = Validator.toString (login_email lf) ∧
            matchPassword (Validator.toString (login_password lf))
              (User.password u) = true).
Proof.
  split; [|split].
  - unfold register, AuthRouter.post_register.
    destruct (AuthRouter.register_checks isEmail f); [|apply not_elem_of_nil].
    destruct (findOne _ (users db)); [apply not_elem_of_nil|].
    destruct (findOne _ (users db)); [apply not_elem_of_nil|].
    apply auth_user_keys.
  - unfold login, post_login.
    destruct (login_checks isEmail lf); [|apply not_elem_of_nil].
    destruct (findOne _ (users db)) as [[i u]|]; [|apply not_elem_of_nil].
    destruct (matchPassword _ _); [|apply not_elem_of_nil].
    apply auth_user_keys.
  - intros token doc. unfold login, post_login.
    destruct (login_checks isEmail lf); [|discriminate].
    destruct (findOne _ (users db)) as [[i u]|] eqn:Hfind; [|discriminate].
    destruct (matchPassword _ _) eqn:Hm; [|discriminate].
    intros [= <- <-]. apply findOne_Some in Hfind as [Hi Heq].
    apply String.eqb_eq in Heq. by exists i, u.
Qed.

End Auth.

Section AuthInstances.

#[local] Existing Instance Utf8.strings.

(** Sample externals for the concrete instances: every string passes for
    an address, a hash is the password behind a prefix. *)
Lemma sample_users_new (email username : string) :
  map_Forall (λ _ w, User.email w ≠ email ∧ User.username w ≠ username)
    (users Sample.db) →
  ∀ k w, users Sample.db !! k = Some w →
    User.email w ≠ email ∧ User.username w ≠ username.
Proof. intros Hall k w Hk. by apply (Hall k w). Qed.

Lemma register_conflict_witness :
  let f := AuthRouter.mkRegisterForm (Some "Al") (Some "al")
             (Some "alice@example.org") (Some "secret1") in
  let g := AuthRouter.mkRegisterForm (Some "Bobby") (Some "bob")
             (Some "bobby@example.org") (Some "secret2") in
  AuthRouter.register_checks (λ _, true) f = [] ∧
  AuthRouter.register_checks (λ _, true) g = [] ∧
  AuthRouter.post_register (λ _, true) (String.append "h:") (λ _, "token") f 4
    Sample.db = (mkResponse 400 (Message "Email already exists"), Sample.db) ∧
  AuthRouter.post_register (λ _, true) (String.append "h:") (λ _, "token") g 4
    Sample.db = (mkResponse 400 (Message "Username already exists"), Sample.db).
Proof.
  intros f g.
  assert (AuthRouter.register_checks (λ _, true) f = []) as Hf by reflexivity.
  assert (AuthRouter.register_checks (λ _, true) g = []) as Hg by reflexivity.
  assert (users Sample.db !! 1%N = Some Sample.alice) as Ha by reflexivity.
  assert (users Sample.db !! 2%N = Some Sample.bob) as Hb by reflexivity.
  split; [exact Hf|]. split; [exact Hg|]. split.
  - exact (proj1 (register_conflict (λ _, true) (String.append "h:")
                    (λ _, "token") f 4 Sample.db 1 Sample.alice Hf Ha) eq_refl).
  - apply (proj2 (register_conflict (λ _, true) (String.append "h:")
                    (λ _, "token") g 4 Sample.db 2 Sample.bob Hg Hb));
      [|reflexivity].
    intros k w Hk.
    apply (sample_users_new "bobby@example.org" "" ltac:(
             apply (bool_decide_unpack _); vm_compute; reflexivity) k w Hk).
Defined.

Lemma register_then_login_witness :
  let isEmail := λ _ : string, true in
  let hashPassword := String.append "h:" in
  let matchPassword := λ p h : string, String.eqb h (String.append "h:" p) in
  let generateToken := λ _ : N, "token" in
  let f := AuthRouter.mkRegisterForm (Some "Dave") (Some "dave")
             (Some "dave@example.org") (Some "secret1") in
  AuthRouter.register_checks isEmail f = [] ∧
  users Sample.db !! 4%N = None ∧
  (∀ p, matchPassword p (hashPassword p) = true) ∧
  ∃ r db',
    AuthRouter.post_register isEmail hashPassword generateToken f 4 Sample.db
      = (r, db') ∧
    status r = 201 ∧
    status (post_login isEmail matchPassword generateToken
              (mkLoginForm (Some "dave@example.org") (Some "secret1")) db') = 200 ∧
    post_login isEmail matchPassword generateToken
      (mkLoginForm (Some "dave@example.org") (Some "other")) db' =
      mkResponse 400 (Message "Invalid credentials").
Proof.
  intros isEmail hashPassword matchPassword generateToken f.
  assert (AuthRouter.register_checks isEmail f = []) as Hf by reflexivity.
  assert (users Sample.db !! 4%N = None) as Hfresh by reflexivity.
  assert (∀ p, matchPassword p (hashPassword p) = true) as Hmatch
    by (intros p; apply String.eqb_refl).
  split; [exact Hf|]. split; [exact Hfresh|]. split; [exact Hmatch|].
  destruct (register_then_login isEmail hashPassword matchPassword generateToken
              f 4 Sample.db Hf
              (sample_users_new "dave@example.org" "dave" ltac:(
                 apply (bool_decide_unpack _); vm_compute; reflexivity))
              Hfresh Hmatch)
    as (r & db' & user & Hreg & Hstatus & Huser & Hlogin & Hwrong & _).
  exists r, db'. split; [exact Hreg|]. split; [exact Hstatus|]. split.
  - exact (f_equal status Hlogin).
  - apply (Hwrong "other"). vm_compute in Hreg. injection Hreg as <- <-.
    vm_compute in Huser. injection Huser as <-. reflexivity.
Defined.

Lemma login_failures_alike_witness :
  let isEmail := λ _ : string, true in
  let matchPassword := λ p h : string, String.eqb h (String.append "h:" p) in
  let generateToken := λ _ : N, "token" in
  let unknown := mkLoginForm (Some "nobody@example.org") (Some "secret1") in
  let wrong := mkLoginForm (Some "alice@example.org") (Some "secret1") in
  login_checks isEmail unknown = [] ∧ login_checks isEmail wrong = [] ∧
  post_login isEmail matchPassword generateToken unknown Sample.db =
    mkResponse 400 (Message "Invalid credentials") ∧
  post_login isEmail matchPassword generateToken wrong Sample.db =
    mkResponse 400 (Message "Invalid credentials").
Proof.
  intros isEmail matchPassword generateToken unknown wrong.
  assert (login_checks isEmail unknown = []) as Hu by reflexivity.
  assert (login_checks isEmail wrong = []) as Hw by reflexivity.
  split; [exact Hu|]. split; [exact Hw|]. split.
  - apply (proj1 (login_failures_alike isEmail matchPassword generateToken
                    unknown Sample.db Hu)).
    intros k w Hk.
    apply (sample_users_new "nobody@example.org" "" ltac:(
             apply (bool_decide_unpack _); vm_compute; reflexivity) k w Hk).
  - apply (proj2 (login_failures_alike isEmail matchPassword generateToken
                    wrong Sample.db Hw)).
    assert (map_Forall
              (λ _ w, User.email w = "alice@example.org" →
                      matchPassword "secret1" (User.password w) = false)
              (users Sample.db)) as Hall
      by (apply (bool_decide_unpack _); vm_compute; reflexivity).
    intros k w Hk. exact (Hall k w Hk).
Defined.

Lemma auth_answers_hide_password_witness :
  let isEmail := λ _ : string, true in
  let hashPassword := String.append "h:" in
  let matchPassword := λ p h : string, String.eqb h "$2a$10$hashA" in
  let generateToken := λ _ : N, "token" in
  let lf := mkLoginForm (Some "alice@example.org") (Some "secret1") in
  post_login isEmail matchPassword generateToken lf Sample.db =
    mkResponse 200 (Auth "token" (AuthRouter.auth_user 1 Sample.alice)) ∧
  ∃ i u, users Sample.db !! i = Some u ∧
         User.email u = "alice@example.org" ∧
         matchPassword "secret1" (User.password u) = true.
Proof.
  intros isEmail hashPassword matchPassword generateToken lf.
  assert (post_login isEmail matchPassword generateToken lf Sample.db =
            mkResponse 200 (Auth "token" (AuthRouter.auth_user 1 Sample.alice)))
    as Hlogin by (vm_compute; reflexivity).
  split; [exact Hlogin|].
  destruct (proj2 (proj2 (auth_answers_hide_password isEmail hashPassword
                            matchPassword generateToken
                            (AuthRouter.mkRegisterForm None None None None)
                            lf 4 Sample.db)) _ _ Hlogin)
    as (i & u & Hi & _ & _ & Hmail & Hm).
  by exists i, u.
Defined.

End AuthInstances.

(** ** Sorted listings *)

Section SortedListing.

Context {A : Type} (R : relation (N * A)).
Context `{!RelDecision R, !Total R, !Transitive R}.
Context (P : N * A → Prop) `{!∀ x, Decision (P x)} (m : gmap N A).

(** The documents of a collection that a query selects, in sort order. *)
Let sorted : list (N * A) := merge_sort R (filter P (map_to_list m)).

Lemma sorted_query_elem (kv : N * A) :
  kv ∈ sorted ↔ m !! kv.1 = Some kv.2 ∧ P kv.
Proof.
  unfold sorted. rewrite merge_sort_Permutation, list_elem_of_filter.
  destruct kv as [i x]. rewrite elem_of_map_to_list. simpl. tauto.
Qed.

Lemma sorted_query_NoDup : NoDup sorted.*1.
Proof.
  unfold sorted. rewrite merge_sort_Permutation. apply NoDup_fmap_fst.
  - intros i x1 x2. rewrite !list_elem_of_filter, !elem_of_map_to_list.
    intros [_ H1] [_ H2]. congruence.
  - apply NoDup_filter, NoDup_map_to_list.
Qed.

Lemma sorted_query_order : StronglySorted R sorted.
Proof. apply StronglySorted_merge_sort; apply _. Qed.

(** The first [n] of them: what [.limit(n)] keeps. *)
Lemma sorted_query_limit (n : nat) :
  (length (take n sorted) ≤ n)%nat ∧
  (∀ kv, kv ∈ take n sorted → m !! kv.1 = Some kv.2 ∧ P kv) ∧
  StronglySorted R (take n sorted) ∧
  NoDup (take n sorted).*1 ∧
  (∀ i x, m !! i = Some x → P (i, x) →
     (i, x) ∈ take n sorted ∨
     (length (take n sorted) = n ∧ ∀ kv, kv ∈ take n sorted → R kv (i, x))).
Proof.
  split. { rewrite length_take. lia. }
  split.
  { intros kv Hkv. apply sorted_query_elem.
    apply elem_of_take in Hkv as (k & Hk & _).
    by apply list_elem_of_lookup_2 in Hk. }
  split. { apply StronglySorted_take, sorted_query_order. }
  split.
  { rewrite fmap_take. apply (NoDup_app (take n sorted.*1) (drop n sorted.*1)).
    rewrite take_drop. apply sorted_query_NoDup. }
  intros i x Hi HP.
  assert ((i, x) ∈ sorted) as Hin by by apply sorted_query_elem.
  rewrite <- (take_drop n sorted) in Hin.
  apply elem_of_app in Hin as [Hin|Hin]; [by left|right]. split.
  - rewrite length_take.
    destruct (decide (n ≤ length sorted)%nat) as [|Hlt]; [lia|].
    rewrite drop_ge in Hin by lia. by apply elem_of_nil in Hin.
  - intros kv Hkv. pose proof sorted_query_order as Hs.
    rewrite <- (take_drop n sorted) in Hs.
    apply (StronglySorted_app_1_elem_of _ _ _ kv (i, x) Hs Hkv Hin).
Qed.

End SortedListing.

Section Listings.

#[local] Instance tweets_newer_first_total : Total TweetsRouter.newer_first.
Proof. intros a b. unfold TweetsRouter.newer_first. lia. Qed.

#[local] Instance tweets_newer_first_trans : Transitive TweetsRouter.newer_first.
Proof. intros a b c. unfold TweetsRouter.newer_first. lia. Qed.

#[local] Instance newer_comment_first_total : Total newer_comment_first.
Proof. intros a b. unfold newer_comment_first. lia. Qed.

#[local] Instance newer_comment_first_trans : Transitive newer_comment_first.
Proof. intros a b c. unfold newer_comment_first. lia. Qed.

Lemma filter_all {A} (l : list A) : filter (λ _, True) l = l.
Proof.
  induction l as [|x l IH]; [done|].
  rewrite filter_cons_True by done. by rewrite IH.
Qed.

Variable db : Db.

(** X7.  The global listing answers 200 with at most 20 tweets, each a
    stored tweet and none twice, in descending order of creation time; a
    stored tweet that is left out is no newer than any listed one, and
    then exactly 20 are listed. *)
Theorem get_tweets_listing :
  ∃ ts,
    get_tweets db = mkResponse 200 (Tweets ts) ∧
    (length ts ≤ 20)%nat ∧
    (∀ o, o ∈ ts → tweets db !! out_id o = Some (out_tweet o)) ∧
    StronglySorted
      (λ a b, (Tweet.createdAt (out_tweet b) ≤ Tweet.createdAt (out_tweet a))%N)
      ts ∧
    NoDup (out_id <$> ts) ∧
    (∀ i t, tweets db !! i = Some t →
       i ∈ out_id <$> ts ∨
       (length ts = 20%nat ∧
        ∀ o, o ∈ ts → (Tweet.createdAt t ≤ Tweet.createdAt (out_tweet o))%N)).
Proof.
  unfold get_tweets.
  rewrite <- (filter_all (map_to_list (tweets db))).
  destruct (sorted_query_limit TweetsRouter.newer_first (λ _, True) (tweets db) 20)
    as (Hlen & Hin & Hsorted & Hnd & Hfull).
  eexists. split; [reflexivity|].
  split. { by rewrite length_fmap. }
  split.
  { intros o Ho. apply list_elem_of_fmap in Ho as (kv & -> & Hkv).
    by apply (Hin kv). }
  split.
  { by apply (StronglySorted_fmap _ TweetsRouter.newer_first); [intros ??|]. }
  split. { by rewrite <- list_fmap_compose. }
  intros i t Hi. destruct (Hfull i t Hi I) as [Hlisted|[Hn Hold]].
  - left. rewrite <- list_fmap_compose. apply list_elem_of_fmap. by exists (i, t).
  - right. split; [by rewrite length_fmap|].
    intros o Ho. apply list_elem_of_fmap in Ho as (kv & -> & Hkv).
    by apply (Hold kv).
Qed.

(** X8.  The by-author listing answers 200 with exactly the stored tweets
    of that author, each once, in descending order of creation time; for an
    identifier that has written nothing, a stored user or not, the list is
    empty. *)
Theorem get_user_tweets_listing (userId : N) :
  ∃ ts,
    get_user_tweets userId db = mkResponse 200 (Tweets ts) ∧
    (∀ i t, (∃ o, o ∈ ts ∧ out_id o = i ∧ out_tweet o = t) ↔
            tweets db !! i = Some t ∧ Tweet.user t = userId) ∧
    StronglySorted
      (λ a b, (Tweet.createdAt (out_tweet b) ≤ Tweet.createdAt (out_tweet a))%N)
      ts ∧
    NoDup (out_id <$> ts) ∧
    ((∀ i t, tweets db !! i = Some t → Tweet.user t ≠ userId) → ts = []).
Proof.
  unfold get_user_tweets.
  set (P := λ kv : N * Tweet.t, Tweet.user kv.2 = userId).
  pose proof (sorted_query_elem TweetsRouter.newer_first P (tweets db)) as Helem.
  pose proof (sorted_query_NoDup TweetsRouter.newer_first P (tweets db)) as Hnd.
  pose proof (sorted_query_order TweetsRouter.newer_first P (tweets db)) as Hs.
  simpl in Helem, Hnd, Hs.
  eexists. split; [reflexivity|]. split; [|split; [|split]].
  - intros i t. split.
    + intros (o & Ho & <- & <-).
      apply list_elem_of_fmap in Ho as (kv & -> & Hkv). by apply Helem in Hkv.
    + intros [Hi Hu]. exists (TweetsRouter.to_out (users db) (i, t)).
      split; [|done]. apply list_elem_of_fmap_2. by apply Helem.
  - by apply (StronglySorted_fmap _ TweetsRouter.newer_first); [intros ??|].
  - by rewrite <- list_fmap_compose.
  - intros Hnone.
    destruct (merge_sort _ _) as [|[i t] l] eqn:Hl; [done|].
    destruct (proj1 (Helem (i, t)) (list_elem_of_here _ _)) as [Hi Hu].
    by destruct (Hnone i t Hi).
Qed.

Lemma get_tweet_comments_elem (id i : N) (c : Comment.t) :
  (∃ o, o ∈ get_tweet_comments id db ∧ cout_id o = i ∧ cout_comment o = c) ↔
  comments db !! i = Some c ∧ Comment.tweet c = id.
Proof.
  unfold get_tweet_comments.
  set (P := λ kv : N * Comment.t, Comment.tweet kv.2 = id).
  pose proof (sorted_query_elem newer_comment_first P (comments db)) as Helem.
  simpl in Helem. split.
  - intros (o & Ho & <- & <-).
    apply list_elem_of_fmap in Ho as (kv & -> & Hkv). by apply Helem in Hkv.
  - intros [Hi Hu]. exists (to_comment_out (users db) (i, c)).
    split; [|done]. apply list_elem_of_fmap_2. by apply Helem.
Qed.

(** X9.  The comment listing of a tweet answers with exactly the stored
    comments whose parent is that identifier, each once, in descending
    order of creation time.  The tweet is not looked up: for an identifier
    no comment refers to, a stored tweet or not, the list is empty. *)
Theorem get_tweet_comments_listing (id : N) :
  (∀ i c, (∃ o, o ∈ get_tweet_comments id db ∧
                cout_id o = i ∧ cout_comment o = c) ↔
          comments db !! i = Some c ∧ Comment.tweet c = id) ∧
  StronglySorted
    (λ a b, (Comment.createdAt (cout_comment b)
             ≤ Comment.createdAt (cout_comment a))%N)
    (get_tweet_comments id db) ∧
  NoDup (cout_id <$> get_tweet_comments id db) ∧
  ((∀ i c, comments db !! i = Some c → Comment.tweet c ≠ id) →
   get_tweet_comments id db = []).
Proof.
  unfold get_tweet_comments.
  set (P := λ kv : N * Comment.t, Comment.tweet kv.2 = id).
  pose proof (sorted_query_elem newer_comment_first P (comments db)) as Helem.
  pose proof (sorted_query_NoDup newer_comment_first P (comments db)) as Hnd.
  pose proof (sorted_query_order newer_comment_first P (comments db)) as Hs.
  simpl in Helem, Hnd, Hs.
  split; [|split; [|split]].
  - intros i c. apply get_tweet_comments_elem.
  - by apply (StronglySorted_fmap _ newer_comment_first); [intros ??|].
  - by rewrite <- list_fmap_compose.
  - intros Hnone.
    destruct (merge_sort _ _) as [|[i c] l] eqn:Hl; [done|].
    destruct (proj1 (Helem (i, c)) (list_elem_of_here _ _)) as [Hi Hu].
    by destruct (Hnone i c Hi).
Qed.

End Listings.

Lemma get_tweets_listing_witness :
  get_tweets Sample.db =
    mkResponse 200
      (Tweets [TweetsRouter.to_out (users Sample.db) (9%N, Sample.tweet9);
               TweetsRouter.to_out (users Sample.db) (8%N, Sample.tweet8);
               TweetsRouter.to_out (users Sample.db) (7%N, Sample.tweet7)]) ∧
  ∃ ts,
    get_tweets Sample.db = mkResponse 200 (Tweets ts) ∧
    (length ts ≤ 20)%nat ∧
    (∀ o, o ∈ ts → tweets Sample.db !! out_id o = Some (out_tweet o)).
Proof.
  split; [vm_compute; reflexivity|].
  destruct (get_tweets_listing Sample.db) as (ts & Hts & Hlen & Hin & _).
  exists ts. split; [exact Hts|]. split; [exact Hlen|exact Hin].
Defined.

Lemma get_user_tweets_listing_witness :
  (∀ i t, tweets Sample.db !! i = Some t → Tweet.user t ≠ 9%N) ∧
  get_user_tweets 9 Sample.db = mkResponse 200 (Tweets []) ∧
  get_user_tweets 2 Sample.db =
    mkResponse 200
      (Tweets [TweetsRouter.to_out (users Sample.db) (7%N, Sample.tweet7)]).
Proof.
  assert (∀ i t, tweets Sample.db !! i = Some t → Tweet.user t ≠ 9%N) as Hnone.
  { assert (map_Forall (λ _ t, Tweet.user t ≠ 9%N) (tweets Sample.db)) as Hall
      by (apply (bool_decide_unpack _); vm_compute; reflexivity).
    intros i t Hi. exact (Hall i t Hi). }
  split; [exact Hnone|]. split; [|vm_compute; reflexivity].
  destruct (get_user_tweets_listing Sample.db 9) as (ts & Hts & _ & _ & _ & Hempty).
  rewrite Hts. by rewrite (Hempty Hnone).
Defined.

Lemma get_tweet_comments_listing_witness :
  comments Sample.db !! 20%N = Some Sample.comment20 ∧
  Comment.tweet Sample.comment20 = 7%N ∧
  (∃ o, o ∈ get_tweet_comments 7 Sample.db ∧
        cout_id o = 20%N ∧ cout_comment o = Sample.comment20) ∧
  (∀ i c, comments Sample.db !! i = Some c → Comment.tweet c ≠ 9%N) ∧
  get_tweet_comments 9 Sample.db = [].
Proof.
  assert (comments Sample.db !! 20%N = Some Sample.comment20) as H20
    by reflexivity.
  assert (∀ i c, comments Sample.db !! i = Some c → Comment.tweet c ≠ 9%N)
    as Hnone.
  { assert (map_Forall (λ _ c, Comment.tweet c ≠ 9%N) (comments Sample.db))
      as Hall by (apply (bool_decide_unpack _); vm_compute; reflexivity).
    intros i c Hi. exact (Hall i c Hi). }
  split; [exact H20|]. split; [reflexivity|]. split; [|split; [exact Hnone|]].
  - apply (proj1 (get_tweet_comments_listing Sample.db 7)). by split.
  - by apply (proj2 (proj2 (proj2 (get_tweet_comments_listing Sample.db 9)))).
Defined.

(** ** Comments *)

Section Comments.

Context `{JsStrings}.

Lemma content_checks_ok (s : string) :
  s ≠ "" → (js_length s ≤ 280)%nat →
  TweetsRouter.comment_checks (Some s) = [] ∧
  Mongoose.required_string s = true ∧ Mongoose.maxlength 280 s = true.
Proof.
  intros Hs Hlen.
  assert (String.eqb s "" = false) as Hne by by apply String.eqb_neq.
  assert (Nat.leb (js_length s) 280 = true) as Hle by by apply Nat.leb_le.
  assert (Nat.leb (validator_length s) 280 = true) as Hle'.
  { apply Nat.leb_le. pose proof (validator_length_le s). lia. }
  unfold TweetsRouter.comment_checks, Validator.check, Validator.isEmpty,
    Validator.isLength_max, Mongoose.required_string, Mongoose.maxlength.
  simpl. by rewrite Hne, Hle, Hle'.
Qed.

(** X10.  What [POST /tweets/:id/comments] refuses.  Empty (or absent)
    content is answered 400 [Content is required], and content of more than
    280 characters in the count of [isLength] is answered 400 [Content
    cannot exceed 280 characters], whether the tweet exists or not; content
    that passes the two checks is answered 404 for a tweet that does not
    exist, and 500 for a stored tweet when it has more than 280 UTF-16 code
    units, which the schema's [maxlength] refuses.  The database is
    returned as it was each time. *)
Theorem post_comment_refusals (u id : N) (content : option string)
  (now nid : N) (db : Db) :
  (Validator.toString content = "" →
   TweetsRouter.post_comment u id content now nid db =
     (mkResponse 400 (Errors ["Content is required"]), db))
  ∧
  ((280 < validator_length (Validator.toString content))%nat →
   TweetsRouter.post_comment u id content now nid db =
     (mkResponse 400 (Errors ["Content cannot exceed 280 characters"]), db))
  ∧
  (Validator.toString content ≠ "" →
   (validator_length (Validator.toString content) ≤ 280)%nat →
   tweets db !! id = None →
   TweetsRouter.post_comment u id content now nid db =
     (mkResponse 404 (Message "Tweet not found"), db))
  ∧
  (Validator.toString content ≠ "" →
   (validator_length (Validator.toString content) ≤ 280)%nat →
   (280 < js_length (Validator.toString content))%nat →
   is_Some (tweets db !! id) →
   TweetsRouter.post_comment u id content now nid db = (server_error, db)).
Proof.
  unfold TweetsRouter.post_comment, TweetsRouter.comment_checks,
    Validator.check, Validator.isEmpty, Validator.isLength_max.
  split; [|split; [|split]].
  - intros ->. rewrite validator_length_empty. reflexivity.
  - intros Hlen.
    assert (String.eqb (Validator.toString content) "" = false) as ->.
    { apply String.eqb_neq. intros Heq.
      rewrite Heq, validator_length_empty in Hlen. lia. }
    by rewrite (proj2 (Nat.leb_gt _ _) Hlen).
  - intros Hs Hlen Hid.
    rewrite (proj2 (String.eqb_neq _ _) Hs), (proj2 (Nat.leb_le _ _) Hlen).
    simpl. by rewrite Hid.
  - intros Hs Hlen Hlong [t Ht].
    rewrite (proj2 (String.eqb_neq _ _) Hs), (proj2 (Nat.leb_le _ _) Hlen).
    simpl. rewrite Ht. unfold Comment.validate, Mongoose.maxlength. simpl.
    rewrite (proj2 (Nat.leb_gt _ _) Hlong). by rewrite andb_false_r.
Qed.

(** A comment with acceptable content on a stored tweet. *)
Lemma post_comment_found (u id : N) (s : string) (now nid : N) (db : Db)
  (t : Tweet.t) :
  s ≠ "" → (js_length s ≤ 280)%nat →
  tweets db !! id = Some t →
  TweetsRouter.post_comment u id (Some s) now nid db =
    (mkResponse 200
       (OneComment nid (Comment.mk u id s [] now now 0)
          (populate_author (users db) TweetsRouter.user_paths u)),
     mkDb (users db)
       (<[id := Tweet.save_array_change now
                  (Tweet.set_comments (Mongoose.push nid (Tweet.comments t)) t)]>
          (tweets db))
       (<[nid := Comment.mk u id s [] now now 0]> (comments db))).
Proof.
  intros Hs Hlen Ht.
  destruct (content_checks_ok s Hs Hlen) as (Hchecks & Hreq & Hmax).
  unfold TweetsRouter.post_comment. rewrite Hchecks, Ht.
  unfold Comment.validate. simpl. by rewrite Hreq, Hmax.
Qed.

(** X11.  A comment that is not empty and has at most 280 UTF-16 code
    units, on a stored tweet, is answered 200; it is stored under the new
    identifier with the caller as author, the tweet as parent, no like and
    version key 0; the identifier is appended at the end of the tweet's
    [comments], and of the tweet's other fields the save changes
    [updatedAt], which becomes the current time, and the version key, which
    is incremented; the listing of the tweet's comments then shows the
    comment.  The other tweets, the other comments and the users are
    unchanged. *)
Theorem post_comment_stores (u id : N) (s : string) (now nid : N) (db : Db)
  (t : Tweet.t) :
  s ≠ "" → (js_length s ≤ 280)%nat →
  tweets db !! id = Some t →
  ∃ r c t' db',
    TweetsRouter.post_comment u id (Some s) now nid db = (r, db') ∧
    status r = 200 ∧
    comments db' !! nid = Some c ∧
    Comment.user c = u ∧ Comment.tweet c = id ∧ Comment.content c = s ∧
    Comment.likes c = [] ∧ Comment.version c = 0%N ∧
    tweets db' !! id = Some t' ∧
    Tweet.comments t' = Tweet.comments t ++ [nid] ∧
    Tweet.set_comments (Tweet.comments t) t' = Tweet.save_array_change now t ∧
    Tweet.updatedAt t' = now ∧
    Tweet.version t' = (Tweet.version t + 1)%N ∧
    (∃ o, o ∈ get_tweet_comments id db' ∧ cout_id o = nid ∧ cout_comment o = c) ∧
    (∀ j, j ≠ id → tweets db' !! j = tweets db !! j) ∧
    (∀ j, j ≠ nid → comments db' !! j = comments db !! j) ∧
    users db' = users db.
Proof.
  intros Hs Hlen Ht. eexists _, (Comment.mk u id s [] now now 0), _, _.
  split; [by apply post_comment_found|]. simpl.
  split; [done|]. split; [apply lookup_insert_eq|].
  do 5 (split; [done|]). split; [apply lookup_insert_eq|].
  split; [done|]. split; [by destruct t|]. split; [done|]. split; [done|].
  split.
  { apply get_tweet_comments_elem. simpl. by rewrite lookup_insert_eq. }
  split; [intros j Hj; by rewrite lookup_insert_ne|].
  split; [intros j Hj; by rewrite lookup_insert_ne|done].
Qed.

(** X12.  When the caller is the author of a stored comment, the delete
    answers 200; the comment is gone, its identifier is removed from the
    [comments] of its parent tweet, whose other entries keep their order,
    and nothing is wrong if the parent tweet is not stored.  The other
    comments, the other tweets and the users are unchanged. *)
Theorem delete_comment_by_author (u id : N) (now : N) (db : Db) (c : Comment.t) :
  comments db !! id = Some c →
  Comment.user c = u →
  ∃ db',
    CommentsRouter.delete_comment u id now db =
      (mkResponse 200 (Message "Comment removed"), db') ∧
    comments db' !! id = None ∧
    (∀ j, j ≠ id → comments db' !! j = comments db !! j) ∧
    (∀ t, tweets db !! Comment.tweet c = Some t →
       ∃ t', tweets db' !! Comment.tweet c = Some t' ∧
             Tweet.comments t' = filter (λ x, x ≠ id) (Tweet.comments t) ∧
             Tweet.set_comments (Tweet.comments t) t' = Tweet.touch now t) ∧
    (tweets db !! Comment.tweet c = None → tweets db' = tweets db) ∧
    (∀ j, j ≠ Comment.tweet c → tweets db' !! j = tweets db !! j) ∧
    users db' = users db.
Proof.
  intros Hc Hu. eexists. split.
  { unfold CommentsRouter.delete_comment. rewrite Hc, Hu, N.eqb_refl.
    reflexivity. }
  simpl. split; [apply lookup_delete_eq|].
  split; [intros j Hj; by rewrite lookup_delete_ne|].
  split.
  { intros t Ht. exists (CommentsRouter.pull_comment id now t).
    split; [by rewrite lookup_alter_eq, Ht|]. split; [done|by destruct t]. }
  split.
  { intros Hnone. apply map_eq. intros j.
    destruct (decide (j = Comment.tweet c)) as [->|Hj].
    - by rewrite lookup_alter_eq, Hnone.
    - by rewrite lookup_alter_ne. }
  split; [intros j Hj; by rewrite lookup_alter_ne|done].
Qed.

(** X13.  Posting a comment and then deleting it, by the same caller,
    gives back the comments as they were and the tweet with its [comments]
    as they were, provided the new identifier was not in use in the
    collection or in the tweet's list.  Two fields of the tweet keep a
    trace of the two writes: [updatedAt] is the time of the delete, and the
    version key is one higher, for the save that pushed the comment (the
    pull, an update through the query layer, leaves it). *)
Theorem post_then_delete_comment (u id : N) (s : string) (now now' nid : N)
  (db : Db) (t : Tweet.t) :
  s ≠ "" → (js_length s ≤ 280)%nat →
  tweets db !! id = Some t →
  comments db !! nid = None →
  nid ∉ Tweet.comments t →
  ∃ r db1 db2 t2,
    TweetsRouter.post_comment u id (Some s) now nid db = (r, db1) ∧
    CommentsRouter.delete_comment u nid now' db1 =
      (mkResponse 200 (Message "Comment removed"), db2) ∧
    comments db2 = comments db ∧
    tweets db2 = <[id := t2]> (tweets db) ∧
    t2 = Tweet.touch now' (Tweet.save_array_change now t) ∧
    Tweet.comments t2 = Tweet.comments t ∧
    Tweet.updatedAt t2 = now' ∧
    Tweet.version t2 = (Tweet.version t + 1)%N ∧
    users db2 = users db.
Proof.
  intros Hs Hlen Ht Hfresh Hnew.
  eexists _, _, _, (Tweet.touch now' (Tweet.save_array_change now t)).
  split; [by apply post_comment_found|].
  unfold CommentsRouter.delete_comment. simpl.
  rewrite lookup_insert_eq. simpl. rewrite N.eqb_refl. simpl.
  split; [reflexivity|]. split; [by apply delete_insert_id|].
  split; [|done]. rewrite alter_insert_eq. f_equal.
  unfold CommentsRouter.pull_comment. destruct t. simpl in *.
  unfold Tweet.touch, Tweet.save_array_change, Tweet.set_comments. simpl.
  by rewrite pull_push_absent.
Qed.

End Comments.

Section CommentInstances.

#[local] Existing Instance Utf8.strings.

(** X10 at concrete requests on the sample database: empty content, 281
    letters, and content for a tweet that is not stored; and 141 characters
    outside the Basic Multilingual Plane, which [isLength] counts as 141
    and the schema as 282. *)
Lemma post_comment_refusals_witness :
  tweets Sample.db !! 99%N = None ∧
  validator_length Sample.too_long = 281%nat ∧
  validator_length Sample.long_text = 141%nat ∧
  js_length Sample.long_text = 282%nat ∧
  TweetsRouter.post_comment 1 99 (Some "") 500 30 Sample.db =
    (mkResponse 400 (Errors ["Content is required"]), Sample.db) ∧
  TweetsRouter.post_comment 1 7 (Some Sample.too_long) 500 30 Sample.db =
    (mkResponse 400 (Errors ["Content cannot exceed 280 characters"]),
     Sample.db) ∧
  TweetsRouter.post_comment 1 99 (Some "hi") 500 30 Sample.db =
    (mkResponse 404 (Message "Tweet not found"), Sample.db) ∧
  TweetsRouter.post_comment 1 7 (Some Sample.long_text) 500 30 Sample.db =
    (server_error, Sample.db).
Proof.
  assert (tweets Sample.db !! 99%N = None) as Hid by reflexivity.
  split; [exact Hid|]. split; [reflexivity|]. split; [reflexivity|].
  split; [reflexivity|]. split.
  - exact (proj1 (post_comment_refusals 1 99 (Some "") 500 30 Sample.db)
             eq_refl).
  - split.
    { apply (proj1 (proj2 (post_comment_refusals 1 7 (Some Sample.too_long)
                             500 30 Sample.db))). vm_compute. lia. }
    split.
    + apply (proj1 (proj2 (proj2 (post_comment_refusals 1 99 (Some "hi") 500 30
                                   Sample.db))));
        [discriminate|vm_compute; lia|exact Hid].
    + apply (proj2 (proj2 (proj2 (post_comment_refusals 1 7
                                   (Some Sample.long_text) 500 30 Sample.db))));
        [discriminate|vm_compute; lia|vm_compute; lia|by eexists].
Defined.

(** X11 at a concrete request: Alice comments on tweet 7, which already
    lists comment 20. *)
Lemma post_comment_stores_witness :
  tweets Sample.db !! 7%N = Some Sample.tweet7 ∧
  Tweet.comments Sample.tweet7 = [20%N] ∧
  ∃ r db',
    TweetsRouter.post_comment 1 7 (Some "hello") 500 30 Sample.db = (r, db') ∧
    status r = 200 ∧
    Tweet.comments <$> tweets db' !! 7%N = Some [20%N; 30%N] ∧
    Tweet.version <$> tweets db' !! 7%N = Some 4%N ∧
    Comment.content <$> comments db' !! 30%N = Some "hello".
Proof.
  assert (tweets Sample.db !! 7%N = Some Sample.tweet7) as Ht by reflexivity.
  split; [exact Ht|]. split; [reflexivity|].
  destruct (post_comment_stores 1 7 "hello" 500 30 Sample.db Sample.tweet7)
    as (r & c & t' & db' & Hpost & Hstatus & Hc & _ & _ & Hcontent & _ & _ & Ht'
        & Hlist & _ & _ & Hv & _); [discriminate|vm_compute; lia|exact Ht|].
  exists r, db'. split; [exact Hpost|]. split; [exact Hstatus|]. split.
  - rewrite Ht'. simpl. by rewrite Hlist.
  - split.
    + rewrite Ht'. simpl. by rewrite Hv.
    + rewrite Hc. simpl. by rewrite Hcontent.
Defined.

Lemma delete_comment_by_author_witness :
  comments Sample.db !! 20%N = Some Sample.comment20 ∧
  Comment.user Sample.comment20 = 1%N ∧
  ∃ db',
    CommentsRouter.delete_comment 1 20 600 Sample.db =
      (mkResponse 200 (Message "Comment removed"), db') ∧
    comments db' !! 20%N = None ∧
    comments db' !! 21%N = Some Sample.comment21 ∧
    Tweet.comments <$> tweets db' !! 7%N = Some [].
Proof.
  assert (comments Sample.db !! 20%N = Some Sample.comment20) as Hc
    by reflexivity.
  split; [exact Hc|]. split; [reflexivity|].
  destruct (delete_comment_by_author 1 20 600 Sample.db Sample.comment20 Hc
              eq_refl) as (db' & Hdel & Hgone & Hothers & Hparent & _).
  exists db'. split; [exact Hdel|]. split; [exact Hgone|]. split.
  - rewrite Hothers by discriminate. reflexivity.
  - destruct (Hparent Sample.tweet7 eq_refl) as (t' & Ht' & Hlist & _).
    change (Comment.tweet Sample.comment20) with 7%N in Ht'.
    rewrite Ht'. simpl. by rewrite Hlist.
Defined.

(** X13 at a concrete pair of requests: Alice comments on tweet 7 at time
    500 and deletes the comment at time 600. *)
Lemma post_then_delete_comment_witness :
  tweets Sample.db !! 7%N = Some Sample.tweet7 ∧
  comments Sample.db !! 30%N = None ∧
  (30%N ∉ Tweet.comments Sample.tweet7) ∧
  ∃ r db1 db2 t2,
    TweetsRouter.post_comment 1 7 (Some "hello") 500 30 Sample.db = (r, db1) ∧
    CommentsRouter.delete_comment 1 30 600 db1 =
      (mkResponse 200 (Message "Comment removed"), db2) ∧
    comments db2 = comments Sample.db ∧
    tweets db2 = <[7%N := t2]> (tweets Sample.db) ∧
    Tweet.comments t2 = [20%N] ∧
    Tweet.updatedAt t2 = 600%N ∧
    Tweet.version t2 = 4%N.
Proof.
  assert (tweets Sample.db !! 7%N = Some Sample.tweet7) as Ht by reflexivity.
  assert (comments Sample.db !! 30%N = None) as Hfresh by reflexivity.
  assert (30%N ∉ Tweet.comments Sample.tweet7) as Hnew.
  { intros Hin. apply list_elem_of_singleton in Hin. discriminate. }
  split; [exact Ht|]. split; [exact Hfresh|]. split; [exact Hnew|].
  destruct (post_then_delete_comment 1 7 "hello" 500 600 30 Sample.db
              Sample.tweet7)
    as (r & db1 & db2 & t2 & H1 & H2 & Hc & Htw & -> & _);
    [discriminate|vm_compute; lia|exact Ht|exact Hfresh|exact Hnew|].
  exists r, db1, db2,
    (Tweet.touch 600 (Tweet.save_array_change 500 Sample.tweet7)).
  split; [exact H1|]. split; [exact H2|].
  split; [exact Hc|]. split; [exact Htw|]. by split.
Defined.

End CommentInstances.

(** ** The writes of the routes *)

Section Effects.

Context `{JsStrings}.

Lemma step_effect : ∀ db db', step db db' → effect db db'.
Proof.
  intros ? ? [isEmail hashPassword generateToken f nid db Hfresh
             |u f db Hu |bson u id db Hu |u content file now nid db Hu Hfresh
             |u id db Hu |u id now db Hu |u id content now nid db Hu Hfresh
             |u id now db Hu |u id now db Hu].
  - unfold AuthRouter.post_register.
    destruct (AuthRouter.register_checks isEmail f); [|constructor].
    destruct (findOne _ (users db)) eqn:Hemail; [constructor|].
    destruct (findOne (λ u, String.eqb (User.username u) _) (users db))
      eqn:Hname; [constructor|].
    simpl. apply effect_new_user; [done|]. intros k w Hk. split.
    + apply String.eqb_neq. apply (proj1 (findOne_None _ _) Hemail k w Hk).
    + apply String.eqb_neq. apply (proj1 (findOne_None _ _) Hname k w Hk).
  - apply effect_profile.
  - destruct (post_follow_outcome bson db u id) as [b Hout].
    by apply (effect_follow db u b).
  - unfold TweetsRouter.post_tweet.
    destruct (TweetsRouter.post_checks content file); [|constructor].
    destruct (Tweet.validate _) eqn:Hvalid; [|constructor].
    by apply effect_new_tweet.
  - unfold TweetsRouter.delete_tweet.
    destruct (tweets db !! id) as [t|] eqn:Ht; [|constructor].
    destruct (negb _); [constructor|]. by apply (effect_delete_tweet db id t).
  - unfold TweetsRouter.post_like.
    destruct (tweets db !! id) as [t|] eqn:Ht; [|constructor].
    by apply effect_like_tweet.
  - unfold TweetsRouter.post_comment.
    destruct (TweetsRouter.comment_checks content); [|constructor].
    destruct (tweets db !! id) as [t|] eqn:Ht; [|constructor].
    destruct (Comment.validate _) eqn:Hvalid; [|constructor].
    by apply effect_new_comment.
  - unfold CommentsRouter.post_like.
    destruct (comments db !! id) as [c|] eqn:Hc; [|constructor].
    by apply effect_like_comment.
  - unfold CommentsRouter.delete_comment.
    destruct (comments db !! id) as [c|] eqn:Hc; [|constructor].
    destruct (negb _); [constructor|]. by apply (effect_delete_comment db id now c).
Qed.

End Effects.

(** ** Invariants of the reachable databases *)

Section Invariants.

Context `{JsStrings}.

Implicit Types (db : Db) (us : gmap N User.t).

(** A follow request writes to the users only. *)
Lemma follow_outcome_frame db a b db' :
  follow_outcome db a b db' →
  tweets db' = tweets db ∧ comments db' = comments db.
Proof. by intros [|Ha Hb|Ha Hb]. Qed.

(** What a follow request leaves of a user record: the handles. *)
Lemma follow_outcome_user db a b db' c uc' :
  follow_outcome db a b db' →
  users db' !! c = Some uc' →
  ∃ uc, users db !! c = Some uc ∧
        User.email uc' = User.email uc ∧
        User.username uc' = User.username uc.
Proof.
  intros [|Ha Hb|Ha Hb] Hc.
  - by exists uc'.
  - destruct (pushed_user _ a b c uc' Hc) as (uc & Huc & He & Hn & _).
    by exists uc.
  - destruct (pulled_user _ a b c uc' Hc) as (uc & Huc & He & Hn & _).
    by exists uc.
Qed.

(** What any write leaves of a user record: the record was stored with the
    same handles, or it is a new user whose handles nobody had. *)
Lemma effect_user db db' c uc' :
  effect db db' →
  users db' !! c = Some uc' →
  (∃ uc, users db !! c = Some uc ∧
         User.email uc' = User.email uc ∧
         User.username uc' = User.username uc)
  ∨
  (users db !! c = None ∧
   ∀ k w, users db !! k = Some w →
     User.email w ≠ User.email uc' ∧ User.username w ≠ User.username uc').
Proof.
  assert (∀ uc, users db !! c = Some uc →
            ∃ uc0, users db !! c = Some uc0 ∧
              User.email uc = User.email uc0 ∧
              User.username uc = User.username uc0)
    as Hsame by (intros uc Hc; by exists uc).
  intros [|hashPassword nid name username email password Hfresh Hnew
          |u fields|a b db'' Hout|nid t _ _ _ _|id t _|u id now t _
          |u id s now nid t _ _ _|u id now c0 _|id now c0 _] Hc;
    try (left; by apply Hsame).
  - simpl in Hc. destruct (decide (c = nid)) as [->|Hne].
    + rewrite lookup_insert_eq in Hc. injection Hc as <-. right. by simpl.
    + rewrite lookup_insert_ne in Hc by done. left. by apply Hsame.
  - simpl in Hc. destruct (decide (c = u)) as [->|Hne].
    + rewrite lookup_alter_eq in Hc.
      destruct (users db !! u) as [uc|] eqn:Hu; [|done].
      injection Hc as <-. left. by exists uc.
    + rewrite lookup_alter_ne in Hc by done. left. by apply Hsame.
  - left. by apply (follow_outcome_user db a b db'').
Qed.

(** Rewriting one record without touching its edge sets. *)
Lemma alter_keeps_edges (f : User.t → User.t) (u : N) us :
  (∀ x, User.following (f x) = User.following x) →
  (∀ x, User.followers (f x) = User.followers x) →
  edges_symmetric us ∧ edges_closed us →
  edges_symmetric (alter f u us) ∧ edges_closed (alter f u us).
Proof.
  intros Hing Hers [Hsym Hclosed].
  assert (∀ c uc', alter f u us !! c = Some uc' →
            ∃ uc, us !! c = Some uc ∧
                  User.following uc' = User.following uc ∧
                  User.followers uc' = User.followers uc) as Hback.
  { intros c uc'. destruct (decide (c = u)) as [->|Hcu].
    - rewrite lookup_alter_eq. destruct (us !! u) as [uc|]; [|done].
      simpl. intros [= <-]. exists uc. by rewrite Hing, Hers.
    - rewrite lookup_alter_ne by done. intros Hc. by exists uc'. }
  split.
  - intros x y ux' uy' Hx Hy.
    destruct (Hback x ux' Hx) as (ux & Hx0 & -> & _).
    destruct (Hback y uy' Hy) as (uy & Hy0 & _ & ->).
    by apply (Hsym x y).
  - intros x ux' Hx c Hc. destruct (Hback x ux' Hx) as (ux & Hx0 & Hi & He).
    rewrite Hi, He in Hc. pose proof (Hclosed x ux Hx0 c Hc) as Hsome.
    destruct (decide (c = u)) as [->|Hcu].
    + rewrite lookup_alter_eq. by apply fmap_is_Some.
    + by rewrite lookup_alter_ne.
Qed.

(** Storing a new user that has no edge. *)
Lemma insert_keeps_edges (nid : N) (u : User.t) us :
  us !! nid = None →
  User.following u = [] → User.followers u = [] →
  edges_symmetric us ∧ edges_closed us →
  edges_symmetric (<[nid := u]> us) ∧ edges_closed (<[nid := u]> us).
Proof.
  intros Hfresh Hing Hers [Hsym Hclosed].
  assert (∀ x ux, us !! x = Some ux →
            (nid ∉ User.following ux) ∧ (nid ∉ User.followers ux)) as Habsent.
  { intros x ux Hx. split; intros Hin.
    - destruct (Hclosed x ux Hx nid (or_introl Hin)) as [? Hsome]. congruence.
    - destruct (Hclosed x ux Hx nid (or_intror Hin)) as [? Hsome]. congruence. }
  split.
  - intros x y ux uy Hx Hy.
    destruct (decide (x = nid)) as [->|Hxn];
      destruct (decide (y = nid)) as [->|Hyn].
    + rewrite lookup_insert_eq in Hx. injection Hx as <-.
      rewrite lookup_insert_eq in Hy. injection Hy as <-.
      rewrite Hing, Hers. done.
    + rewrite lookup_insert_eq in Hx. injection Hx as <-.
      rewrite lookup_insert_ne in Hy by done.
      rewrite Hing, elem_of_nil. split; [done|].
      intros Hin. by apply (proj2 (Habsent y uy Hy)).
    + rewrite lookup_insert_eq in Hy. injection Hy as <-.
      rewrite lookup_insert_ne in Hx by done.
      rewrite Hers, elem_of_nil. split; [|done].
      intros Hin. by apply (proj1 (Habsent x ux Hx)).
    + rewrite lookup_insert_ne in Hx, Hy by done. by apply (Hsym x y).
  - intros x ux Hx c Hc. destruct (decide (x = nid)) as [->|Hxn].
    + rewrite lookup_insert_eq in Hx. injection Hx as <-.
      rewrite Hing, Hers, elem_of_nil in Hc. tauto.
    + rewrite lookup_insert_ne in Hx by done.
      pose proof (Hclosed x ux Hx c Hc) as Hsome.
      destruct (decide (c = nid)) as [->|Hcn]; [by rewrite lookup_insert_eq|].
      by rewrite lookup_insert_ne.
Qed.

(** Every write keeps the edges symmetric and among stored users. *)
Lemma effect_edges db db' :
  effect db db' →
  edges_symmetric (users db) ∧ edges_closed (users db) →
  edges_symmetric (users db') ∧ edges_closed (users db').
Proof.
  intros [|hashPassword nid name username email password Hfresh Hnew
          |u fields|a b db'' Hout|nid t _ _ _ _|id t _|u id now t _
          |u id s now nid t _ _ _|u id now c0 _|id now c0 _] Hinv;
    try done.
  - simpl. by apply insert_keeps_edges.
  - simpl. by apply alter_keeps_edges.
  - by apply (follow_outcome_edges db a b db'').
Qed.

Lemma effect_unique_handles db db' :
  effect db db' → unique_handles (users db) → unique_handles (users db').
Proof.
  intros Heff Hinv i j ui uj Hi Hj Hclash.
  destruct (effect_user db db' i ui Heff Hi)
    as [(ui0 & Hi0 & Hei & Hni)|(Hinew & Hfree_i)];
    destruct (effect_user db db' j uj Heff Hj)
      as [(uj0 & Hj0 & Hej & Hnj)|(Hjnew & Hfree_j)].
  - apply (Hinv i j ui0 uj0 Hi0 Hj0). rewrite <- Hei, <- Hej, <- Hni, <- Hnj.
    exact Hclash.
  - destruct (Hfree_j i ui0 Hi0) as [He Hn].
    rewrite <- Hei in He. rewrite <- Hni in Hn. tauto.
  - destruct (Hfree_i j uj0 Hj0) as [He Hn].
    rewrite <- Hej in He. rewrite <- Hnj in Hn.
    destruct Hclash as [Hc|Hc]; [by destruct He|by destruct Hn].
  - (* two new users: only one identifier is new *)
    destruct (decide (i = j)) as [|Hne]; [done|]. exfalso.
    destruct Heff as
      [|hashPassword nid name username email password Hfresh Hnew
       |u fields|a b db'' Hout|nid t _ _ _ _|id t _|u id now t _
       |u id s now nid t _ _ _|u id now c0 _|id now c0 _];
      simpl in *; try congruence.
    + destruct (decide (i = nid)) as [->|Hin].
      * rewrite lookup_insert_ne in Hj by done. congruence.
      * rewrite lookup_insert_ne in Hi by done. congruence.
    + destruct (decide (i = u)) as [->|Hiu].
      * rewrite lookup_alter_eq, Hinew in Hi. done.
      * rewrite lookup_alter_ne in Hi by done. congruence.
    + destruct (follow_outcome_user db a b db'' i ui Hout Hi) as (? & ? & _).
      congruence.
Qed.


Lemma validate_content_ok (s : string) :
  Mongoose.required_string s && Mongoose.maxlength 280 s = true → content_ok s.
Proof.
  unfold Mongoose.required_string, Mongoose.maxlength, content_ok.
  intros [Hreq Hmax]%andb_prop. split.
  - apply String.eqb_neq. by apply negb_true_iff.
  - by apply Nat.leb_le.
Qed.

Lemma effect_stored_content_ok db db' :
  effect db db' → stored_content_ok db → stored_content_ok db'.
Proof.
  intros Heff [Htw Hcm].
  destruct Heff as
    [|hashPassword nid name username email password Hfresh Hnew
     |u fields|a b db'' Hout|nid t _ Hvalid _ _|id t _|u id now t Hid
     |u id s now nid t Hid _ Hvalid|u id now c0 Hid|id now c0 Hid];
    try done.
  - destruct (follow_outcome_frame db a b db'' Hout) as [Ht Hc].
    split; [rewrite Ht|rewrite Hc]; done.
  - split; [|done]. simpl. intros i t' Hi.
    destruct (decide (i = nid)) as [->|Hne].
    + rewrite lookup_insert_eq in Hi. injection Hi as <-.
      by apply validate_content_ok.
    + rewrite lookup_insert_ne in Hi by done. by apply (Htw i).
  - split; simpl.
    + intros i t' Hi. apply lookup_delete_Some in Hi as [_ Hi]. by apply (Htw i).
    + intros i c Hi. rewrite deleteMany_comments_lookup in Hi.
      destruct (comments db !! i) as [c'|] eqn:Hc'; [|done].
      destruct (decide _); [done|]. injection Hi as <-. by apply (Hcm i).
  - split; [|done]. simpl. intros i t' Hi.
    destruct (decide (i = id)) as [->|Hne].
    + rewrite lookup_insert_eq in Hi. injection Hi as <-. exact (Htw id t Hid).
    + rewrite lookup_insert_ne in Hi by done. by apply (Htw i).
  - split; simpl.
    + intros i t' Hi. destruct (decide (i = id)) as [->|Hne].
      * rewrite lookup_insert_eq in Hi. injection Hi as <-. exact (Htw id t Hid).
      * rewrite lookup_insert_ne in Hi by done. by apply (Htw i).
    + intros i c Hi. destruct (decide (i = nid)) as [->|Hne].
      * rewrite lookup_insert_eq in Hi. injection Hi as <-.
        by apply validate_content_ok.
      * rewrite lookup_insert_ne in Hi by done. by apply (Hcm i).
  - split; [done|]. simpl. intros i c Hi.
    destruct (decide (i = id)) as [->|Hne].
    + rewrite lookup_insert_eq in Hi. injection Hi as <-. exact (Hcm id c0 Hid).
    + rewrite lookup_insert_ne in Hi by done. by apply (Hcm i).
  - split; simpl.
    + intros i t' Hi. destruct (decide (i = Comment.tweet c0)) as [->|Hne].
      * rewrite lookup_alter_eq in Hi.
        destruct (tweets db !! Comment.tweet c0) as [t|] eqn:Ht; [|done].
        injection Hi as <-. exact (Htw _ t Ht).
      * rewrite lookup_alter_ne in Hi by done. by apply (Htw i).
    + intros i c Hi. apply lookup_delete_Some in Hi as [_ Hi]. by apply (Hcm i).
Qed.

Lemma effect_likes_nodup db db' :
  effect db db' → likes_nodup db → likes_nodup db'.
Proof.
  intros Heff [Htw Hcm].
  destruct Heff as
    [|hashPassword nid name username email password Hfresh Hnew
     |u fields|a b db'' Hout|nid t _ _ Hlikes _|id t _|u id now t Hid
     |u id s now nid t Hid _ _|u id now c0 Hid|id now c0 Hid];
    try done.
  - destruct (follow_outcome_frame db a b db'' Hout) as [Ht Hc].
    split; [rewrite Ht|rewrite Hc]; done.
  - split; [|done]. simpl. intros i t' Hi.
    destruct (decide (i = nid)) as [->|Hne].
    + rewrite lookup_insert_eq in Hi. injection Hi as <-.
      rewrite Hlikes. apply NoDup_nil_2.
    + rewrite lookup_insert_ne in Hi by done. by apply (Htw i).
  - split; simpl.
    + intros i t' Hi. apply lookup_delete_Some in Hi as [_ Hi]. by apply (Htw i).
    + intros i c Hi. rewrite deleteMany_comments_lookup in Hi.
      destruct (comments db !! i) as [c'|] eqn:Hc'; [|done].
      destruct (decide _); [done|]. injection Hi as <-. by apply (Hcm i).
  - split; [|done]. simpl. intros i t' Hi.
    destruct (decide (i = id)) as [->|Hne].
    + rewrite lookup_insert_eq in Hi. injection Hi as <-. simpl.
      apply toggle_like_NoDup. exact (Htw id t Hid).
    + rewrite lookup_insert_ne in Hi by done. by apply (Htw i).
  - split; simpl.
    + intros i t' Hi. destruct (decide (i = id)) as [->|Hne].
      * rewrite lookup_insert_eq in Hi. injection Hi as <-. exact (Htw id t Hid).
      * rewrite lookup_insert_ne in Hi by done. by apply (Htw i).
    + intros i c Hi. destruct (decide (i = nid)) as [->|Hne].
      * rewrite lookup_insert_eq in Hi. injection Hi as <-. apply NoDup_nil_2.
      * rewrite lookup_insert_ne in Hi by done. by apply (Hcm i).
  - split; [done|]. simpl. intros i c Hi.
    destruct (decide (i = id)) as [->|Hne].
    + rewrite lookup_insert_eq in Hi. injection Hi as <-. simpl.
      apply toggle_like_NoDup. exact (Hcm id c0 Hid).
    + rewrite lookup_insert_ne in Hi by done. by apply (Hcm i).
  - split; simpl.
    + intros i t' Hi. destruct (decide (i = Comment.tweet c0)) as [->|Hne].
      * rewrite lookup_alter_eq in Hi.
        destruct (tweets db !! Comment.tweet c0) as [t|] eqn:Ht; [|done].
        injection Hi as <-. exact (Htw _ t Ht).
      * rewrite lookup_alter_ne in Hi by done. by apply (Htw i).
    + intros i c Hi. apply lookup_delete_Some in Hi as [_ Hi]. by apply (Hcm i).
Qed.


Lemma effect_thread_links db db' :
  effect db db' → thread_links db → thread_links db'.
Proof.
  intros Heff (HA & HB & HC).
  destruct Heff as
    [|hashPassword nid name username email password Hfresh Hnew
     |u fields|a b db'' Hout|nid t Hfresh _ _ Hempty|id t Hid
     |u id now t Hid|u id s now nid t Hid Hfresh _|u id now c0 Hid
     |id now c0 Hid].
  - done.
  - exact (conj HA (conj HB HC)).
  - exact (conj HA (conj HB HC)).
  - destruct (follow_outcome_frame db a b db'' Hout) as [Ht Hc].
    unfold thread_links. rewrite Ht, Hc. done.
  - (* a new tweet *)
    split; [|split]; simpl.
    + intros cid c Hcid. destruct (HA cid c Hcid) as (t0 & Ht0 & Hin).
      exists t0. split; [|done]. rewrite lookup_insert_ne; [done|congruence].
    + intros tid t0 cid Htid Hin. destruct (decide (tid = nid)) as [->|Hne].
      * rewrite lookup_insert_eq in Htid. injection Htid as <-.
        rewrite Hempty in Hin. by apply elem_of_nil in Hin.
      * rewrite lookup_insert_ne in Htid by done. by apply (HB tid t0).
    + intros tid t0 Htid. destruct (decide (tid = nid)) as [->|Hne].
      * rewrite lookup_insert_eq in Htid. injection Htid as <-.
        rewrite Hempty. apply NoDup_nil_2.
      * rewrite lookup_insert_ne in Htid by done. by apply (HC tid).
  - (* a tweet deleted with its comments *)
    split; [|split]; simpl.
    + intros cid c Hcid. rewrite deleteMany_comments_lookup in Hcid.
      destruct (comments db !! cid) as [c'|] eqn:Hc'; [|done].
      destruct (decide (Comment.tweet c' = id)) as [|Hne]; [done|].
      injection Hcid as <-. destruct (HA cid c' Hc') as (t0 & Ht0 & Hin).
      exists t0. split; [|done]. by rewrite lookup_delete_ne.
    + intros tid t0 cid Htid Hin. apply lookup_delete_Some in Htid as [Hne Htid].
      destruct (HB tid t0 cid Htid Hin) as (c & Hc & Hparent).
      exists c. split; [|done]. rewrite deleteMany_comments_lookup, Hc.
      rewrite decide_False; [done|congruence].
    + intros tid t0 Htid. apply lookup_delete_Some in Htid as [_ Htid].
      by apply (HC tid).
  - (* a like on a tweet *)
    split; [|split]; simpl.
    + intros cid c Hcid. destruct (HA cid c Hcid) as (t0 & Ht0 & Hin).
      destruct (decide (Comment.tweet c = id)) as [Heq|Hne].
      * rewrite Heq in *. rewrite lookup_insert_eq. eexists. split; [done|].
        simpl. congruence.
      * exists t0. by rewrite lookup_insert_ne.
    + intros tid t0 cid Htid Hin. destruct (decide (tid = id)) as [->|Hne].
      * rewrite lookup_insert_eq in Htid. injection Htid as <-.
        by apply (HB id t).
      * rewrite lookup_insert_ne in Htid by done. by apply (HB tid t0).
    + intros tid t0 Htid. destruct (decide (tid = id)) as [->|Hne].
      * rewrite lookup_insert_eq in Htid. injection Htid as <-.
        exact (HC id t Hid).
      * rewrite lookup_insert_ne in Htid by done. by apply (HC tid).
  - (* a new comment *)
    assert (nid ∉ Tweet.comments t) as Hnew.
    { intros Hin. destruct (HB id t nid Hid Hin) as (c & Hc & _). congruence. }
    split; [|split]; simpl.
    + intros cid c Hcid. destruct (decide (cid = nid)) as [->|Hne].
      * rewrite lookup_insert_eq in Hcid. injection Hcid as <-. simpl.
        rewrite lookup_insert_eq. eexists. split; [done|].
        simpl. rewrite push_elem_of. by right.
      * rewrite lookup_insert_ne in Hcid by done.
        destruct (HA cid c Hcid) as (t0 & Ht0 & Hin).
        destruct (decide (Comment.tweet c = id)) as [Heq|Hne'].
        -- rewrite Heq in *. rewrite lookup_insert_eq. eexists. split; [done|].
           simpl. rewrite push_elem_of. left. congruence.
        -- exists t0. by rewrite lookup_insert_ne.
    + intros tid t0 cid Htid Hin. destruct (decide (tid = id)) as [->|Hne].
      * rewrite lookup_insert_eq in Htid. injection Htid as <-.
        simpl in Hin. apply push_elem_of in Hin as [Hin| ->].
        -- destruct (HB id t cid Hid Hin) as (c & Hc & Hparent).
           exists c. split; [|done]. rewrite lookup_insert_ne; [done|congruence].
        -- rewrite lookup_insert_eq. by eexists.
      * rewrite lookup_insert_ne in Htid by done.
        destruct (HB tid t0 cid Htid Hin) as (c & Hc & Hparent).
        exists c. split; [|done]. rewrite lookup_insert_ne; [done|congruence].
    + intros tid t0 Htid. destruct (decide (tid = id)) as [->|Hne].
      * rewrite lookup_insert_eq in Htid. injection Htid as <-. simpl.
        apply push_NoDup; [done|]. exact (HC id t Hid).
      * rewrite lookup_insert_ne in Htid by done. by apply (HC tid).
  - (* a like on a comment *)
    split; [|split]; simpl.
    + intros cid c Hcid. destruct (decide (cid = id)) as [->|Hne].
      * rewrite lookup_insert_eq in Hcid. injection Hcid as <-. simpl.
        exact (HA id c0 Hid).
      * rewrite lookup_insert_ne in Hcid by done. by apply (HA cid).
    + intros tid t0 cid Htid Hin.
      destruct (HB tid t0 cid Htid Hin) as (c & Hc & Hparent).
      destruct (decide (cid = id)) as [->|Hne].
      * rewrite lookup_insert_eq. eexists. split; [done|]. simpl. congruence.
      * exists c. by rewrite lookup_insert_ne.
    + exact HC.
  - (* a comment deleted *)
    split; [|split]; simpl.
    + intros cid c Hcid. apply lookup_delete_Some in Hcid as [Hne Hcid].
      destruct (HA cid c Hcid) as (t0 & Ht0 & Hin).
      destruct (decide (Comment.tweet c = Comment.tweet c0)) as [Heq|Hne'].
      * rewrite Heq in *. rewrite lookup_alter_eq, Ht0. eexists. split; [done|].
        simpl. rewrite pull_elem_of. split; [congruence|done].
      * exists t0. by rewrite lookup_alter_ne.
    + intros tid t' cid Htid Hin.
      destruct (decide (tid = Comment.tweet c0)) as [->|Hne].
      * rewrite lookup_alter_eq in Htid.
        destruct (tweets db !! Comment.tweet c0) as [t0|] eqn:Ht0; [|done].
        injection Htid as <-. simpl in Hin.
        apply pull_elem_of in Hin as [Hne Hin].
        destruct (HB _ t0 cid Ht0 Hin) as (c & Hc & Hparent).
        exists c. by rewrite lookup_delete_ne.
      * rewrite lookup_alter_ne in Htid by done.
        destruct (HB tid t' cid Htid Hin) as (c & Hc & Hparent).
        exists c. split; [|done]. rewrite lookup_delete_ne; [done|].
        intros ->. congruence.
    + intros tid t' Htid.
      destruct (decide (tid = Comment.tweet c0)) as [->|Hne].
      * rewrite lookup_alter_eq in Htid.
        destruct (tweets db !! Comment.tweet c0) as [t0|] eqn:Ht0; [|done].
        injection Htid as <-. simpl. apply pull_NoDup. exact (HC _ t0 Ht0).
      * rewrite lookup_alter_ne in Htid by done. by apply (HC tid).
Qed.

(** Every database the server can reach is well formed. *)
Lemma reachable_well_formed db : reachable db → well_formed db.
Proof.
  induction 1 as [|db db' Hr IH Hstep].
  - repeat split; simpl; intros; by rewrite ?lookup_empty in *.
  - destruct IH as (Hsym & Hclosed & Huniq & Hlinks & Hcontent & Hlikes).
    pose proof (step_effect db db' Hstep) as Heff.
    destruct (effect_edges db db' Heff (conj Hsym Hclosed)) as [Hsym' Hclosed'].
    split; [done|]. split; [done|].
    split; [by apply (effect_unique_handles db)|].
    split; [by apply (effect_thread_links db)|].
    split; [by apply (effect_stored_content_ok db)|].
    by apply (effect_likes_nodup db).
Qed.

End Invariants.

(** ** Invariants, one by one *)

Section ReachableInvariants.

Context `{JsStrings}.

(** X14.  In every database the server can reach, the links between tweets
    and comments agree: the parent of a stored comment is a stored tweet
    whose [comments] list it, a tweet's [comments] name only stored
    comments of that tweet, and none twice. *)
Theorem reachable_thread_links (db : Db) : reachable db → thread_links db.
Proof. intros Hr. apply (reachable_well_formed db Hr). Qed.

(** X15.  In every database the server can reach, no tweet and no comment
    has the same user twice in its [likes]. *)
Theorem reachable_likes_nodup (db : Db) : reachable db → likes_nodup db.
Proof. intros Hr. apply (reachable_well_formed db Hr). Qed.

(** X16.  In every database the server can reach, the content of every
    stored tweet and of every stored comment is not empty and has at most
    280 UTF-16 code units, the measure of the schemas' [maxlength]: no
    tweet is stored with empty content, with or without an image. *)
Theorem reachable_content_ok (db : Db) : reachable db → stored_content_ok db.
Proof. intros Hr. apply (reachable_well_formed db Hr). Qed.

(** X17.  In every database the server can reach, no two users share an
    e-mail address or a username. *)
Theorem reachable_unique_handles (db : Db) :
  reachable db → unique_handles (users db).
Proof. intros Hr. apply (reachable_well_formed db Hr). Qed.

(** X18.  In every database the server can reach, the follow edges are
    symmetric ([b] is in the [following] of [a] exactly when [a] is in the
    [followers] of [b]) and every identifier in a [following] or
    [followers] array is that of a stored user. *)
Theorem reachable_edges_sound (db : Db) :
  reachable db → edges_symmetric (users db) ∧ edges_closed (users db).
Proof.
  intros Hr.
  destruct (reachable_well_formed db Hr) as (Hsym & Hclosed & _).
  by split.
Qed.

End ReachableInvariants.

(** ** The sample run *)

Section SampleRun.

#[local] Existing Instance Utf8.strings.

Lemma demo_reachable : reachable Demo.db6.
Proof.
  assert (∀ db u, (∃ x, users db !! u = Some x) → is_Some (users db !! u))
    as Hsome by (intros db u [x Hx]; by exists x).
  apply (reachable_step Demo.db5); [|apply step_like_tweet, Hsome; by eexists].
  apply (reachable_step Demo.db4);
    [|apply step_post_comment; [apply Hsome; by eexists|reflexivity]].
  apply (reachable_step Demo.db3);
    [|apply step_post_tweet; [apply Hsome; by eexists|reflexivity]].
  apply (reachable_step Demo.db2); [|apply step_follow, Hsome; by eexists].
  apply (reachable_step Demo.db1); [|apply step_register; reflexivity].
  apply (reachable_step Demo.db0); [|apply step_register; reflexivity].
  apply reachable_empty.
Defined.

Lemma reachable_thread_links_witness :
  reachable Demo.db6 ∧ thread_links Demo.db6 ∧
  Tweet.comments <$> tweets Demo.db6 !! 7%N = Some [20%N] ∧
  Comment.tweet <$> comments Demo.db6 !! 20%N = Some 7%N.
Proof.
  split; [exact demo_reachable|].
  split; [exact (reachable_thread_links Demo.db6 demo_reachable)|].
  split; reflexivity.
Defined.

Lemma reachable_likes_nodup_witness :
  reachable Demo.db6 ∧ likes_nodup Demo.db6 ∧
  Tweet.likes <$> tweets Demo.db6 !! 7%N = Some [1%N].
Proof.
  split; [exact demo_reachable|].
  split; [exact (reachable_likes_nodup Demo.db6 demo_reachable)|reflexivity].
Defined.

Lemma reachable_content_ok_witness :
  reachable Demo.db6 ∧ stored_content_ok Demo.db6 ∧
  Tweet.content <$> tweets Demo.db6 !! 7%N = Some "hello world" ∧
  Comment.content <$> comments Demo.db6 !! 20%N = Some "welcome".
Proof.
  split; [exact demo_reachable|].
  split; [exact (reachable_content_ok Demo.db6 demo_reachable)|].
  split; reflexivity.
Defined.

Lemma reachable_unique_handles_witness :
  reachable Demo.db6 ∧ unique_handles (users Demo.db6) ∧
  User.username <$> users Demo.db6 !! 1%N = Some "ann" ∧
  User.username <$> users Demo.db6 !! 2%N = Some "ben".
Proof.
  split; [exact demo_reachable|].
  split; [exact (reachable_unique_handles Demo.db6 demo_reachable)|].
  split; reflexivity.
Defined.

Lemma reachable_edges_sound_witness :
  reachable Demo.db6 ∧
  edges_symmetric (users Demo.db6) ∧ edges_closed (users Demo.db6) ∧
  User.following <$> users Demo.db6 !! 1%N = Some [2%N] ∧
  User.followers <$> users Demo.db6 !! 2%N = Some [1%N].
Proof.
  split; [exact demo_reachable|].
  destruct (reachable_edges_sound Demo.db6 demo_reachable) as [Hsym Hclosed].
  split; [exact Hsym|]. split; [exact Hclosed|]. split; reflexivity.
Defined.

End SampleRun.

(** ** Consequences of the invariants *)

Section Consequences.

Variable db : Db.

Lemma unique_handles_usernames (us : gmap N User.t) :
  unique_handles us → unique_usernames us.
Proof. intros Huniq i j ui uj Hi Hj Heq. apply (Huniq i j ui uj Hi Hj). by right. Qed.

(** X19.  When no two stored users share a username, fetching by username
    answers 200 with the view of exactly the stored user of that name. *)
Theorem get_by_username_finds (i : N) (u : User.t) :
  unique_usernames (users db) →
  users db !! i = Some u →
  UsersRouter.get_by_username (User.username u) db =
    mkResponse 200 (UserDoc (Some (UsersRouter.user_view (users db) i u))).
Proof.
  intros Huniq Hi. unfold UsersRouter.get_by_username.
  rewrite (findOne_unique _ (users db) i u Hi); [done|apply String.eqb_refl|].
  intros j v Hj Heq. apply String.eqb_eq in Heq.
  by apply (Huniq j i v u Hj Hi).
Qed.

(** X20.  When the links between tweets and comments agree, the comment
    listing of a stored tweet shows exactly the comments named in the
    tweet's [comments] array, and as many. *)
Theorem comments_listing_matches_array (id : N) (t : Tweet.t) :
  thread_links db →
  tweets db !! id = Some t →
  (∀ cid, cid ∈ cout_id <$> get_tweet_comments id db ↔ cid ∈ Tweet.comments t) ∧
  length (get_tweet_comments id db) = length (Tweet.comments t).
Proof.
  intros (HA & HB & HC) Ht.
  assert (∀ cid, cid ∈ cout_id <$> get_tweet_comments id db ↔
                 cid ∈ Tweet.comments t) as Hsame.
  { intros cid. rewrite list_elem_of_fmap. split.
    - intros (o & -> & Ho).
      assert (comments db !! cout_id o = Some (cout_comment o) ∧
              Comment.tweet (cout_comment o) = id) as [Hc Hp]
        by (apply get_tweet_comments_elem; by exists o).
      destruct (HA _ _ Hc) as (t0 & Ht0 & Hin). rewrite Hp in Ht0. congruence.
    - intros Hin. destruct (HB id t cid Ht Hin) as (c & Hc & Hp).
      destruct (proj2 (get_tweet_comments_elem db id cid c) (conj Hc Hp))
        as (o & Ho & <- & _).
      by exists o. }
  split; [exact Hsame|].
  rewrite <- (length_fmap cout_id). apply Permutation_length.
  apply NoDup_Permutation; [|by apply (HC id)|exact Hsame].
  unfold get_tweet_comments. rewrite <- list_fmap_compose.
  apply (sorted_query_NoDup newer_comment_first
           (λ kv : N * Comment.t, Comment.tweet kv.2 = id) (comments db)).
Qed.

End Consequences.

Section ConsequenceInstances.

#[local] Existing Instance Utf8.strings.

(** X19 at a concrete request: the sample database has two users of the
    same e-mail address and different usernames, which the hypothesis
    allows. *)
Lemma get_by_username_finds_witness :
  unique_usernames (users Sample.db_twins) ∧
  ¬ unique_handles (users Sample.db_twins) ∧
  users Sample.db_twins !! 2%N = Some Sample.bob ∧
  status (UsersRouter.get_by_username "bob" Sample.db_twins) = 200.
Proof.
  assert (unique_usernames (users Sample.db_twins)) as Huniq.
  { intros i j ui uj Hi Hj Heq.
    assert (map_Forall
              (λ i ui, map_Forall
                         (λ j uj, User.username ui = User.username uj → i = j)
                         (users Sample.db_twins))
              (users Sample.db_twins)) as Hall
      by (apply (bool_decide_unpack _); vm_compute; reflexivity).
    exact (Hall i ui Hi j uj Hj Heq). }
  split; [exact Huniq|]. split.
  { intros Hh.
    assert (2%N = 5%N) as Heq; [|discriminate].
    apply (Hh 2%N 5%N Sample.bob Sample.bob_again); [reflexivity..|].
    by left. }
  split; [reflexivity|].
  exact (f_equal status
           (get_by_username_finds Sample.db_twins 2 Sample.bob Huniq eq_refl)).
Defined.

Lemma comments_listing_matches_array_witness :
  thread_links Demo.db6 ∧
  (∃ t, tweets Demo.db6 !! 7%N = Some t ∧ Tweet.comments t = [20%N] ∧
        length (get_tweet_comments 7 Demo.db6) = length (Tweet.comments t)) ∧
  cout_id <$> get_tweet_comments 7 Demo.db6 = [20%N].
Proof.
  assert (thread_links Demo.db6) as Hlinks
    by apply (reachable_well_formed Demo.db6 demo_reachable).
  split; [exact Hlinks|]. split; [|vm_compute; reflexivity].
  eexists. split; [reflexivity|]. split; [reflexivity|].
  exact (proj2 (comments_listing_matches_array Demo.db6 7 _ Hlinks eq_refl)).
Defined.

End ConsequenceInstances.

(** ** Follow requests that are refused, and one that is not *)

(** X21.  A follow request whose identifier is the string of the caller's
    own ObjectId is answered 400 [You cannot follow yourself], before any
    lookup and so whether or not that user is stored.  Another identifier
    is answered 500 when it is not the spelling of an ObjectId, and 404
    when it is one that names no stored user; the database is returned as
    it was each time.  The guard compares strings: with another spelling of
    the caller's own ObjectId the request is not refused, and a stored
    caller is pushed on its own [following] and [followers]. *)
Theorem follow_refusals (bson : Bson) (db : Db) (a : N) (id : string) :
  UsersRouter.post_follow bson a (toHexString a) db =
    (mkResponse 400 (Message "You cannot follow yourself"), db) ∧
  (id ≠ toHexString a → castObjectId bson id = None →
   UsersRouter.post_follow bson a id db = (server_error, db)) ∧
  (∀ b, id ≠ toHexString a → castObjectId bson id = Some b →
        users db !! b = None →
        UsersRouter.post_follow bson a id db =
          (mkResponse 404 (Message "User not found"), db)) ∧
  (∀ ua, id ≠ toHexString a → castObjectId bson id = Some a →
         users db !! a = Some ua →
         ∃ db' ua',
           UsersRouter.post_follow bson a id db =
             (mkResponse 200 (Message "User followed"), db') ∧
           users db' !! a = Some ua' ∧
           User.following ua' = User.following ua ++ [a] ∧
           User.followers ua' = User.followers ua ++ [a]).
Proof.
  split; [|split; [|split]].
  - unfold UsersRouter.post_follow. by rewrite String.eqb_refl.
  - intros Hne Hcast. unfold UsersRouter.post_follow.
    by rewrite (proj2 (String.eqb_neq _ _) Hne), Hcast.
  - intros b Hne Hcast Hb. unfold UsersRouter.post_follow.
    by rewrite (proj2 (String.eqb_neq _ _) Hne), Hcast, Hb.
  - intros ua Hne Hcast Ha.
    exists (set_users
              (alter (UsersRouter.push_followers a) a
                 (alter (UsersRouter.push_following a) a (users db))) db),
      (UsersRouter.push_followers a (UsersRouter.push_following a ua)).
    split.
    { apply (follow_new bson db a a id ua ua Hne Hcast Ha Ha).
      by apply (includes_string_other bson id a). }
    split; [|done]. simpl. by rewrite !lookup_alter_eq, Ha.
Qed.

(** X21 at concrete requests by Kim, whose ObjectId is 10: her own
    identifier, a string that is no ObjectId, the identifier of nobody, and
    her own identifier with its last digit in upper case. *)
Lemma follow_refusals_witness :
  toHexString 10 = "00000000000000000000000a" ∧
  castObjectId HexOnly "kim" = None ∧
  castObjectId HexOnly "000000000000000000000009" = Some 9%N ∧
  users Sample.db10 !! 9%N = None ∧
  castObjectId HexOnly "00000000000000000000000A" = Some 10%N ∧
  users Sample.db10 !! 10%N = Some Sample.kim ∧
  UsersRouter.post_follow HexOnly 10 "00000000000000000000000a" Sample.db10 =
    (mkResponse 400 (Message "You cannot follow yourself"), Sample.db10) ∧
  UsersRouter.post_follow HexOnly 10 "kim" Sample.db10 = (server_error, Sample.db10) ∧
  UsersRouter.post_follow HexOnly 10 "000000000000000000000009" Sample.db10 =
    (mkResponse 404 (Message "User not found"), Sample.db10) ∧
  ∃ db',
    UsersRouter.post_follow HexOnly 10 "00000000000000000000000A" Sample.db10 =
      (mkResponse 200 (Message "User followed"), db') ∧
    User.following <$> users db' !! 10%N = Some [10%N] ∧
    User.followers <$> users db' !! 10%N = Some [10%N] ∧
    ¬ no_self_edge (users db').
Proof.
  assert (castObjectId HexOnly "kim" = None) as Hkim by reflexivity.
  assert (castObjectId HexOnly "000000000000000000000009" = Some 9%N) as H9
    by reflexivity.
  assert (users Sample.db10 !! 9%N = None) as Hnone by reflexivity.
  assert (castObjectId HexOnly "00000000000000000000000A" = Some 10%N) as HA
    by reflexivity.
  assert (users Sample.db10 !! 10%N = Some Sample.kim) as Hk by reflexivity.
  split; [reflexivity|]. split; [exact Hkim|]. split; [exact H9|].
  split; [exact Hnone|]. split; [exact HA|]. split; [exact Hk|]. split.
  { exact (proj1 (follow_refusals HexOnly Sample.db10 10 "")). }
  split.
  { apply (proj1 (proj2 (follow_refusals HexOnly Sample.db10 10 "kim")));
      [discriminate|exact Hkim]. }
  split.
  { apply (proj1 (proj2 (proj2 (follow_refusals HexOnly Sample.db10 10
                                  "000000000000000000000009"))) 9%N);
      [discriminate|exact H9|exact Hnone]. }
  destruct (proj2 (proj2 (proj2 (follow_refusals HexOnly Sample.db10 10
                                   "00000000000000000000000A")))
              Sample.kim) as (db' & ua' & Hpost & Hua' & Hing & Hers);
    [discriminate|exact HA|exact Hk|].
  exists db'. split; [exact Hpost|].
  split; [rewrite Hua'; simpl; by rewrite Hing|].
  split; [rewrite Hua'; simpl; by rewrite Hers|].
  intros Hself. destruct (Hself 10%N ua' Hua') as [Hn _].
  apply Hn. rewrite Hing. apply list_elem_of_here.
Defined.

(** ** Suggestions *)

Section Suggestions.

Variables (db : Db) (me : N) (cu : User.t).

(** X22.  For a stored caller the suggestions handler answers with at most
    5 user documents, each the projection ([_id], [name], [username],
    [profilePicture]) of a different stored user who is not the caller and
    is not in the caller's [following]; no document has a [password] key;
    and when fewer than 5 are sent, every such user is among them. *)
Theorem suggestions_listing :
  users db !! me = Some cu →
  ∃ picked : list (N * User.t),
    get_suggestions me db =
      Array ((λ kv, select_include UsersRouter.ref_paths
                      (user_toObject kv.1 kv.2)) <$> picked) ∧
    (length picked ≤ 5)%nat ∧
    NoDup picked.*1 ∧
    (∀ i u, (i, u) ∈ picked →
       users db !! i = Some u ∧ i ≠ me ∧ (i ∉ User.following cu) ∧
       ("password" ∉ doc_keys (select_include UsersRouter.ref_paths
                                 (user_toObject i u)))) ∧
    (∀ i u, users db !! i = Some u → i ≠ me → i ∉ User.following cu →
       (i, u) ∈ picked ∨ length picked = 5%nat).
Proof.
  intros Hme.
  set (l := filter (suggestion_query me cu) (map_to_list (users db))).
  assert (∀ i u, (i, u) ∈ l ↔
            users db !! i = Some u ∧ i ≠ me ∧ i ∉ User.following cu) as Hl.
  { intros i u. unfold l. rewrite list_elem_of_filter, elem_of_map_to_list.
    unfold suggestion_query. simpl. tauto. }
  exists (take 5 l). split.
  { unfold get_suggestions. by rewrite Hme. }
  split. { rewrite length_take. lia. }
  split.
  { rewrite fmap_take. apply (NoDup_app (take 5 l.*1) (drop 5 l.*1)).
    rewrite take_drop. unfold l. apply NoDup_fmap_fst.
    - intros i x1 x2. rewrite !list_elem_of_filter, !elem_of_map_to_list.
      intros [_ H1] [_ H2]. congruence.
    - apply NoDup_filter, NoDup_map_to_list. }
  split.
  { intros i u Hin.
    assert ((i, u) ∈ l) as Hin'.
    { apply elem_of_take in Hin as (k & Hk & _).
      by apply list_elem_of_lookup_2 in Hk. }
    apply Hl in Hin' as (Hi & Hne & Hnf). do 3 (split; [done|]).
    rewrite select_ref_paths, list_elem_of_In. unfold doc_keys.
    rewrite flat_map_app, in_app_iff.
    destruct (User.profilePicture u); simpl; intuition discriminate. }
  intros i u Hi Hne Hnf.
  assert ((i, u) ∈ l) as Hin by by apply Hl.
  rewrite <- (take_drop 5 l) in Hin.
  apply elem_of_app in Hin as [Hin|Hin]; [by left|right].
  rewrite length_take.
  destruct (decide (5 ≤ length l)%nat) as [|Hlt]; [lia|].
  rewrite drop_ge in Hin by lia. by apply elem_of_nil in Hin.
Qed.

End Suggestions.

Lemma suggestions_listing_witness :
  users Demo.db6 !! 1%N =
    Some (User.mk "Ann" "ann" "ann@example.org" "h:secret1" None None "" "" ""
            false [] [2%N]) ∧
  get_suggestions 1 Demo.db6 = Array [] ∧
  get_suggestions 2 Demo.db6 =
    Array [[("_id", VId 1); ("name", VStr "Ann"); ("username", VStr "ann")]] ∧
  ∃ picked : list (N * User.t),
    get_suggestions 1 Demo.db6 =
      Array ((λ kv, select_include UsersRouter.ref_paths
                      (user_toObject kv.1 kv.2)) <$> picked) ∧
    (length picked ≤ 5)%nat.
Proof.
  split; [reflexivity|]. split; [vm_compute; reflexivity|].
  split; [vm_compute; reflexivity|].
  destruct (suggestions_listing Demo.db6 1 _ eq_refl)
    as (picked & Hget & Hlen & _).
  by exists picked.
Defined.

(** ** Creating and fetching a tweet *)

(** X23.  With the first validation chain read as the route intends (see
    [post_checks]): a tweet whose content is not empty and has at most 280
    UTF-16 code units is created, with or without an image: the answer is
    201, and fetching the new identifier then answers 200 with the tweet,
    whose author is the caller and which has no like, no comment and
    version key 0.  Content of more than 280 characters in the count of
    [isLength] is answered 400 [Content cannot exceed 280 characters];
    content that passes this check and has more than 280 UTF-16 code units
    is refused by the schema and answered 500.  Nothing is stored in these
    two cases, with or without an image. *)
Theorem post_tweet_then_fetch `{JsStrings} (u : N) (s : string)
  (file : option string) (now nid : N) (db : Db) :
  (s ≠ "" → (js_length s ≤ 280)%nat →
   ∃ r db' t,
     TweetsRouter.post_tweet u (Some s) file now nid db = (r, db') ∧
     status r = 201 ∧
     get_tweet nid db' =
       mkResponse 200 (OneTweet (TweetsRouter.to_out (users db) (nid, t))) ∧
     Tweet.user t = u ∧ Tweet.content t = s ∧ Tweet.image t = file ∧
     Tweet.likes t = [] ∧ Tweet.comments t = [] ∧
     Tweet.createdAt t = now ∧ Tweet.version t = 0%N ∧
     (∀ j, j ≠ nid → tweets db' !! j = tweets db !! j) ∧
     users db' = users db ∧ comments db' = comments db)
  ∧
  ((280 < validator_length s)%nat →
   TweetsRouter.post_tweet u (Some s) file now nid db =
     (mkResponse 400 (Errors ["Content cannot exceed 280 characters"]), db))
  ∧
  (s ≠ "" → (validator_length s ≤ 280)%nat → (280 < js_length s)%nat →
   TweetsRouter.post_tweet u (Some s) file now nid db = (server_error, db)).
Proof.
  split; [|split].
  - intros Hs Hlen.
    destruct (post_tweet_with_content u s file now nid db Hs Hlen)
      as (out & Hpost & Hcontent & Himage).
    eexists _, _, (TweetsRouter.new_tweet u (Some s) file now).
    split; [exact Hpost|]. split; [done|]. split.
    { unfold get_tweet. simpl. by rewrite lookup_insert_eq. }
    do 7 (split; [done|]). split; [|done].
    intros j Hj. simpl. by rewrite lookup_insert_ne.
  - intros Hlen. unfold TweetsRouter.post_tweet, TweetsRouter.post_checks,
      Validator.check, Validator.isEmpty, Validator.isLength_max.
    change (Validator.toString (Some s)) with s.
    assert (String.eqb s "" = false) as ->.
    { apply String.eqb_neq. intros ->.
      rewrite validator_length_empty in Hlen. lia. }
    by rewrite (proj2 (Nat.leb_gt _ _) Hlen).
  - intros Hs Hlen Hlong.
    assert (String.eqb s "" = false) as Hne by by apply String.eqb_neq.
    unfold TweetsRouter.post_tweet, TweetsRouter.post_checks,
      Validator.check, Validator.isEmpty, Validator.isLength_max.
    change (Validator.toString (Some s)) with s.
    rewrite Hne, (proj2 (Nat.leb_le _ _) Hlen). simpl.
    assert (Tweet.content (TweetsRouter.new_tweet u (Some s) file now) = s) as Hc.
    { unfold TweetsRouter.new_tweet, truthy. simpl. by rewrite Hne. }
    unfold Tweet.validate, Mongoose.maxlength. rewrite Hc.
    rewrite (proj2 (Nat.leb_gt _ _) Hlong). by rewrite andb_false_r.
Qed.

Section TweetInstances.

#[local] Existing Instance Utf8.strings.

(** X23 at concrete requests: a short text with an image, 281 letters, and
    the 141 characters that are 282 UTF-16 code units. *)
Lemma post_tweet_then_fetch_witness :
  ("hi" ≠ "") ∧ (js_length "hi" ≤ 280)%nat ∧
  (Sample.long_text ≠ "") ∧
  (validator_length Sample.long_text ≤ 280)%nat ∧
  (280 < js_length Sample.long_text)%nat ∧
  (280 < validator_length Sample.too_long)%nat ∧
  (∃ r db',
     TweetsRouter.post_tweet 1 (Some "hi") (Some "p.png") 700 10 Sample.db
       = (r, db') ∧
     status r = 201 ∧ status (get_tweet 10 db') = 200) ∧
  TweetsRouter.post_tweet 1 (Some Sample.too_long) None 700 10 Sample.db =
    (mkResponse 400 (Errors ["Content cannot exceed 280 characters"]),
     Sample.db) ∧
  TweetsRouter.post_tweet 1 (Some Sample.long_text) None 700 10 Sample.db =
    (server_error, Sample.db).
Proof.
  assert ("hi" ≠ "") as Hs by discriminate.
  assert (js_length "hi" ≤ 280)%nat as Hlen by (vm_compute; lia).
  assert (Sample.long_text ≠ "") as Hs' by discriminate.
  assert (validator_length Sample.long_text ≤ 280)%nat as Hlen'
    by (vm_compute; lia).
  assert (280 < js_length Sample.long_text)%nat as Hlong by (vm_compute; lia).
  assert (280 < validator_length Sample.too_long)%nat as Hover
    by (vm_compute; lia).
  split; [exact Hs|]. split; [exact Hlen|]. split; [exact Hs'|].
  split; [exact Hlen'|]. split; [exact Hlong|]. split; [exact Hover|]. split.
  - destruct (proj1 (post_tweet_then_fetch 1 "hi" (Some "p.png") 700 10
                       Sample.db) Hs Hlen)
      as (r & db' & t & Hpost & Hstatus & Hget & _).
    exists r, db'. split; [exact Hpost|]. split; [exact Hstatus|].
    by rewrite Hget.
  - split.
    + exact (proj1 (proj2 (post_tweet_then_fetch 1 Sample.too_long None 700 10
                             Sample.db)) Hover).
    + exact (proj2 (proj2 (post_tweet_then_fetch 1 Sample.long_text None 700 10
                             Sample.db)) Hs' Hlen' Hlong).
Defined.

End TweetInstances.

(** ** The profile update *)

Lemma apply_set_idemp (fields : UsersRouter.UserFields) (u : User.t) :
  UsersRouter.apply_set fields (UsersRouter.apply_set fields u) =
  UsersRouter.apply_set fields u.
Proof.
  destruct fields as [[?|] [?|] [?|] [?|] [?|] [?|]]; reflexivity.
Qed.

Lemma select_exclude_password_keys (i : N) (u : User.t) :
  "password" ∉ doc_keys (select_exclude "password" (user_toObject i u)).
Proof.
  rewrite list_elem_of_In. unfold doc_keys.
  destruct u as [? ? ? ? [?|] [?|] ? ? ? ? ? ?]; simpl; intuition discriminate.
Qed.

(** X24.  The answer of a profile update never has a [password] key, and
    the update is idempotent: sending the same form again gives the same
    answer and leaves the database as the first request left it. *)
Theorem put_profile_idempotent (u : N) (f : UsersRouter.ProfileForm) (db : Db) :
  ("password" ∉ body_keys (body (UsersRouter.put_profile u f db).1)) ∧
  UsersRouter.put_profile u f (UsersRouter.put_profile u f db).2 =
    UsersRouter.put_profile u f db.
Proof.
  split.
  - unfold UsersRouter.put_profile. cbn [fst body body_keys].
    destruct (alter _ u (users db) !! u) as [x|].
    + exact (select_exclude_password_keys u x).
    + apply not_elem_of_nil.
  - unfold UsersRouter.put_profile. simpl.
    assert (alter (UsersRouter.apply_set (UsersRouter.build_userFields f)) u
              (alter (UsersRouter.apply_set (UsersRouter.build_userFields f)) u
                 (users db)) =
            alter (UsersRouter.apply_set (UsersRouter.build_userFields f)) u
              (users db)) as ->; [|done].
    apply map_eq. intros j. destruct (decide (j = u)) as [->|Hne].
    + rewrite !lookup_alter_eq. destruct (users db !! u); [|done].
      simpl. by rewrite apply_set_idemp.
    + by rewrite !lookup_alter_ne.
Qed.

(** ** Requests in sequence *)

Section Sequences.

#[local] Instance seq_newer_first_total : Total TweetsRouter.newer_first.
Proof. intros a b. unfold TweetsRouter.newer_first. lia. Qed.

#[local] Instance seq_newer_first_trans : Transitive TweetsRouter.newer_first.
Proof. intros a b c. unfold TweetsRouter.newer_first. lia. Qed.

(** The timeline of a stored user: what is listed matches the query, and
    what matches is listed unless 50 tweets at least as new are. *)
Lemma timeline_listed (db : Db) (u : N) (cu : User.t) :
  users db !! u = Some cu →
  ∃ ts,
    TweetsRouter.get_timeline u db = mkResponse 200 (Tweets ts) ∧
    (∀ i, i ∈ out_id <$> ts →
       ∃ t, tweets db !! i = Some t ∧
            (Tweet.user t = u ∨ Tweet.user t ∈ User.following cu)) ∧
    (∀ i t, tweets db !! i = Some t →
       Tweet.user t = u ∨ Tweet.user t ∈ User.following cu →
       i ∈ out_id <$> ts ∨
       (length ts = 50%nat ∧
        ∀ o, o ∈ ts → (Tweet.createdAt t ≤ Tweet.createdAt (out_tweet o))%N)).
Proof.
  intros Hu. unfold TweetsRouter.get_timeline. rewrite Hu.
  destruct (sorted_query_limit TweetsRouter.newer_first
              (TweetsRouter.timeline_query u cu) (tweets db) 50)
    as (_ & Hin & _ & _ & Hfull).
  eexists. split; [reflexivity|]. split.
  - intros i Hi. apply list_elem_of_fmap in Hi as (o & -> & Ho).
    apply list_elem_of_fmap in Ho as (kv & -> & Hkv).
    destruct (Hin kv Hkv) as [Hstored Hq]. by exists kv.2.
  - intros i t Hi Hq. destruct (Hfull i t Hi Hq) as [Hlisted|[Hn Hold]].
    + left. rewrite <- list_fmap_compose. apply list_elem_of_fmap.
      by exists (i, t).
    + right. split; [by rewrite length_fmap|].
      intros o Ho. apply list_elem_of_fmap in Ho as (kv & -> & Hkv).
      by apply (Hold kv).
Qed.

(** X25.  Following and the timeline.  Let [a] and [b] be two different
    stored users, [a] not following [b], and [i] a stored tweet of [b]; the
    follow requests name [b] by the string of its ObjectId.  Before the
    follow the timeline of [a] does not list [i].  After [a] follows [b] it
    lists [i], unless it already holds 50 tweets at least as new.  After
    the same request again ([a] unfollows [b]) it does not list [i] any
    more. *)
Theorem follow_then_timeline (bson : Bson) (db : Db) (a b i : N) (ua ub : User.t)
  (t : Tweet.t) :
  a ≠ b →
  castObjectId bson (toHexString b) = Some b →
  users db !! a = Some ua →
  users db !! b = Some ub →
  b ∉ User.following ua →
  tweets db !! i = Some t →
  Tweet.user t = b →
  ∃ db1 db2 ts0 ts1 ts2,
    TweetsRouter.get_timeline a db = mkResponse 200 (Tweets ts0) ∧
    (i ∉ out_id <$> ts0) ∧
    UsersRouter.post_follow bson a (toHexString b) db =
      (mkResponse 200 (Message "User followed"), db1) ∧
    TweetsRouter.get_timeline a db1 = mkResponse 200 (Tweets ts1) ∧
    (i ∈ out_id <$> ts1 ∨
     (length ts1 = 50%nat ∧
      ∀ o, o ∈ ts1 → (Tweet.createdAt t ≤ Tweet.createdAt (out_tweet o))%N)) ∧
    UsersRouter.post_follow bson a (toHexString b) db1 =
      (mkResponse 200 (Message "User unfollowed"), db2) ∧
    TweetsRouter.get_timeline a db2 = mkResponse 200 (Tweets ts2) ∧
    (i ∉ out_id <$> ts2).
Proof.
  intros Hab Hcast Ha Hb Hnew Hi Hauthor.
  destruct (follow_toggle_canonical bson db a b ua ub Hab Hcast Ha Hb Hnew)
    as (db1 & db2 & H1 & (Ha1 & Hb1 & _) & Htw1 & _ & H2 & (Ha2 & _ & _)
        & Htw2 & _).
  destruct (timeline_listed db a ua Ha) as (ts0 & Hts0 & Hsound0 & _).
  destruct (timeline_listed db1 a _ Ha1) as (ts1 & Hts1 & _ & Hfull1).
  destruct (timeline_listed db2 a _ Ha2) as (ts2 & Hts2 & Hsound2 & _).
  exists db1, db2, ts0, ts1, ts2.
  split; [exact Hts0|]. split.
  { intros Hlisted. destruct (Hsound0 i Hlisted) as (t' & Hi' & Hq).
    assert (t' = t) as -> by congruence. rewrite Hauthor in Hq.
    destruct Hq as [Hq|Hq]; [by apply Hab|by apply Hnew]. }
  split; [exact H1|]. split; [exact Hts1|]. split.
  { apply (Hfull1 i t); [by rewrite Htw1|]. right. rewrite Hauthor.
    simpl. rewrite push_elem_of. by right. }
  split; [exact H2|]. split; [exact Hts2|].
  intros Hlisted. destruct (Hsound2 i Hlisted) as (t' & Hi' & Hq).
  rewrite Htw2 in Hi'. assert (t' = t) as -> by congruence.
  rewrite Hauthor in Hq. destruct Hq as [Hq|Hq]; [by apply Hab|].
  simpl in Hq. apply pull_elem_of in Hq as [Hne _]. by apply Hne.
Qed.

(** X26.  A tweet deleted by its author is gone from every read: its
    comment listing is empty, neither the global listing nor the listing
    of its author nor any timeline shows it, and a like on it is answered
    404. *)
Theorem deleted_tweet_disappears (db : Db) (u id : N) (t : Tweet.t) :
  tweets db !! id = Some t →
  Tweet.user t = u →
  ∃ db',
    TweetsRouter.delete_tweet u id db =
      (mkResponse 200 (Message "Tweet removed"), db') ∧
    get_tweet_comments id db' = [] ∧
    (∀ ts, get_tweets db' = mkResponse 200 (Tweets ts) → id ∉ out_id <$> ts) ∧
    (∀ ts, get_user_tweets u db' = mkResponse 200 (Tweets ts) →
           id ∉ out_id <$> ts) ∧
    (∀ v ts, TweetsRouter.get_timeline v db' = mkResponse 200 (Tweets ts) →
             id ∉ out_id <$> ts) ∧
    (∀ v now, TweetsRouter.post_like v id now db' =
                (mkResponse 404 (Message "Tweet not found"), db')).
Proof.
  intros Ht Hu. eexists. split.
  { unfold TweetsRouter.delete_tweet. rewrite Ht, Hu, N.eqb_refl. reflexivity. }
  set (db' := set_tweets _ _).
  assert (tweets db' !! id = None) as Hgone by apply lookup_delete_eq.
  assert (∀ (P : N * Tweet.t → Prop) `{!∀ x, Decision (P x)} n,
            id ∉ (take n (merge_sort TweetsRouter.newer_first
                            (filter P (map_to_list (tweets db'))))).*1)
    as Hnot.
  { intros P HP n Hin. apply list_elem_of_fmap in Hin as ([j x] & -> & Hkv).
    destruct (sorted_query_limit TweetsRouter.newer_first P (tweets db') n)
      as (_ & Hstored & _).
    destruct (Hstored _ Hkv) as [Hj _]. by rewrite Hgone in Hj. }
  split.
  { destruct (get_tweet_comments id db') as [|o l] eqn:Hl; [done|].
    assert (comments db' !! cout_id o = Some (cout_comment o) ∧
            Comment.tweet (cout_comment o) = id) as [Hc Hp].
    { apply get_tweet_comments_elem. exists o. rewrite Hl.
      split; [apply list_elem_of_here|done]. }
    simpl in Hc. rewrite deleteMany_comments_lookup in Hc.
    destruct (comments db !! cout_id o) as [c|]; [|done].
    destruct (decide (Comment.tweet c = id)); [done|]. congruence. }
  split.
  { intros ts. unfold get_tweets. intros [= <-].
    rewrite <- list_fmap_compose.
    rewrite <- (filter_all (map_to_list (tweets db'))).
    apply (Hnot (λ _, True) _ 20%nat). }
  split.
  { intros ts. unfold get_user_tweets. intros [= <-].
    rewrite <- list_fmap_compose.
    set (l := merge_sort _ _). rewrite <- (take_ge l (length l)) by lia.
    apply (Hnot (λ kv, Tweet.user kv.2 = u) _ (length l)). }
  split.
  { intros v ts. unfold TweetsRouter.get_timeline.
    destruct (users db' !! v) as [cu|]; [|discriminate]. intros [= <-].
    rewrite <- list_fmap_compose.
    apply (Hnot (TweetsRouter.timeline_query v cu) _ 50%nat). }
  intros v now. unfold TweetsRouter.post_like. by rewrite Hgone.
Qed.

End Sequences.

(** X25 at concrete requests: Alice (1) and Bob (2), whose tweet is 7. *)
Lemma follow_then_timeline_witness :
  (1%N ≠ 2%N) ∧
  castObjectId HexOnly (toHexString 2) = Some 2%N ∧
  toHexString 2 = "000000000000000000000002" ∧
  users Sample.db !! 1%N = Some Sample.alice ∧
  users Sample.db !! 2%N = Some Sample.bob ∧
  (2%N ∉ User.following Sample.alice) ∧
  tweets Sample.db !! 7%N = Some Sample.tweet7 ∧
  Tweet.user Sample.tweet7 = 2%N ∧
  out_id <$> match body (TweetsRouter.get_timeline 1 Sample.db) with
             | Tweets ts => ts | _ => [] end = [9%N] ∧
  ∃ db1 db2 ts1 ts2,
    UsersRouter.post_follow HexOnly 1 "000000000000000000000002" Sample.db =
      (mkResponse 200 (Message "User followed"), db1) ∧
    TweetsRouter.get_timeline 1 db1 = mkResponse 200 (Tweets ts1) ∧
    out_id <$> ts1 = [9%N; 7%N] ∧
    UsersRouter.post_follow HexOnly 1 "000000000000000000000002" db1 =
      (mkResponse 200 (Message "User unfollowed"), db2) ∧
    TweetsRouter.get_timeline 1 db2 = mkResponse 200 (Tweets ts2) ∧
    (7%N ∉ out_id <$> ts2).
Proof.
  assert (1%N ≠ 2%N) as Hab by discriminate.
  assert (castObjectId HexOnly (toHexString 2) = Some 2%N) as Hcast by reflexivity.
  assert (users Sample.db !! 1%N = Some Sample.alice) as Ha by reflexivity.
  assert (users Sample.db !! 2%N = Some Sample.bob) as Hb by reflexivity.
  assert (2%N ∉ User.following Sample.alice) as Hnew by apply not_elem_of_nil.
  assert (tweets Sample.db !! 7%N = Some Sample.tweet7) as Hi by reflexivity.
  split; [exact Hab|]. split; [exact Hcast|]. split; [reflexivity|].
  split; [exact Ha|]. split; [exact Hb|].
  split; [exact Hnew|]. split; [exact Hi|]. split; [reflexivity|].
  split; [vm_compute; reflexivity|].
  destruct (follow_then_timeline HexOnly Sample.db 1 2 7 Sample.alice Sample.bob
              Sample.tweet7 Hab Hcast Ha Hb Hnew Hi eq_refl)
    as (db1 & db2 & ts0 & ts1 & ts2 & _ & _ & H1 & Hts1 & _ & H2 & Hts2 & Hout).
  exists db1, db2, ts1, ts2. split; [exact H1|]. split; [exact Hts1|].
  split; [|split; [exact H2|split; [exact Hts2|exact Hout]]].
  injection H1 as <-. vm_compute in Hts1. injection Hts1 as <-. reflexivity.
Defined.

Lemma deleted_tweet_disappears_witness :
  tweets Sample.db !! 7%N = Some Sample.tweet7 ∧
  Tweet.user Sample.tweet7 = 2%N ∧
  get_tweet_comments 7 Sample.db ≠ [] ∧
  ∃ db',
    TweetsRouter.delete_tweet 2 7 Sample.db =
      (mkResponse 200 (Message "Tweet removed"), db') ∧
    get_tweet_comments 7 db' = [] ∧
    TweetsRouter.post_like 1 7 900 db' =
      (mkResponse 404 (Message "Tweet not found"), db').
Proof.
  assert (tweets Sample.db !! 7%N = Some Sample.tweet7) as Ht by reflexivity.
  split; [exact Ht|]. split; [reflexivity|].
  split; [vm_compute; discriminate|].
  destruct (deleted_tweet_disappears Sample.db 2 7 Sample.tweet7 Ht eq_refl)
    as (db' & Hdel & Hcomments & _ & _ & _ & Hlike).
  exists db'. split; [exact Hdel|]. split; [exact Hcomments|exact (Hlike _ _)].
Defined.
